(** * A shallow embedding of the CSV ingestion pipeline, the DataFrame engine
      and the predicate builder (csv_parser.py, dataframe.py, filters.py).

    Python values are modelled as follows.
    - [str] is [string]: a character is a code point below 256, and the
      character classes ([isspace], [isdigit], [lower], what [int] and
      [float] read) are Python's on that range. Text holding a code point
      beyond U+00FF is not represented.
    - [int] is [Z] (unbounded, as in Python).
    - [float] is an IEEE-754 binary64 number, [spec_float] with precision 53
      and maximal exponent 1024; decimal literals are rounded to nearest-even.
    - [dict] is an association list in insertion order with distinct keys.
    - a raised exception is the [Err] branch of [result]. *)

From Stdlib Require Import ZArith List String Ascii Bool Lia SpecFloat.
From Stdlib Require Import Sorted Permutation DecimalString.
From Stdlib Require QArith Qpower OrderedTypeEx.
Import ListNotations.

Local Open Scope string_scope.
Local Open Scope Z_scope.

(** ** Exceptions and the error monad *)

Inductive exn : Type :=
| ValueError (msg : string)
| KeyError (key : string)
| TypeError
| OverflowError.

Inductive result (A : Type) : Type :=
| Ok (a : A)
| Err (e : exn).

Arguments Ok {A} a.
Arguments Err {A} e.

Definition bind {A B : Type} (r : result A) (k : A -> result B) : result B :=
  match r with
  | Ok a => k a
  | Err e => Err e
  end.

Notation "x <- c ;; k" := (bind c (fun x => k))
  (at level 61, c at next level, right associativity).

(** [[f(x) for x in xs]] with a body that may raise. *)
Fixpoint mapM {A B : Type} (f : A -> result B) (xs : list A) : result (list B) :=
  match xs with
  | [] => Ok []
  | x :: xs' => y <- f x ;; ys <- mapM f xs' ;; Ok (y :: ys)
  end.

(** ** Python strings *)

Module PyStr.

Definition ord (c : ascii) : Z := Z.of_N (N_of_ascii c).

(** [str.isspace] on one character: the blanks of the 7-bit range, the
    next-line control U+0085 and the no-break space U+00A0. *)
Definition isspace (c : ascii) : bool :=
  let n := ord c in
  ((9 <=? n) && (n <=? 13)) || ((28 <=? n) && (n <=? 32))
  || (n =? 133) || (n =? 160).

(** The blanks [int] and [float] skip at both ends of their argument: the
    six of C, and the blanks beyond the 7-bit range, which they first turn
    into spaces. The separators U+001C to U+001F are not among them. *)
Definition isspace_num (c : ascii) : bool :=
  let n := ord c in
  ((9 <=? n) && (n <=? 13)) || (n =? 32) || (n =? 133) || (n =? 160).

(** A decimal digit, the only digits [int] and [float] read. *)
Definition isdecimal_char (c : ascii) : bool :=
  let n := ord c in (48 <=? n) && (n <=? 57).

(** [str.isdigit] on one character: a decimal digit or one of the
    superscripts U+00B2, U+00B3 and U+00B9. *)
Definition isdigit_char (c : ascii) : bool :=
  let n := ord c in
  isdecimal_char c || (n =? 178) || (n =? 179) || (n =? 185).

(** [str.lower] on one character: the capitals of the 7-bit range and
    those from U+00C0 to U+00DE, the multiplication sign U+00D7 apart. *)
Definition lower_char (c : ascii) : ascii :=
  let n := ord c in
  if ((65 <=? n) && (n <=? 90))
     || ((192 <=? n) && (n <=? 222) && negb (n =? 215))
  then ascii_of_N (Z.to_N (n + 32)) else c.

Definition digit_val (c : ascii) : Z := ord c - 48.

Fixpoint lower (s : string) : string :=
  match s with
  | EmptyString => EmptyString
  | String c r => String (lower_char c) (lower r)
  end.

Fixpoint all_chars (p : ascii -> bool) (s : string) : bool :=
  match s with
  | EmptyString => true
  | String c r => p c && all_chars p r
  end.

Definition nonempty (s : string) : bool :=
  match s with
  | EmptyString => false
  | String _ _ => true
  end.

(** [s.isdigit()]: at least one character, all of them digits. *)
Definition isdigit (s : string) : bool := nonempty s && all_chars isdigit_char s.

(** A non-empty run of decimal digits. *)
Definition isdecimal (s : string) : bool := nonempty s && all_chars isdecimal_char s.

Fixpoint lstrip_by (p : ascii -> bool) (s : string) : string :=
  match s with
  | EmptyString => EmptyString
  | String c r => if p c then lstrip_by p r else s
  end.

Fixpoint rstrip_by (p : ascii -> bool) (s : string) : string :=
  match s with
  | EmptyString => EmptyString
  | String c r =>
      match rstrip_by p r with
      | EmptyString => if p c then EmptyString else String c EmptyString
      | r' => String c r'
      end
  end.

(** [s.strip()] *)
Definition strip (s : string) : string := rstrip_by isspace (lstrip_by isspace s).

(** The argument of [int] or [float] without the blanks they skip. *)
Definition strip_num (s : string) : string :=
  rstrip_by isspace_num (lstrip_by isspace_num s).

(** [s.rstrip("\n")] *)
Definition rstrip_nl (s : string) : string :=
  rstrip_by (fun c => Ascii.eqb c "010"%char) s.

(** [ch in s] for a one-character needle. *)
Fixpoint contains (ch : ascii) (s : string) : bool :=
  match s with
  | EmptyString => false
  | String c r => Ascii.eqb c ch || contains ch r
  end.

Fixpoint last_char (s : string) : option ascii :=
  match s with
  | EmptyString => None
  | String c EmptyString => Some c
  | String _ r => last_char r
  end.

(** [s.endswith(ch)] *)
Definition endswith (ch : ascii) (s : string) : bool :=
  match last_char s with
  | Some c => Ascii.eqb c ch
  | None => false
  end.

(** The text after the last occurrence of [ch], when there is one:
    [s[s.rfind(ch)+1:]]. *)
Fixpoint after_last (ch : ascii) (s : string) : option string :=
  match s with
  | EmptyString => None
  | String c r =>
      match after_last ch r with
      | Some t => Some t
      | None => if Ascii.eqb c ch then Some r else None
      end
  end.

(** [s[:-1]] *)
Fixpoint drop_last (s : string) : string :=
  match s with
  | EmptyString => EmptyString
  | String _ EmptyString => EmptyString
  | String c r => String c (drop_last r)
  end.

(** [s[1:]] *)
Definition tail (s : string) : string :=
  match s with
  | EmptyString => EmptyString
  | String _ r => r
  end.

(** [s.split(ch)]: the pieces between the occurrences of [ch]. *)
Fixpoint split_on (ch : ascii) (s : string) : list string :=
  match s with
  | EmptyString => [EmptyString]
  | String c r =>
      if Ascii.eqb c ch then EmptyString :: split_on ch r
      else
        match split_on ch r with
        | [] => [String c EmptyString]
        | p :: ps => String c p :: ps
        end
  end.

(** [s[i]] when [i] is in range. *)
Definition char_at (i : nat) (s : string) : option ascii := String.get i s.

Definition len (s : string) : Z := Z.of_nat (String.length s).

(** Value of a run of decimal digits, most significant first. *)
Fixpoint digits_value_acc (acc : Z) (s : string) : Z :=
  match s with
  | EmptyString => acc
  | String c r => digits_value_acc (10 * acc + digit_val c) r
  end.

Definition digits_value (s : string) : Z := digits_value_acc 0 s.

(** Underscore grouping of numeric literals: every ["_"] has a digit on
    both sides; the result is the text without the underscores. [prev] is
    the character before [s]. *)
Fixpoint remove_underscores (prev : option ascii) (s : string) : option string :=
  let prev_digit := match prev with Some p => isdecimal_char p | None => false end in
  let prev_us := match prev with Some p => Ascii.eqb p "_"%char | None => false end in
  match s with
  | EmptyString => if prev_us then None else Some EmptyString
  | String c r =>
      if Ascii.eqb c "_"%char then
        if prev_digit then remove_underscores (Some c) r else None
      else if prev_us && negb (isdecimal_char c) then None
      else
        match remove_underscores (Some c) r with
        | Some t => Some (String c t)
        | None => None
        end
  end.

(** An optional sign in front of the rest of the text. *)
Definition split_sign (s : string) : bool * string :=
  match s with
  | String c r =>
      if Ascii.eqb c "-"%char then (true, r)
      else if Ascii.eqb c "+"%char then (false, r)
      else (false, s)
  | EmptyString => (false, s)
  end.

(** The longest run of digits [int] converts: [sys.get_int_max_str_digits()],
    which the program leaves at its default. *)
Definition max_str_digits : Z := 4300.

(** [int(s)] in base 10; [None] stands for [ValueError], raised on a text
    that is not a literal and on a literal of more than [max_str_digits]
    digits. *)
Definition py_int (s : string) : option Z :=
  let '(neg, body) := split_sign (strip_num s) in
  match remove_underscores None body with
  | Some d =>
      if isdecimal d && (len d <=? max_str_digits)
      then Some (if neg then - digits_value d else digits_value d)
      else None
  | None => None
  end.

End PyStr.

(** ** Python floats: IEEE-754 binary64 *)

Module PyFloat.

Definition prec : Z := 53.
Definition emax : Z := 1024.

Definition float : Type := spec_float.

(** [float(z)] for an integer, rounded to nearest-even, infinite when the
    integer is beyond the largest double. *)
Definition of_Z (z : Z) : float := binary_normalize prec emax z 0 false.

(** The double nearest to [n / d], for [0 <= n] and [0 < d]. *)
Definition of_ratio (neg : bool) (n d : Z) : float :=
  match n with
  | Z0 => S754_zero neg
  | _ =>
      let '(q, e, l) := SFdiv_core_binary prec emax n 0 d 0 in
      binary_round_aux prec emax neg q e l
  end.

(** The double nearest to [m * 10^e], for [0 <= m]. *)
Definition of_decimal (neg : bool) (m e : Z) : float :=
  if 0 <=? e then of_ratio neg (m * 10 ^ e) 1
  else of_ratio neg m (10 ^ (- e)).

Definition add : float -> float -> float := SFadd prec emax.
Definition sub : float -> float -> float := SFsub prec emax.
Definition abs : float -> float := SFabs.
Definition ltb : float -> float -> bool := SFltb.

Definition is_inf (f : float) : bool :=
  match f with
  | S754_infinity _ => true
  | _ => false
  end.

Fixpoint span_digits (s : string) : string * string :=
  match s with
  | EmptyString => (EmptyString, EmptyString)
  | String c r =>
      if PyStr.isdecimal_char c then
        let '(d, rest) := span_digits r in (String c d, rest)
      else (EmptyString, s)
  end.

(** The exponent part of a literal: nothing, or [e]/[E], an optional sign
    and at least one digit. *)
Definition parse_exponent (s : string) : option Z :=
  match s with
  | EmptyString => Some 0
  | String c r =>
      if Ascii.eqb (PyStr.lower_char c) "e"%char then
        let '(neg, d) := PyStr.split_sign r in
        if PyStr.isdecimal d
        then Some (if neg then - PyStr.digits_value d else PyStr.digits_value d)
        else None
      else None
  end.

(** [float(s)]; [None] stands for [ValueError]. *)
Definition py_float (s : string) : option float :=
  match PyStr.remove_underscores None (PyStr.strip_num s) with
  | None => None
  | Some t =>
      let '(neg, body) := PyStr.split_sign t in
      let lb := PyStr.lower body in
      if String.eqb lb "inf" || String.eqb lb "infinity" then Some (S754_infinity neg)
      else if String.eqb lb "nan" then Some S754_nan
      else
        let '(ip, r1) := span_digits body in
        let '(fp, r2) :=
          match r1 with
          | String "."%char r => span_digits r
          | _ => (EmptyString, r1)
          end in
        if PyStr.nonempty ip || PyStr.nonempty fp then
          match parse_exponent r2 with
          | Some x =>
              Some (of_decimal neg (PyStr.digits_value (ip ++ fp)) (x - PyStr.len fp))
          | None => None
          end
        else None
  end.

End PyFloat.

(** ** Numbers compared by exact value *)

Module PyNum.

(** The exact value of a number: not-a-number, an infinity, or [m * 2^e]
    with [m] odd, zero being [XFin 0 0]. *)
Inductive xnum : Type :=
| XNaN
| XInf (neg : bool)
| XFin (m e : Z).

Fixpoint strip_zeros (p : positive) (e : Z) : positive * Z :=
  match p with
  | xO p' => strip_zeros p' (e + 1)
  | _ => (p, e)
  end.

Definition xnorm (m e : Z) : xnum :=
  match m with
  | Z0 => XFin 0 0
  | Zpos p => let '(q, e') := strip_zeros p e in XFin (Zpos q) e'
  | Zneg p => let '(q, e') := strip_zeros p e in XFin (Zneg q) e'
  end.

Definition of_int (z : Z) : xnum := xnorm z 0.

Definition of_float (f : PyFloat.float) : xnum :=
  match f with
  | S754_zero _ => XFin 0 0
  | S754_infinity s => XInf s
  | S754_nan => XNaN
  | S754_finite s m e => xnorm (if s then Zneg m else Zpos m) e
  end.

Definition xnum_eqb (a b : xnum) : bool :=
  match a, b with
  | XInf s1, XInf s2 => Bool.eqb s1 s2
  | XFin m1 e1, XFin m2 e2 => (m1 =? m2) && (e1 =? e2)
  | _, _ => false
  end.

(** Order of two exact values; [None] when one is not-a-number. *)
Definition xcompare (a b : xnum) : option comparison :=
  match a, b with
  | XNaN, _ | _, XNaN => None
  | XInf s1, XInf s2 =>
      Some (match s1, s2 with
            | true, false => Lt
            | false, true => Gt
            | _, _ => Eq
            end)
  | XInf s, XFin _ _ => Some (if s then Lt else Gt)
  | XFin _ _, XInf s => Some (if s then Gt else Lt)
  | XFin m1 e1, XFin m2 e2 =>
      let e := Z.min e1 e2 in
      Some (Z.compare (m1 * 2 ^ (e1 - e)) (m2 * 2 ^ (e2 - e)))
  end.

Definition xltb (a b : xnum) : bool :=
  match xcompare a b with
  | Some Lt => true
  | _ => false
  end.

Definition xleb (a b : xnum) : bool :=
  match xcompare a b with
  | Some (Lt | Eq) => true
  | _ => false
  end.

End PyNum.

(** ** Typed values and rows *)

Module PyVal.

(** What a cell holds: [None], an [int], a [float] or a [str]. *)
Inductive value : Type :=
| VNone
| VInt (z : Z)
| VFloat (f : PyFloat.float)
| VStr (s : string).

(** [isinstance(v, (int, float))] *)
Definition is_number (v : value) : bool :=
  match v with
  | VInt _ | VFloat _ => true
  | _ => false
  end.

Definition is_none (v : value) : bool :=
  match v with
  | VNone => true
  | _ => false
  end.

Definition exact (v : value) : PyNum.xnum :=
  match v with
  | VInt z => PyNum.of_int z
  | VFloat f => PyNum.of_float f
  | _ => PyNum.XNaN
  end.

(** [a == b]: numbers by exact value (a not-a-number equals nothing, each
    parsed one being an object of its own), strings by content. *)
Definition py_eq (a b : value) : bool :=
  match a, b with
  | VNone, VNone => true
  | VStr s, VStr t => String.eqb s t
  | (VInt _ | VFloat _), (VInt _ | VFloat _) => PyNum.xnum_eqb (exact a) (exact b)
  | _, _ => false
  end.

(** [a < b]: defined between two numbers and between two strings. *)
Definition py_lt (a b : value) : result bool :=
  match a, b with
  | VStr s, VStr t => Ok (String.ltb s t)
  | (VInt _ | VFloat _), (VInt _ | VFloat _) => Ok (PyNum.xltb (exact a) (exact b))
  | _, _ => Err TypeError
  end.

(** [a <= b] *)
Definition py_le (a b : value) : result bool :=
  match a, b with
  | VStr s, VStr t => Ok (String.leb s t)
  | (VInt _ | VFloat _), (VInt _ | VFloat _) => Ok (PyNum.xleb (exact a) (exact b))
  | _, _ => Err TypeError
  end.

(** [a > b] and [a >= b] are the reflected comparisons. *)
Definition py_gt (a b : value) : result bool := py_lt b a.
Definition py_ge (a b : value) : result bool := py_le b a.

End PyVal.

Export PyVal.

(** A [dict] with string keys, in insertion order. *)
Module PyDict.

Definition dict (V : Type) : Type := list (string * V).

Fixpoint get {V : Type} (k : string) (d : dict V) : option V :=
  match d with
  | [] => None
  | (k', v) :: r => if String.eqb k' k then Some v else get k r
  end.

(** [d[k] = v]: an existing key keeps its place. *)
Fixpoint set {V : Type} (k : string) (v : V) (d : dict V) : dict V :=
  match d with
  | [] => [(k, v)]
  | (k', v') :: r => if String.eqb k' k then (k, v) :: r else (k', v') :: set k v r
  end.

Definition keys {V : Type} (d : dict V) : list string := map fst d.

(** [d[k]], raising [KeyError] on a missing key. *)
Definition index {V : Type} (d : dict V) (k : string) : result V :=
  match get k d with
  | Some v => Ok v
  | None => Err (KeyError k)
  end.

End PyDict.

Definition row : Type := PyDict.dict value.

(** [row.get(k)]: [None] for a missing key. *)
Definition row_get (r : row) (k : string) : value :=
  match PyDict.get k r with
  | Some v => v
  | None => VNone
  end.

(** [col in columns] *)
Definition mem_str (c : string) (l : list string) : bool := existsb (String.eqb c) l.

(** ** csv_parser.py *)

Module CsvParser.

Definition _NULLS : list string := [EmptyString; "na"; "n/a"; "null"; "none"].

(** The module-level [stats] dictionary. *)
Record stats_t : Type := mkStats {
  total_rows : Z;
  total_fields : Z;
  num_nulls : Z;
  num_ints : Z;
  num_floats : Z;
  num_strings : Z;
  malformed_rows : Z;
  duplicates_removed : Z
}.

(** The value of [stats] when the module is loaded. *)
Definition stats0 : stats_t := mkStats 0 0 0 0 0 0 0 0.

Definition bump_total_rows (s : stats_t) : stats_t :=
  mkStats (total_rows s + 1) (total_fields s) (num_nulls s) (num_ints s)
          (num_floats s) (num_strings s) (malformed_rows s) (duplicates_removed s).
Definition bump_total_fields (s : stats_t) : stats_t :=
  mkStats (total_rows s) (total_fields s + 1) (num_nulls s) (num_ints s)
          (num_floats s) (num_strings s) (malformed_rows s) (duplicates_removed s).
Definition bump_num_nulls (s : stats_t) : stats_t :=
  mkStats (total_rows s) (total_fields s) (num_nulls s + 1) (num_ints s)
          (num_floats s) (num_strings s) (malformed_rows s) (duplicates_removed s).
Definition bump_num_ints (s : stats_t) : stats_t :=
  mkStats (total_rows s) (total_fields s) (num_nulls s) (num_ints s + 1)
          (num_floats s) (num_strings s) (malformed_rows s) (duplicates_removed s).
Definition bump_num_floats (s : stats_t) : stats_t :=
  mkStats (total_rows s) (total_fields s) (num_nulls s) (num_ints s)
          (num_floats s + 1) (num_strings s) (malformed_rows s) (duplicates_removed s).
Definition bump_num_strings (s : stats_t) : stats_t :=
  mkStats (total_rows s) (total_fields s) (num_nulls s) (num_ints s)
          (num_floats s) (num_strings s + 1) (malformed_rows s) (duplicates_removed s).
Definition bump_malformed_rows (s : stats_t) : stats_t :=
  mkStats (total_rows s) (total_fields s) (num_nulls s) (num_ints s)
          (num_floats s) (num_strings s) (malformed_rows s + 1) (duplicates_removed s).
Definition bump_duplicates_removed (s : stats_t) : stats_t :=
  mkStats (total_rows s) (total_fields s) (num_nulls s) (num_ints s)
          (num_floats s) (num_strings s) (malformed_rows s) (duplicates_removed s + 1).

(** [_coerce(tok)], threading [stats]. *)
Definition _coerce (tok : string) (st : stats_t) : value * stats_t :=
  let t := PyStr.strip tok in
  let st := bump_total_fields st in
  if mem_str (PyStr.lower t) _NULLS then (VNone, bump_num_nulls st)
  else
    let try_float (st : stats_t) :=
      match PyFloat.py_float t with
      | Some val => (VFloat val, bump_num_floats st)
      | None => (VStr t, bump_num_strings st)
      end in
    if PyStr.nonempty t &&
       (PyStr.isdigit t ||
        (match t with String c _ => Ascii.eqb c "-"%char | EmptyString => false end
         && PyStr.isdigit (PyStr.tail t)))
    then
      let st := bump_num_ints st in
      match PyStr.py_int t with
      | Some z => (VInt z, st)
      | None => try_float st
      end
    else try_float st.

Definition dquote : ascii := "034"%char.
Definition newline : ascii := "010"%char.

Definition push (cur : string) (ch : ascii) : string := cur ++ String ch EmptyString.

(** The scan of [_split_csv_line] from position [i] on: [line] is the text
    from [i] to the end. *)
Fixpoint split_loop (delimiter : string) (line : string)
         (fields : list string) (cur : string) (in_quotes : bool) : list string :=
  match line with
  | EmptyString => fields ++ [cur]
  | String ch rest =>
      if Ascii.eqb ch dquote then
        match rest with
        | String ch2 rest2 =>
            if in_quotes && Ascii.eqb ch2 dquote
            then split_loop delimiter rest2 fields (push cur dquote) in_quotes
            else split_loop delimiter rest fields cur (negb in_quotes)
        | EmptyString => split_loop delimiter rest fields cur (negb in_quotes)
        end
      else if String.eqb (String ch EmptyString) delimiter && negb in_quotes
      then split_loop delimiter rest (fields ++ [cur]) EmptyString in_quotes
      else if Ascii.eqb ch newline && negb in_quotes
      then split_loop delimiter rest fields cur in_quotes
      else split_loop delimiter rest fields (push cur ch) in_quotes
  end.

Definition _split_csv_line (line : string) (delimiter : string) : list string :=
  split_loop delimiter line [] EmptyString false.

(** [{h: _coerce(v) for h, v in zip(header, parts)}], continuing from the
    dictionary built so far. *)
Fixpoint build_row (header parts : list string) (acc : row) (st : stats_t)
  : row * stats_t :=
  match header, parts with
  | h :: hs, v :: vs =>
      let '(x, st') := _coerce v st in
      build_row hs vs (PyDict.set h x acc) st'
  | _, _ => (acc, st)
  end.

(** The [for line in f] loop of [read_csv]. *)
Fixpoint read_lines (header : list string) (lines : list string) (delimiter : string)
         (rows : list row) (st : stats_t) : list row * stats_t :=
  match lines with
  | [] => (rows, st)
  | line :: rest =>
      let parts := _split_csv_line (PyStr.rstrip_nl line) delimiter in
      if negb (Nat.eqb (List.length parts) (List.length header))
      then read_lines header rest delimiter rows (bump_malformed_rows st)
      else
        let '(r, st') := build_row header parts [] st in
        read_lines header rest delimiter (rows ++ [r]) (bump_total_rows st')
  end.

(** [read_csv(path, delimiter)]; [f] is the opened file, as the sequence of
    lines the text stream yields. *)
Definition read_csv (f : list string) (delimiter : string) (st : stats_t)
  : list row * stats_t :=
  match f with
  | [] => ([], st)
  | header_line :: lines =>
      if negb (PyStr.nonempty header_line) then ([], st)
      else
        let header := _split_csv_line (PyStr.rstrip_nl header_line) delimiter in
        read_lines header lines delimiter [] st
  end.

(** [sorted(row.items())]: the keys of a dictionary are distinct, so the
    pairs are ordered by key alone. *)
Fixpoint insert_item (x : string * value) (l : list (string * value))
  : list (string * value) :=
  match l with
  | [] => [x]
  | y :: r => if String.ltb (fst y) (fst x) then y :: insert_item x r else x :: l
  end.

Definition sorted_items (r : row) : list (string * value) :=
  fold_right insert_item [] r.

(** Equality of two tuples of [(key, value)] pairs. *)
Fixpoint tuple_eqb (a b : list (string * value)) : bool :=
  match a, b with
  | [], [] => true
  | (k1, v1) :: a', (k2, v2) :: b' => String.eqb k1 k2 && py_eq v1 v2 && tuple_eqb a' b'
  | _, _ => false
  end.

(** [row_tuple in seen] *)
Definition in_seen (t : list (string * value)) (seen : list (list (string * value)))
  : bool := existsb (tuple_eqb t) seen.

(** The loop of [remove_duplicates]. *)
Fixpoint dedup_loop (rows : list row) (seen : list (list (string * value)))
         (unique_rows : list row) (st : stats_t) : list row * stats_t :=
  match rows with
  | [] => (unique_rows, st)
  | r :: rest =>
      let row_tuple := sorted_items r in
      if negb (in_seen row_tuple seen)
      then dedup_loop rest (row_tuple :: seen) (unique_rows ++ [r]) st
      else dedup_loop rest seen unique_rows (bump_duplicates_removed st)
  end.

Definition remove_duplicates (rows : list row) (st : stats_t) : list row * stats_t :=
  dedup_loop rows [] [] st.

End CsvParser.

(** ** Built-in reductions used by [group_by] *)

Module PyAgg.

(** [float(z)] as used by mixed arithmetic: an integer beyond the doubles
    raises [OverflowError]. *)
Definition to_float (z : Z) : result PyFloat.float :=
  let f := PyFloat.of_Z z in
  if PyFloat.is_inf f then Err OverflowError else Ok f.

(** [a + b] on numbers. *)
Definition py_add (a b : value) : result value :=
  match a, b with
  | VInt x, VInt y => Ok (VInt (x + y))
  | VInt x, VFloat g => f <- to_float x ;; Ok (VFloat (PyFloat.add f g))
  | VFloat f, VInt y => g <- to_float y ;; Ok (VFloat (PyFloat.add f g))
  | VFloat f, VFloat g => Ok (VFloat (PyFloat.add f g))
  | _, _ => Err TypeError
  end.

(** [sum(values)], a left fold of [+] starting from the integer [0]. *)
Fixpoint sum_from (acc : value) (values : list value) : result value :=
  match values with
  | [] => Ok acc
  | v :: rest => acc' <- py_add acc v ;; sum_from acc' rest
  end.

Definition py_sum (values : list value) : result value := sum_from (VInt 0) values.

(** [max(values)] and [min(values)] on a non-empty list of numbers: the
    first extremal item is kept. *)
Fixpoint max_from (cur : value) (values : list value) : value :=
  match values with
  | [] => cur
  | v :: rest =>
      max_from (if PyNum.xltb (exact cur) (exact v) then v else cur) rest
  end.

Fixpoint min_from (cur : value) (values : list value) : value :=
  match values with
  | [] => cur
  | v :: rest =>
      min_from (if PyNum.xltb (exact v) (exact cur) then v else cur) rest
  end.

Definition py_max (values : list value) : value :=
  match values with
  | [] => VNone
  | v :: rest => max_from v rest
  end.

Definition py_min (values : list value) : value :=
  match values with
  | [] => VNone
  | v :: rest => min_from v rest
  end.

Definition is_float (v : value) : bool :=
  match v with
  | VFloat _ => true
  | _ => false
  end.

Definition non_finite (v : value) : bool :=
  match v with
  | VFloat (S754_infinity _) | VFloat S754_nan => true
  | _ => false
  end.

(** The numerator of a finite number over the common denominator [2^k]. *)
Definition scaled (k : Z) (v : value) : Z :=
  match v with
  | VInt z => z * 2 ^ k
  | VFloat (S754_finite s m e) => (if s then Zneg m else Zpos m) * 2 ^ (e + k)
  | _ => 0
  end.

Definition neg_exponent (v : value) : Z :=
  match v with
  | VFloat (S754_finite _ _ e) => Z.max 0 (- e)
  | _ => 0
  end.

(** [statistics.mean(values)] on a non-empty list of numbers: the exact
    rational mean, returned as an integer when every item is an integer and
    the mean is whole, and as the nearest double otherwise; with an infinite
    or not-a-number item the result is their float sum. *)
Definition mean (values : list value) : result value :=
  let special := filter non_finite values in
  match special with
  | _ :: _ => sum_from (VInt 0) special
  | [] =>
      let k := fold_right (fun v acc => Z.max (neg_exponent v) acc) 0 values in
      let p := fold_right (fun v acc => scaled k v + acc) 0 values in
      let q := Z.of_nat (List.length values) * 2 ^ k in
      if negb (existsb is_float values) && (p mod q =? 0) then Ok (VInt (p / q))
      else
        let f := PyFloat.of_ratio (p <? 0) (Z.abs p) q in
        if PyFloat.is_inf f then Err OverflowError else Ok (VFloat f)
  end.

End PyAgg.

(** ** dataframe.py *)

Module Dataframe.

Record DataFrame : Type := mkDataFrame {
  rows : list row;
  columns : list string
}.

(** [DataFrame(rows)]: the schema is read off the first row. *)
Definition __init__ (rs : list row) : DataFrame :=
  mkDataFrame rs (match rs with
                  | r :: _ => PyDict.keys r
                  | [] => []
                  end).

(** [[row for row in rows if condition(row)]] *)
Fixpoint filter_rows (condition : row -> result bool) (rs : list row)
  : result (list row) :=
  match rs with
  | [] => Ok []
  | r :: rest =>
      b <- condition r ;;
      kept <- filter_rows condition rest ;;
      Ok (if b then r :: kept else kept)
  end.

Definition filter (df : DataFrame) (condition : row -> result bool)
  : result DataFrame :=
  filtered_rows <- filter_rows condition (rows df) ;;
  Ok (__init__ filtered_rows).

Definition column_not_found_in_dataset (col : string) : exn :=
  ValueError ("Column '" ++ col ++ "' not found in dataset.").

Definition column_not_found (col : string) : exn :=
  ValueError ("Column '" ++ col ++ "' not found.").

Definition unsupported_aggregation (func : string) : exn :=
  ValueError ("Unsupported aggregation: " ++ func).

(** The check loop at the head of [project]. *)
Fixpoint check_columns (cols : list string) (have : list string) : result unit :=
  match cols with
  | [] => Ok tt
  | col :: rest =>
      if negb (mem_str col have) then Err (column_not_found_in_dataset col)
      else check_columns rest have
  end.

(** [{col: row[col] for col in columns}] *)
Fixpoint project_row (cols : list string) (r : row) (acc : row) : result row :=
  match cols with
  | [] => Ok acc
  | col :: rest => v <- PyDict.index r col ;; project_row rest r (PyDict.set col v acc)
  end.

Definition project (df : DataFrame) (cols : list string) : result DataFrame :=
  _ <- check_columns cols (columns df) ;;
  projected <- mapM (fun r => project_row cols r []) (rows df) ;;
  Ok (__init__ projected).

(** [groups[key].append(row)] on the [defaultdict(list)]. *)
Fixpoint groups_add (key : value) (r : row) (groups : list (value * list row))
  : list (value * list row) :=
  match groups with
  | [] => [(key, [r])]
  | (k, rs) :: rest =>
      if py_eq k key then (k, (rs ++ [r])%list) :: rest
      else (k, rs) :: groups_add key r rest
  end.

Fixpoint build_groups (rs : list row) (group_col : string)
         (groups : list (value * list row)) : result (list (value * list row)) :=
  match rs with
  | [] => Ok groups
  | r :: rest =>
      key <- PyDict.index r group_col ;;
      build_groups rest group_col (groups_add key r groups)
  end.

(** The [if func == ...] chain, on a non-empty list of numbers. *)
Definition aggregate (func : string) (values : list value) : result value :=
  if String.eqb func "avg" then PyAgg.mean values
  else if String.eqb func "sum" then PyAgg.py_sum values
  else if String.eqb func "max" then Ok (PyAgg.py_max values)
  else if String.eqb func "min" then Ok (PyAgg.py_min values)
  else if String.eqb func "count" then Ok (VInt (Z.of_nat (List.length values)))
  else Err (unsupported_aggregation func).

(** The [for col, func in agg_map.items()] loop for one group. *)
Fixpoint agg_columns (agg_map : PyDict.dict string) (rs : list row) (agg_result : row)
  : result row :=
  match agg_map with
  | [] => Ok agg_result
  | (col, func) :: rest =>
      cells <- mapM (fun r => PyDict.index r col) rs ;;
      let values := List.filter is_number cells in
      match values with
      | [] => agg_columns rest rs (PyDict.set col VNone agg_result)
      | _ :: _ =>
          v <- aggregate func values ;;
          agg_columns rest rs (PyDict.set col v agg_result)
      end
  end.

Definition group_by (df : DataFrame) (group_col : string) (agg_map : PyDict.dict string)
  : result DataFrame :=
  groups <- build_groups (rows df) group_col [] ;;
  result <- mapM (fun g => agg_columns agg_map (snd g) [(group_col, fst g)]) groups ;;
  Ok (__init__ result).

(** The sort key [(r[col] is None, r[col])]. *)
Definition sort_key (col : string) (r : row) : result (bool * value) :=
  v <- PyDict.index r col ;; Ok (is_none v, v).

(** [k1 < k2] on two such tuples: the first component decides unless it is
    equal, then the second one does unless it is equal too. *)
Definition key_lt (k1 k2 : bool * value) : result bool :=
  if Bool.eqb (fst k1) (fst k2) then
    if py_eq (snd k1) (snd k2) then Ok false else py_lt (snd k1) (snd k2)
  else Ok (negb (fst k1) && fst k2).

(** A stable sort on keyed items: an item goes in front of the first later
    item that is not smaller than it. On keys that are totally ordered this
    is the order [sorted] returns. *)
Fixpoint insert_keyed (x : (bool * value) * row) (l : list ((bool * value) * row))
  : result (list ((bool * value) * row)) :=
  match l with
  | [] => Ok [x]
  | y :: rest =>
      b <- key_lt (fst y) (fst x) ;;
      if b then (rest' <- insert_keyed x rest ;; Ok (y :: rest'))
      else Ok (x :: l)
  end.

Fixpoint sort_keyed (l : list ((bool * value) * row))
  : result (list ((bool * value) * row)) :=
  match l with
  | [] => Ok []
  | x :: rest => s <- sort_keyed rest ;; insert_keyed x s
  end.

(** [sorted(rows, key=..., reverse=reverse)]: a reversed sort reverses the
    list, sorts it and reverses the result. *)
Definition sorted (rs : list row) (col : string) (reverse : bool) : result (list row) :=
  keyed <- mapM (fun r => k <- sort_key col r ;; Ok (k, r)) rs ;;
  s <- (if reverse then (t <- sort_keyed (rev keyed) ;; Ok (rev t))
        else sort_keyed keyed) ;;
  Ok (map snd s).

Definition sort_by (df : DataFrame) (col : string) (reverse : bool) : result DataFrame :=
  if negb (mem_str col (columns df)) then Err (column_not_found col)
  else
    sorted_rows <- sorted (rows df) col reverse ;;
    Ok (__init__ sorted_rows).

Definition count (df : DataFrame) : Z := Z.of_nat (List.length (rows df)).

End Dataframe.

(** ** filters.py *)

Module Filters.

(** A range [(low, high)] of floats. *)
Definition range : Type := (PyFloat.float * PyFloat.float)%type.

(** The literals [100.0], [1.0] and [1e-9]. *)
Definition f100 : PyFloat.float := PyFloat.of_decimal false 100 0.
Definition f1 : PyFloat.float := PyFloat.of_decimal false 1 0.
Definition eps : PyFloat.float := PyFloat.of_decimal false 1 (-9).

Definition in_bucket (val : value) (rng : range) (top_inclusive : bool) : result bool :=
  match val with
  | VNone => Ok false
  | _ =>
      let '(low, high) := rng in
      if top_inclusive then
        a <- py_ge val (VFloat low) ;;
        if a then py_le val (VFloat high) else Ok false
      else
        a <- py_ge val (VFloat low) ;;
        if a then py_lt val (VFloat high) else Ok false
  end.

Definition name_to_num : PyDict.dict Z :=
  [("jan", 1); ("january", 1);
   ("feb", 2); ("february", 2);
   ("mar", 3); ("march", 3);
   ("apr", 4); ("april", 4);
   ("may", 5);
   ("jun", 6); ("june", 6);
   ("jul", 7); ("july", 7);
   ("aug", 8); ("august", 8);
   ("sep", 9); ("sept", 9); ("september", 9);
   ("oct", 10); ("october", 10);
   ("nov", 11); ("november", 11);
   ("dec", 12); ("december", 12)].

Definition lparen : ascii := "("%char.
Definition rparen : ascii := ")"%char.

(** [month_to_int_or_any(m)]; the outer [result] carries an exception that
    escapes the function. *)
Definition month_to_int_or_any (m : option string) : result (option Z) :=
  match m with
  | None => Ok None
  | Some m' =>
      if negb (PyStr.nonempty m') then Ok None
      else
        let s := PyStr.lower (PyStr.strip m') in
        if String.eqb s "any" then Ok None
        else if PyStr.isdigit s then
          match PyStr.py_int s with
          | Some n => Ok (if (1 <=? n) && (n <=? 12) then Some n else None)
          | None => Err (ValueError "invalid literal for int()")
          end
        else if PyStr.contains lparen s && PyStr.endswith rparen s then
          match PyStr.after_last lparen s with
          | Some t => Ok (PyStr.py_int (PyStr.drop_last t))
          | None => Ok None
          end
        else Ok (PyDict.get s name_to_num)
  end.

(** [top_pop] and [top_01] of [build_predicate]. *)
Definition near (x : PyFloat.float) (target : PyFloat.float) : bool :=
  PyFloat.ltb (PyFloat.abs (PyFloat.sub x target)) eps.

Definition top_pop (pop_range : option range) : bool :=
  match pop_range with
  | Some rng => near (snd rng) f100
  | None => false
  end.

Definition top_01 (rng : option range) : bool :=
  match rng with
  | Some r => near (snd r) f1
  | None => false
  end.

(** [not in_bucket(row.get(col), rng, top_inclusive=top)] guarded by
    [rng is not None]: [true] when the row is rejected. *)
Definition range_rejects (r : row) (col : string) (rng : option range) (top : bool)
  : result bool :=
  match rng with
  | None => Ok false
  | Some rg => b <- in_bucket (row_get r col) rg top ;; Ok (negb b)
  end.

(** [name and row.get(col) != name] *)
Definition category_rejects (r : row) (col : string) (name : option string) : bool :=
  match name with
  | None => false
  | Some g => PyStr.nonempty g && negb (py_eq (row_get r col) (VStr g))
  end.

(** The year and month read off the date cell: [(y2, m2)]. *)
Definition date_parts (ds : value) : result (option Z * option Z) :=
  match ds with
  | VStr s =>
      if (7 <=? PyStr.len s) &&
         (match PyStr.char_at 4 s with
          | Some c => Ascii.eqb c "-"%char
          | None => false
          end)
      then
        match PyStr.split_on "-"%char s with
        | p0 :: p1 :: _ =>
            if PyStr.isdigit p0 && PyStr.isdigit p1 then
              match PyStr.py_int p0, PyStr.py_int p1 with
              | Some y, Some m => Ok (Some y, Some m)
              | _, _ => Err (ValueError "invalid literal for int()")
              end
            else Ok (None, None)
        | _ => Ok (None, None)
        end
      else Ok (None, None)
  | _ => Ok (None, None)
  end.

Definition opt_Z_eqb (a b : option Z) : bool :=
  match a, b with
  | Some x, Some y => x =? y
  | None, None => true
  | _, _ => false
  end.

(** The date step of [_pred]: [true] when the row passes. *)
Definition date_check (r : row) (month year : option Z) : result bool :=
  match month, year with
  | None, None => Ok true
  | _, _ =>
      p <- date_parts (row_get r "track_album_release_date") ;;
      let '(y2, m2) := p in
      if (match month with Some _ => true | None => false end)
         && negb (opt_Z_eqb m2 month) then Ok false
      else if (match year with Some _ => true | None => false end)
              && negb (opt_Z_eqb y2 year) then Ok false
      else Ok true
  end.

(** [build_predicate(...)] returns the closure [_pred]. *)
Definition build_predicate
           (pop_range : option range) (genre subgenre : option string)
           (dance_range energy_range tempo_range live_range : option range)
           (month year : option Z) : row -> result bool :=
  let top_pop := top_pop pop_range in
  fun r =>
    b1 <- range_rejects r "track_popularity" pop_range top_pop ;;
    if b1 then Ok false
    else if category_rejects r "playlist_genre" genre then Ok false
    else if category_rejects r "playlist_subgenre" subgenre then Ok false
    else
      b4 <- range_rejects r "danceability" dance_range (top_01 dance_range) ;;
      if b4 then Ok false
      else
        b5 <- range_rejects r "energy" energy_range (top_01 energy_range) ;;
        if b5 then Ok false
        else
          b6 <- range_rejects r "tempo" tempo_range true ;;
          if b6 then Ok false
          else
            b7 <- range_rejects r "liveness" live_range (top_01 live_range) ;;
            if b7 then Ok false
            else date_check r month year.

(** [parse_range_or_any(s)]: a failing unpacking or [float] is caught and
    gives [None]. *)
Definition parse_range_or_any (s : option string) : option range :=
  match s with
  | None => None
  | Some s0 =>
      if negb (PyStr.nonempty s0) then None
      else
        let s1 := PyStr.strip s0 in
        if String.eqb (PyStr.lower s1) "any" then None
        else
          match PyStr.split_on "-"%char s1 with
          | [a; b] =>
              match PyFloat.py_float (PyStr.strip a), PyFloat.py_float (PyStr.strip b) with
              | Some low, Some high =>
                  if PyFloat.ltb high low then None else Some (low, high)
              | _, _ => None
              end
          | _ => None
          end
  end.

(** [parse_year_or_any(y)]; the outer [result] carries an exception that
    escapes the function. *)
Definition parse_year_or_any (y : option string) : result (option Z) :=
  match y with
  | None => Ok None
  | Some y' =>
      if negb (PyStr.nonempty y') then Ok None
      else
        let s := PyStr.lower (PyStr.strip y') in
        if String.eqb s "any" then Ok None
        else if PyStr.isdigit s && (PyStr.len s =? 4) then
          match PyStr.py_int s with
          | Some n => Ok (Some n)
          | None => Err (ValueError "invalid literal for int()")
          end
        else Ok None
  end.

(** The test that [x] is neither [None] nor the empty text. *)
Definition not_blank (x : value) : bool :=
  negb (py_eq x VNone || py_eq x (VStr EmptyString)).

(** Adding to a [set]: an element equal to a member is not added. The
    members are kept in the order they came in. *)
Definition set_add (x : value) (s : list value) : list value :=
  if existsb (py_eq x) s then s else (s ++ [x])%list.

(** [{f(r) for r in rows if keep(r)}] *)
Fixpoint set_of (f : row -> value) (keep : row -> bool) (rs : list row)
         (acc : list value) : list value :=
  match rs with
  | [] => acc
  | r :: rest => set_of f keep rest (if keep r then set_add (f r) acc else acc)
  end.

(** [sorted(values)]: a stable sort by [<]; on values that [<] orders
    totally the result does not depend on the order of the input. *)
Fixpoint insert_value (x : value) (l : list value) : result (list value) :=
  match l with
  | [] => Ok [x]
  | y :: rest =>
      b <- py_lt y x ;;
      if b then (rest' <- insert_value x rest ;; Ok (y :: rest'))
      else Ok (x :: l)
  end.

Fixpoint sorted_values (l : list value) : result (list value) :=
  match l with
  | [] => Ok []
  | x :: rest => s <- sorted_values rest ;; insert_value x s
  end.

Definition unique_non_null (rs : list row) (col : string) : result (list value) :=
  sorted_values (set_of (fun r => row_get r col)
                        (fun r => not_blank (row_get r col)) rs []).

Definition subgenres_for_genre (rs : list row) (genre : option string)
  : result (list value) :=
  match genre with
  | None => Ok []
  | Some g =>
      if negb (PyStr.nonempty g) then Ok []
      else
        sorted_values
          (set_of (fun r => row_get r "playlist_subgenre")
                  (fun r => py_eq (row_get r "playlist_genre") (VStr g)
                            && not_blank (row_get r "playlist_subgenre"))
                  rs [])
  end.

End Filters.

(** ** Notions used to state the properties *)

Module Spec.

Import CsvParser Dataframe Filters.

(** *** Type coercion, in the words of the decision order *)


(** A run of decimal digits [int] converts: at least one digit and at
    most [PyStr.max_str_digits] of them. *)
Definition decimal_run (d : string) : bool :=
  PyStr.isdecimal d && (PyStr.len d <=? PyStr.max_str_digits).


(** A token in the shape the claim calls a digit sequence: a non-empty
    run of digit characters, superscripts included, of any length, with an
    optional single minus sign in front. *)
Definition digit_sequence (t : string) : bool :=
  match t with
  | String c d => if Ascii.eqb c "-"%char then PyStr.isdigit d else PyStr.isdigit t
  | EmptyString => false
  end.

(** The text made of [n] times the character [c]. *)
Fixpoint repeat_char (c : ascii) (n : nat) : string :=
  match n with
  | O => EmptyString
  | S k => String c (repeat_char c k)
  end.

(** A run of 4301 digits, one more than [int] converts. *)
Definition long_digit_run : string := repeat_char "1"%char 4301.

(** The one-character token U+00B2, superscript two. *)
Definition superscript_two : string := String "178"%char EmptyString.


(** *** Tokenizer examples *)

Definition q : string := String dquote EmptyString.

(** The line made of [a], the quoted field [b,c] and an empty quoted field,
    separated by commas. *)
Definition line_quoted_fields : string :=
  ("a," ++ q ++ "b,c" ++ q ++ "," ++ q ++ q)%string.

(** One quoted field holding [he said], a space and [hi] between two
    escaped quotes. *)
Definition line_escaped_quotes : string :=
  (q ++ "he said " ++ q ++ q ++ "hi" ++ q ++ q ++ q)%string.

(** The text [he said], a space and [hi] between quotes. *)
Definition field_he_said_hi : string := ("he said " ++ q ++ "hi" ++ q)%string.

(** *** Statistics *)

(** Counter-wise sum of two statistics records. *)
Definition stats_add (a b : stats_t) : stats_t :=
  mkStats (total_rows a + total_rows b) (total_fields a + total_fields b)
          (num_nulls a + num_nulls b) (num_ints a + num_ints b)
          (num_floats a + num_floats b) (num_strings a + num_strings b)
          (malformed_rows a + malformed_rows b)
          (duplicates_removed a + duplicates_removed b).

(** *** Duplicates *)

(** Two rows are duplicates of each other: every column of [r] is a
    column of [r'] with an equal value, and [r'] has no other column. *)
Definition duplicate_of (r r' : row) : bool :=
  forallb (fun k => match PyDict.get k r, PyDict.get k r' with
                    | Some v, Some v' => py_eq v v'
                    | _, _ => false
                    end) (PyDict.keys r)
  && forallb (fun k => mem_str k (PyDict.keys r)) (PyDict.keys r').

(** The rows that have no duplicate before them, [earlier] being the rows
    already passed. *)
Fixpoint first_occurrences (earlier : list row) (rs : list row) : list row :=
  match rs with
  | [] => []
  | r :: rest =>
      if existsb (duplicate_of r) earlier
      then first_occurrences (r :: earlier) rest
      else r :: first_occurrences (r :: earlier) rest
  end.

(** *** Aggregation kinds *)




(** *** Position of the null rows after a sort *)

Definition null_at (col : string) (r : row) : Prop := PyDict.get col r = Some VNone.

Definition non_null_at (col : string) (r : row) : Prop :=
  exists v, PyDict.get col r = Some v /\ v <> VNone.

(** Every row that is null at [col] comes after every row that is not. *)
Definition nulls_last (col : string) (l : list row) : Prop :=
  forall (i j : nat) (ri rj : row),
    nth_error l i = Some ri -> nth_error l j = Some rj ->
    null_at col ri -> non_null_at col rj -> (j < i)%nat.

(** Every row that is null at [col] comes before every row that is not. *)
Definition nulls_first (col : string) (l : list row) : Prop :=
  forall (i j : nat) (ri rj : row),
    nth_error l i = Some ri -> nth_error l j = Some rj ->
    null_at col ri -> non_null_at col rj -> (i < j)%nat.

(** *** Ranges *)

(** [low <= v < high], or [low <= v <= high] when [top] is set, by exact
    value. *)
Definition in_interval (v : value) (low high : PyFloat.float) (top : bool) : bool :=
  is_number v
  && PyNum.xleb (PyNum.of_float low) (exact v)
  && (if top then PyNum.xleb (exact v) (PyNum.of_float high)
      else PyNum.xltb (exact v) (PyNum.of_float high)).

Definition f90 : PyFloat.float := PyFloat.of_decimal false 90 0.

(** *** Ranges, by the order of the rational numbers *)

(** A point of the rational line closed by the two infinities. *)
Inductive point : Type :=
| NegInf
| Finite (q : QArith_base.Q)
| PosInf.

(** The rational [m * 2^e]. *)
Definition dyadic (m e : Z) : QArith_base.Q :=
  QArith_base.Qmult (QArith_base.inject_Z m)
                    (QArith_base.Qpower (QArith_base.inject_Z 2) e).

(** The point a float denotes; not-a-number denotes none. *)
Definition float_point (f : PyFloat.float) : option point :=
  match f with
  | S754_zero _ => Some (Finite (QArith_base.inject_Z 0))
  | S754_infinity s => Some (if s then NegInf else PosInf)
  | S754_nan => None
  | S754_finite s m e => Some (Finite (dyadic (if s then Zneg m else Zpos m) e))
  end.

(** The point a cell denotes when it holds a number. *)
Definition value_point (v : value) : option point :=
  match v with
  | VInt z => Some (Finite (QArith_base.inject_Z z))
  | VFloat f => float_point f
  | _ => None
  end.

Definition point_le (a b : point) : Prop :=
  match a, b with
  | NegInf, _ => True
  | _, PosInf => True
  | Finite x, Finite y => QArith_base.Qle x y
  | _, _ => False
  end.

Definition point_lt (a b : point) : Prop :=
  match a, b with
  | PosInf, _ => False
  | _, NegInf => False
  | NegInf, _ => True
  | _, PosInf => True
  | Finite x, Finite y => QArith_base.Qlt x y
  end.

(** [v] is a number of [[low, high)], or of [[low, high]] when [top] is
    set. *)
Definition within (v : value) (low high : PyFloat.float) (top : bool) : Prop :=
  match value_point v, float_point low, float_point high with
  | Some x, Some l, Some h =>
      point_le l x /\ (if top then point_le x h else point_lt x h)
  | _, _, _ => False
  end.

(** A bound just below 100: 99.9999999999. *)
Definition f_below_100 : PyFloat.float := PyFloat.of_decimal false 999999999999 (-10).

(** *** Dates *)

(** A date cell in the shape the claim describes: at least seven
    characters, a four-digit year, ["-"], a two-digit month. *)
Definition year_dash_month (v : value) : bool :=
  match v with
  | VStr (String y1 (String y2 (String y3 (String y4
         (String d (String m1 (String m2 _))))))) =>
      PyStr.isdigit_char y1 && PyStr.isdigit_char y2 && PyStr.isdigit_char y3
      && PyStr.isdigit_char y4 && Ascii.eqb d "-"%char
      && PyStr.isdigit_char m1 && PyStr.isdigit_char m2
  | _ => false
  end.

(** A date cell the predicate can read: a string of at least seven
    characters with ["-"] at index 4 whose first two ["-"]-separated pieces
    are runs of digits. *)
Definition readable_date (v : value) : bool :=
  match v with
  | VStr s =>
      (7 <=? PyStr.len s)
      && (match PyStr.char_at 4 s with
          | Some c => Ascii.eqb c "-"%char
          | None => false
          end)
      && (match PyStr.split_on "-"%char s with
          | p0 :: p1 :: _ => PyStr.isdigit p0 && PyStr.isdigit p1
          | _ => false
          end)
  | _ => false
  end.

Definition date_col : string := "track_album_release_date".

(** The first two ["-"]-separated pieces of a date text. *)
Definition date_pieces (s : string) : string * string :=
  match PyStr.split_on "-"%char s with
  | p0 :: p1 :: _ => (p0, p1)
  | _ => (EmptyString, EmptyString)
  end.

(** The month and the year read off a date satisfy the constraints that
    are set. *)
Definition date_matches (y m : Z) (month year : option Z) : bool :=
  match month with
  | Some m' => m =? m'
  | None => true
  end
  && match year with
     | Some y' => y =? y'
     | None => true
     end.

(** A date text whose year is written with four superscript twos. *)
Definition superscript_year_date : string :=
  (repeat_char "178"%char 4 ++ "-01-15")%string.

(** *** Keyed rows during a sort *)

(** The null flag of a keyed row, and the order of two flags. *)
Definition flag (x : (bool * value) * row) : bool := fst (fst x).

Definition flag_le (x y : (bool * value) * row) : Prop :=
  flag x = true -> flag y = true.

(** The key of a keyed row is the one [sort_key] computes for its row. *)
Definition keyed_ok (col : string) (x : (bool * value) * row) : Prop :=
  PyDict.get col (snd x) = Some (snd (fst x)) /\ flag x = is_none (snd (fst x)).

(** *** Sample input files *)

Definition nl : string := String newline EmptyString.

(** A header [a] and one record. *)
Definition file_one_record : list string := [("a" ++ nl)%string; ("1" ++ nl)%string].

(** A header [a] alone. *)
Definition file_header_only : list string := [("a" ++ nl)%string].

(** The statistics left by a run of [read_csv] started from [st]. *)
Definition stats_after (f : list string) (st : stats_t) : stats_t :=
  snd (read_csv f "," st).

(** *** The rows kept by the deduplication loop *)

(** The test the loop makes on two rows: their sorted tuples are equal. *)
Definition same_tuple (r r' : row) : bool :=
  tuple_eqb (sorted_items r) (sorted_items r').

(** The rows the loop of [remove_duplicates] appends, [seen] being the
    tuples recorded so far. *)
Fixpoint kept_rows (seen : list (list (string * value))) (rs : list row) : list row :=
  match rs with
  | [] => []
  | r :: rest =>
      if in_seen (sorted_items r) seen then kept_rows seen rest
      else r :: kept_rows (sorted_items r :: seen) rest
  end.

End Spec.

(** ** Text of an integer *)

Module PyFmt.

(** [str(z)] for an integer: its decimal digits, with a minus sign when
    negative. *)
Definition str_int (z : Z) : string :=
  DecimalString.NilZero.string_of_int (Z.to_int z).

End PyFmt.

(** ** utils_io.py *)

Module UtilsIo.

(** The replacement of every quote character by two of them. *)
Fixpoint double_quotes (s : string) : string :=
  match s with
  | EmptyString => EmptyString
  | String c r =>
      if Ascii.eqb c CsvParser.dquote
      then String CsvParser.dquote (String CsvParser.dquote (double_quotes r))
      else String c (double_quotes r)
  end.

(** The quoting step applied to one cell text. *)
Definition quote_cell (s : string) : string :=
  if PyStr.contains ","%char s || PyStr.contains CsvParser.dquote s
  then (String CsvParser.dquote (double_quotes s)
        ++ String CsvParser.dquote EmptyString)%string
  else s.

(** The values joined by commas, followed by the line end. *)
Definition write_line (vals : list string) : string :=
  (String.concat "," vals ++ String CsvParser.newline EmptyString)%string.

Section ToCsvString.

(** [str(x)] for a float, the shortest text that reads back as [x]. *)
Variable float_str : PyFloat.float -> string.

(** [str(v)] *)
Definition str (v : value) : string :=
  match v with
  | VNone => "None"
  | VInt z => PyFmt.str_int z
  | VFloat f => float_str f
  | VStr s => s
  end.

(** The text of the cell of [r] under [f], before quoting. *)
Definition cell_text (r : row) (f : string) : string :=
  match row_get r f with
  | VNone => EmptyString
  | v => str v
  end.

(** The list [vals] built for one row. *)
Definition row_vals (r : row) (fields : list string) : list string :=
  map (fun f => quote_cell (cell_text r f)) fields.

Definition to_csv_string (rs : list row) (fields : list string) : string :=
  (write_line fields
   ++ String.concat EmptyString (map (fun r => write_line (row_vals r fields)) rs))%string.

End ToCsvString.

End UtilsIo.

(** ** services.py *)

Module Services.

Import Dataframe Filters.

Definition PROJECT_COLS : list string :=
  ["track_name"; "track_artist"; "track_album_name"; "track_album_release_date"].

(** [range(start, stop, step)] for a positive step, as [count] items. *)
Fixpoint range_from (start step : Z) (count : nat) : list Z :=
  match count with
  | O => []
  | S n => start :: range_from (start + step) step n
  end.

(** [pop_options] of [build_options]: [ANY] and the labels [0-10] to
    [90-100]. *)
Definition pop_options : list string :=
  "ANY" :: map (fun i => (PyFmt.str_int i ++ "-" ++ PyFmt.str_int (i + 10))%string)
               (range_from 0 10 10).

(** A choice that is unset, empty or [ANY] is no constraint. *)
Definition choice_or_none (choice : option string) : option string :=
  match choice with
  | None => None
  | Some c => if negb (PyStr.nonempty c) || String.eqb c "ANY" then None else Some c
  end.

Definition agg_map : PyDict.dict string :=
  [("track_popularity", "avg"); ("danceability", "avg")].

Definition apply_pipeline (rs : list row)
           (pop_bucket genre_choice subgenre_choice : option string)
           (dance_bucket energy_bucket tempo_bucket live_bucket : option string)
           (month_label year_label sort_choice : option string)
  : result (DataFrame * DataFrame * DataFrame * DataFrame * DataFrame) :=
  let df_raw := __init__ rs in
  let pop_range := parse_range_or_any pop_bucket in
  let dance_range := parse_range_or_any dance_bucket in
  let energy_range := parse_range_or_any energy_bucket in
  let tempo_range := parse_range_or_any tempo_bucket in
  let live_range := parse_range_or_any live_bucket in
  month_val <- month_to_int_or_any month_label ;;
  year_val <- parse_year_or_any year_label ;;
  let genre_val := choice_or_none genre_choice in
  let subgenre_val := choice_or_none subgenre_choice in
  let predicate :=
    build_predicate pop_range genre_val subgenre_val
                    dance_range energy_range tempo_range live_range
                    month_val year_val in
  df_filtered <- Dataframe.filter df_raw predicate ;;
  df_projected <- project df_filtered PROJECT_COLS ;;
  df_grouped <- group_by df_filtered "track_artist" agg_map ;;
  let sort_key :=
    match sort_choice with
    | Some c =>
        if String.eqb c "popularity" then Some "track_popularity"
        else if String.eqb c "danceability" then Some "danceability"
        else None
    | None => None
    end in
  df_sorted <- match sort_key with
               | Some k => sort_by df_grouped k false
               | None => Ok df_grouped
               end ;;
  Ok (df_raw, df_filtered, df_projected, df_grouped, df_sorted).

End Services.

(** ** Further notions used to state properties *)

Module Notions.

Import CsvParser Dataframe Filters Services Spec.


(** The popularity option [label] admits a row whose popularity is [v]. *)
Definition admits_popularity (label : string) (v : Z) : bool :=
  match build_predicate (parse_range_or_any (Some label)) None None None None None None
                        None None [("track_popularity", VInt v)] with
  | Ok b => b
  | Err _ => false
  end.

(** The key of the sorted row [r] under [col] is not below that of the row
    before it. *)
Definition key_not_below (col : string) (before r : row) : Prop :=
  exists kb kr, sort_key col before = Ok kb /\ sort_key col r = Ok kr
                /\ key_lt kr kb = Ok false.

(** The number of characters of [s] equal to [ch]. *)
Fixpoint count_char (ch : ascii) (s : string) : nat :=
  match s with
  | EmptyString => O
  | String c r => if Ascii.eqb c ch then S (count_char ch r) else count_char ch r
  end.

(** The keys a dictionary comprehension over [header] produces: the names
    in order, each at its first place. *)
Fixpoint first_names (seen : list string) (header : list string) : list string :=
  match header with
  | [] => []
  | h :: rest =>
      if mem_str h seen then first_names seen rest
      else h :: first_names (h :: seen) rest
  end.





(** The keys of a row are distinct, as those of a dictionary are. *)
Definition distinct_keys (r : row) : Prop := NoDup (PyDict.keys r).

(** Two cells are both absent, or both present with equal values. *)
Definition same_cell (a b : option value) : Prop :=
  match a, b with
  | Some v, Some v' => py_eq v v' = true
  | None, None => True
  | _, _ => False
  end.

Definition same_cells (r r' : row) : Prop :=
  forall k, same_cell (PyDict.get k r) (PyDict.get k r').

(** The order of two items by their keys. *)
Definition key_before (x y : string * value) : Prop :=
  String.ltb (fst x) (fst y) = true.

(** The exact value [x] is the point [p], not-a-number being none. *)
Definition denotes (x : PyNum.xnum) (p : option point) : Prop :=
  match x, p with
  | PyNum.XNaN, None => True
  | PyNum.XInf s, Some q => q = (if s then NegInf else PosInf)
  | PyNum.XFin m e, Some (Finite q) => QArith_base.Qeq (dyadic m e) q
  | _, _ => False
  end.

(** [a] is directly followed by [b] in [l]. *)
Definition adjacent {A : Type} (l : list A) (a b : A) : Prop :=
  exists l1 l2, l = (l1 ++ a :: b :: l2)%list.

(** The order kept between a keyed row and the next one. *)
Definition keys_in_order (x y : (bool * value) * row) : Prop :=
  key_lt (fst y) (fst x) = Ok false.

End Notions.

(** * Properties *)

Import CsvParser Dataframe Filters Spec.

(** ** Tokenizer *)

Lemma append_empty_r (s : string) : (s ++ EmptyString)%string = s.
Proof. induction s; simpl; congruence. Qed.

Lemma push_append (cur body : string) (ch : ascii) :
  (push cur ch ++ body)%string = (cur ++ String ch body)%string.
Proof.
  unfold push. induction cur as [|c cur IH]; simpl; [reflexivity|].
  now rewrite IH.
Qed.

(** Inside quotes every character but the quote is content, whatever the
    delimiter is. *)
Lemma split_loop_quoted_body (delimiter body rest : string)
      (fields : list string) (cur : string) :
  PyStr.contains dquote body = false ->
  split_loop delimiter (body ++ rest) fields cur true
  = split_loop delimiter rest fields (cur ++ body) true.
Proof.
  revert cur. induction body as [|c body IH]; intros cur Hq.
  - simpl. now rewrite append_empty_r.
  - simpl in Hq. apply orb_false_iff in Hq as [Hc Hb].
    cbn [append split_loop]. rewrite Hc.
    rewrite andb_false_r. cbn [andb].
    rewrite andb_false_r.
    rewrite IH by exact Hb. now rewrite push_append.
Qed.

(** C5: the tokenizer scans left to right honouring quotes. For a
    one-character delimiter [d] other than the quote: inside quotes the
    delimiter is content while outside it closes the field; a doubled quote
    inside quotes adds one quote character; the end of the input flushes the
    accumulator as the last field; a quoted body without quotes is one field
    whatever delimiters it holds; the empty line is one empty field; and the
    two sample lines split as documented. *)
Theorem tokenizer_honours_quotes :
  forall (d : ascii) (rest body : string) (fields : list string) (cur : string),
    d <> dquote ->
    PyStr.contains dquote body = false ->
    let delim := String d EmptyString in
    split_loop delim (String d rest) fields cur true
    = split_loop delim rest fields (push cur d) true
    /\ split_loop delim (String d rest) fields cur false
       = split_loop delim rest (fields ++ [cur])%list EmptyString false
    /\ split_loop delim (String dquote (String dquote rest)) fields cur true
       = split_loop delim rest fields (push cur dquote) true
    /\ (forall in_quotes : bool,
           split_loop delim EmptyString fields cur in_quotes = (fields ++ [cur])%list)
    /\ _split_csv_line (q ++ body ++ q) delim = [body]
    /\ _split_csv_line EmptyString delim = [EmptyString]
    /\ _split_csv_line line_quoted_fields "," = ["a"; "b,c"; EmptyString]
    /\ _split_csv_line line_escaped_quotes "," = [field_he_said_hi].
Proof.
  intros d rest body fields cur Hd Hbody delim.
  assert (Hdq : Ascii.eqb d dquote = false) by now apply Ascii.eqb_neq.
  repeat match goal with |- _ /\ _ => split end.
  - cbn [split_loop]. rewrite Hdq. now rewrite andb_false_r, andb_false_r.
  - cbn [split_loop]. rewrite Hdq. subst delim.
    now rewrite String.eqb_refl.
  - cbn [split_loop]. now rewrite Ascii.eqb_refl.
  - intros in_quotes. reflexivity.
  - unfold _split_csv_line, q.
    change (String dquote EmptyString ++ body ++ String dquote EmptyString)%string
      with (String dquote (body ++ String dquote EmptyString)).
    assert (Hstart : forall s,
               split_loop delim (String dquote s) [] EmptyString false
               = split_loop delim s [] EmptyString true).
    { intros s. cbn [split_loop]. rewrite Ascii.eqb_refl. now destruct s. }
    rewrite Hstart, split_loop_quoted_body by exact Hbody.
    reflexivity.
  - reflexivity.
  - reflexivity.
  - reflexivity.
Qed.

Lemma tokenizer_honours_quotes_witness :
  ","%char <> dquote /\ PyStr.contains dquote "b,c" = false /\
  _split_csv_line (q ++ "b,c" ++ q) "," = ["b,c"].
Proof.
  split; [discriminate|]. split; [reflexivity|].
  apply (tokenizer_honours_quotes ","%char EmptyString "b,c" [] EmptyString);
    [discriminate | reflexivity].
Defined.

(** ** Zero-row tables *)

Lemma filter_rows_reject_all (rs : list row) :
  filter_rows (fun _ => Ok false) rs = Ok [].
Proof.
  induction rs as [|r rs IH]; simpl; [reflexivity|].
  now rewrite IH.
Qed.

(** A predicate that rejects every row leaves the table built from no row. *)
Lemma filter_no_row_kept (T : DataFrame) (condition : row -> result bool) :
  filter_rows condition (rows T) = Ok [] ->
  Dataframe.filter T condition = Ok (__init__ []).
Proof.
  unfold Dataframe.filter. intros H. now rewrite H.
Qed.

(** C10: a table built from no row has the empty schema, so projecting on
    any column [c] or sorting by it fails with the unknown-column error;
    this holds as well for the table left by a filter that keeps no row,
    whatever the columns of the filtered table were. *)
Theorem empty_table_unknown_column :
  forall (T : DataFrame) (c : string) (reverse : bool),
    columns (__init__ []) = []
    /\ project (__init__ []) [c] = Err (column_not_found_in_dataset c)
    /\ sort_by (__init__ []) c reverse = Err (column_not_found c)
    /\ (T' <- Dataframe.filter T (fun _ => Ok false) ;; project T' [c])
       = Err (column_not_found_in_dataset c)
    /\ (T' <- Dataframe.filter T (fun _ => Ok false) ;; sort_by T' c reverse)
       = Err (column_not_found c).
Proof.
  intros T c reverse.
  rewrite (filter_no_row_kept T _ (filter_rows_reject_all (rows T))).
  repeat split.
Qed.

(** ** Month selector *)

(** C8, at the failing input: a label whose parenthesised number is 13 is
    returned as month 13, outside the range 1 to 12 that the all-digit
    branch enforces. *)
Theorem month_label_escapes_range :
  month_to_int_or_any (Some "Smarch (13)") = Ok (Some 13)
  /\ month_to_int_or_any (Some "13") = Ok None
  /\ month_to_int_or_any (Some "ANY") = Ok None
  /\ month_to_int_or_any (Some "   ") = Ok None
  /\ month_to_int_or_any (Some "Jan (1)") = Ok (Some 1).
Proof. repeat split; vm_compute; reflexivity. Qed.

(** ** Range and date constraints *)

(** [in_bucket] is the interval test on numbers, [false] on [None], and a
    type error on text. *)
Lemma in_bucket_spec (val : value) (low high : PyFloat.float) (top : bool) :
  match val with
  | VStr _ => in_bucket val (low, high) top = Err TypeError
  | _ => in_bucket val (low, high) top = Ok (in_interval val low high top)
  end.
Proof.
  destruct val as [|z|f|s], top; unfold in_bucket, in_interval; cbn;
    try reflexivity;
    match goal with
    | |- context [PyNum.xleb ?a ?b] => destruct (PyNum.xleb a b); reflexivity
    end.
Qed.

Lemma in_bucket_true_iff (val : value) (low high : PyFloat.float) (top : bool) :
  in_bucket val (low, high) top = Ok true <-> in_interval val low high top = true.
Proof.
  pose proof (in_bucket_spec val low high top) as H.
  destruct val; rewrite H; try (split; congruence).
  unfold in_interval; cbn. split; discriminate.
Qed.

Module RangeOrder.

Import QArith_base Qpower QArith.QArith.
Import Notions.

Local Open Scope Q_scope.

Lemma two_nonzero : ~ inject_Z 2 == 0.
Proof. discriminate. Qed.

Lemma two_power_pos (e : Z) : 0 < inject_Z 2 ^ e.
Proof. apply Qpower_0_lt. reflexivity. Qed.

Lemma dyadic_double (m e : Z) : dyadic (2 * m) e == dyadic m (e + 1).
Proof.
  unfold dyadic. rewrite Qpower_plus by exact two_nonzero.
  rewrite inject_Z_mult. change (inject_Z 2 ^ 1) with (inject_Z 2). ring.
Qed.

Lemma dyadic_zero_exp (m : Z) : dyadic m 0 == inject_Z m.
Proof. unfold dyadic. change (inject_Z 2 ^ 0) with 1. ring. Qed.

Lemma dyadic_zero (e : Z) : dyadic 0 e == inject_Z 0.
Proof. unfold dyadic. change (inject_Z 0) with 0. ring. Qed.

Lemma strip_zeros_pos (p : positive) (e : Z) :
  dyadic (Zpos (fst (PyNum.strip_zeros p e))) (snd (PyNum.strip_zeros p e))
  == dyadic (Zpos p) e.
Proof.
  revert e. induction p as [p IH|p IH|]; intros e; cbn [PyNum.strip_zeros fst snd];
    try reflexivity.
  rewrite IH. symmetry. change (Zpos p~0) with (2 * Zpos p)%Z. apply dyadic_double.
Qed.

Lemma strip_zeros_neg (p : positive) (e : Z) :
  dyadic (Zneg (fst (PyNum.strip_zeros p e))) (snd (PyNum.strip_zeros p e))
  == dyadic (Zneg p) e.
Proof.
  revert e. induction p as [p IH|p IH|]; intros e; cbn [PyNum.strip_zeros fst snd];
    try reflexivity.
  rewrite IH. symmetry. change (Zneg p~0) with (2 * Zneg p)%Z. apply dyadic_double.
Qed.

(** The rational an exact value denotes when it is finite. *)
Lemma xnorm_value (m e : Z) :
  exists m' e', PyNum.xnorm m e = PyNum.XFin m' e' /\ dyadic m' e' == dyadic m e.
Proof.
  destruct m as [|p|p]; cbn [PyNum.xnorm].
  - exists 0%Z, 0%Z. split; [reflexivity|]. now rewrite !dyadic_zero.
  - pose proof (strip_zeros_pos p e) as H.
    destruct (PyNum.strip_zeros p e) as [q e']. cbn [fst snd] in H.
    now exists (Zpos q), e'.
  - pose proof (strip_zeros_neg p e) as H.
    destruct (PyNum.strip_zeros p e) as [q e']. cbn [fst snd] in H.
    now exists (Zneg q), e'.
Qed.

Lemma dyadic_scaled (m e k : Z) :
  (k <= e)%Z -> dyadic m e == inject_Z (m * 2 ^ (e - k)) * inject_Z 2 ^ k.
Proof.
  intros H. unfold dyadic.
  replace e with ((e - k) + k)%Z at 1 by lia.
  rewrite Qpower_plus by exact two_nonzero.
  rewrite inject_Z_mult, Zpower_Qpower by lia. ring.
Qed.

Lemma Qcompare_scale (a b c : Q) : 0 < c -> (a * c ?= b * c) = (a ?= b).
Proof.
  intros Hc. destruct (a ?= b) eqn:H.
  - apply Qeq_alt in H. apply Qeq_alt. now rewrite H.
  - apply Qlt_alt in H. apply Qlt_alt. now apply Qmult_lt_r.
  - apply Qgt_alt in H. apply Qgt_alt. now apply Qmult_lt_r.
Qed.

Lemma Qcompare_inject (a b : Z) : (inject_Z a ?= inject_Z b) = (a ?= b)%Z.
Proof. unfold Qcompare. cbn. now rewrite !Z.mul_1_r. Qed.

Lemma xcompare_fin (m1 e1 m2 e2 : Z) :
  PyNum.xcompare (PyNum.XFin m1 e1) (PyNum.XFin m2 e2)
  = Some (dyadic m1 e1 ?= dyadic m2 e2).
Proof.
  cbn [PyNum.xcompare]. cbv zeta. f_equal.
  rewrite (Qcompare_comp _ _ (dyadic_scaled m1 e1 (Z.min e1 e2) (Z.le_min_l _ _))
                         _ _ (dyadic_scaled m2 e2 (Z.min e1 e2) (Z.le_min_r _ _))).
  rewrite Qcompare_scale by apply two_power_pos.
  now rewrite Qcompare_inject.
Qed.

Lemma of_float_denotes (f : PyFloat.float) :
  denotes (PyNum.of_float f) (float_point f).
Proof.
  destruct f as [s|s| |s m e]; cbn [PyNum.of_float float_point denotes].
  - apply dyadic_zero.
  - reflexivity.
  - exact I.
  - destruct (xnorm_value (if s then Z.neg m else Z.pos m) e) as (m' & e' & -> & H).
    exact H.
Qed.

Lemma exact_denotes (v : value) :
  is_number v = true -> denotes (exact v) (value_point v).
Proof.
  destruct v as [|z|f|s]; try discriminate; intros _; cbn [exact value_point].
  - unfold PyNum.of_int.
    destruct (xnorm_value z 0) as (m' & e' & -> & H). cbn [denotes].
    rewrite H. apply dyadic_zero_exp.
  - apply of_float_denotes.
Qed.

Lemma xleb_point (x y : PyNum.xnum) (p q : option point) :
  denotes x p -> denotes y q ->
  (PyNum.xleb x y = true
   <-> match p, q with
       | Some a, Some b => point_le a b
       | _, _ => False
       end).
Proof.
  unfold PyNum.xleb.
  destruct x as [|s1|m1 e1], p as [[|a|]|]; cbn [denotes]; try contradiction;
    destruct y as [|s2|m2 e2], q as [[|b|]|]; cbn [denotes]; try contradiction;
    intros Hx Hy; cbn [point_le];
    try (destruct s1; try discriminate Hx);
    try (destruct s2; try discriminate Hy);
    try (cbn [PyNum.xcompare]; split; [intros _; exact I | reflexivity]);
    try (cbn [PyNum.xcompare]; split; [discriminate | contradiction]).
  rewrite xcompare_fin, (Qcompare_comp _ _ Hx _ _ Hy).
  rewrite Qle_alt. destruct (a ?= b); split; congruence.
Qed.

Lemma xltb_point (x y : PyNum.xnum) (p q : option point) :
  denotes x p -> denotes y q ->
  (PyNum.xltb x y = true
   <-> match p, q with
       | Some a, Some b => point_lt a b
       | _, _ => False
       end).
Proof.
  unfold PyNum.xltb.
  destruct x as [|s1|m1 e1], p as [[|a|]|]; cbn [denotes]; try contradiction;
    destruct y as [|s2|m2 e2], q as [[|b|]|]; cbn [denotes]; try contradiction;
    intros Hx Hy; cbn [point_lt];
    try (destruct s1; try discriminate Hx);
    try (destruct s2; try discriminate Hy);
    try (cbn [PyNum.xcompare]; split; [intros _; exact I | reflexivity]);
    try (cbn [PyNum.xcompare]; split; [discriminate | contradiction]).
  rewrite xcompare_fin, (Qcompare_comp _ _ Hx _ _ Hy).
  rewrite Qlt_alt. destruct (a ?= b); split; congruence.
Qed.

(** [in_bucket] admits exactly the numbers of the range, in the order of
    the rational numbers. *)
Lemma in_bucket_within (val : value) (low high : PyFloat.float) (top : bool) :
  in_bucket val (low, high) top = Ok true <-> within val low high top.
Proof.
  rewrite in_bucket_true_iff. unfold in_interval, within.
  destruct (is_number val) eqn:Hnum.
  - pose proof (exact_denotes val Hnum) as Hv.
    pose proof (of_float_denotes low) as Hl.
    pose proof (of_float_denotes high) as Hh.
    pose proof (xleb_point _ _ _ _ Hl Hv) as H1.
    pose proof (xleb_point _ _ _ _ Hv Hh) as H2.
    pose proof (xltb_point _ _ _ _ Hv Hh) as H3.
    cbn [andb]. rewrite andb_true_iff.
    destruct (value_point val) as [x|], (float_point low) as [l|],
             (float_point high) as [h|], top; tauto.
  - cbn [andb]. destruct val; try discriminate Hnum; cbn [value_point];
      (split; [discriminate | contradiction]).
Qed.

End RangeOrder.



(** C7, the claim as first worded: the upper bound is included not only
    when it is the top of the scale. The bound 99.9999999999 is below 100,
    a popularity equal to it is not in the half-open range that ends at
    it, and yet the predicate built from that range admits it. *)
Theorem bound_near_top_is_included :
  within (VFloat f_below_100) f90 f100 false
  /\ ~ within (VFloat f_below_100) f90 f_below_100 false
  /\ build_predicate (Some (f90, f_below_100)) None None None None None None None None
                     [("track_popularity", VFloat f_below_100)] = Ok true.
Proof.
  split; [|split].
  - apply RangeOrder.in_bucket_within. vm_compute. reflexivity.
  - intros H. apply RangeOrder.in_bucket_within in H. vm_compute in H. discriminate H.
  - vm_compute. reflexivity.
Qed.

(** ** What [int] reads *)

Lemma digit_not_space_num (c : ascii) :
  PyStr.isdigit_char c = true -> PyStr.isspace_num c = false.
Proof.
  destruct c as [b0 b1 b2 b3 b4 b5 b6 b7].
  destruct b0, b1, b2, b3, b4, b5, b6, b7; vm_compute; congruence.
Qed.

Lemma digit_not_space (c : ascii) :
  PyStr.isdigit_char c = true -> PyStr.isspace c = false.
Proof.
  destruct c as [b0 b1 b2 b3 b4 b5 b6 b7].
  destruct b0, b1, b2, b3, b4, b5, b6, b7; vm_compute; congruence.
Qed.


Lemma digit_not_char (c x : ascii) :
  PyStr.isdigit_char x = false -> PyStr.isdigit_char c = true -> Ascii.eqb c x = false.
Proof.
  intros Hx Hc. destruct (Ascii.eqb_spec c x) as [->|]; [congruence | reflexivity].
Qed.

Lemma lstrip_by_id (p : ascii -> bool) (s : string) :
  PyStr.all_chars (fun c => negb (p c)) s = true -> PyStr.lstrip_by p s = s.
Proof.
  destruct s as [|c r]; [reflexivity|]. cbn.
  intros H. apply andb_true_iff in H as [H _].
  now destruct (p c).
Qed.

Lemma rstrip_by_id (p : ascii -> bool) (s : string) :
  PyStr.all_chars (fun c => negb (p c)) s = true -> PyStr.rstrip_by p s = s.
Proof.
  induction s as [|c r IH]; [reflexivity|]. cbn.
  intros H. apply andb_true_iff in H as [Hc Hr].
  rewrite (IH Hr). destruct r; [|reflexivity].
  now destruct (p c).
Qed.

Lemma strip_id (s : string) :
  PyStr.all_chars (fun c => negb (PyStr.isspace c)) s = true -> PyStr.strip s = s.
Proof.
  intros H. unfold PyStr.strip. rewrite (lstrip_by_id _ _ H). now apply rstrip_by_id.
Qed.

Lemma strip_num_id (s : string) :
  PyStr.all_chars (fun c => negb (PyStr.isspace_num c)) s = true -> PyStr.strip_num s = s.
Proof.
  intros H. unfold PyStr.strip_num. rewrite (lstrip_by_id _ _ H). now apply rstrip_by_id.
Qed.

Lemma digits_no_space (d : string) :
  PyStr.all_chars PyStr.isdigit_char d = true ->
  PyStr.all_chars (fun c => negb (PyStr.isspace c)) d = true.
Proof.
  induction d as [|c r IH]; [reflexivity|]. cbn.
  intros H. apply andb_true_iff in H as [Hc Hr].
  now rewrite (digit_not_space c Hc), (IH Hr).
Qed.

Lemma digits_no_space_num (d : string) :
  PyStr.all_chars PyStr.isdigit_char d = true ->
  PyStr.all_chars (fun c => negb (PyStr.isspace_num c)) d = true.
Proof.
  induction d as [|c r IH]; [reflexivity|]. cbn.
  intros H. apply andb_true_iff in H as [Hc Hr].
  now rewrite (digit_not_space_num c Hc), (IH Hr).
Qed.



Lemma remove_underscores_digits (d : string) (prev : option ascii) :
  PyStr.all_chars PyStr.isdigit_char d = true ->
  match prev with
  | Some p => Ascii.eqb p "_"%char = false
  | None => True
  end ->
  PyStr.remove_underscores prev d = Some d.
Proof.
  revert prev. induction d as [|c r IH]; intros prev Hd Hprev.
  - cbn. destruct prev as [p|]; [now rewrite Hprev | reflexivity].
  - cbn in Hd. apply andb_true_iff in Hd as [Hc Hr].
    assert (Hus : Ascii.eqb c "_"%char = false)
      by (apply digit_not_char; [reflexivity | exact Hc]).
    cbn [PyStr.remove_underscores]. rewrite Hus.
    assert (Hp : match prev with
                 | Some p => Ascii.eqb p "_"%char
                 | None => false
                 end = false)
      by (destruct prev; [exact Hprev | reflexivity]).
    rewrite Hp. cbn [andb].
    now rewrite (IH (Some c) Hr Hus).
Qed.

(** [int] of a run of digit characters: its decimal value when the
    characters are decimal digits and at most [PyStr.max_str_digits], and
    [ValueError] otherwise. *)
Lemma py_int_digits (d : string) :
  PyStr.isdigit d = true ->
  PyStr.py_int d = if decimal_run d then Some (PyStr.digits_value d) else None.
Proof.
  unfold PyStr.isdigit. intros H.
  apply andb_true_iff in H as [Hne Hd].
  unfold PyStr.py_int. rewrite (strip_num_id d (digits_no_space_num d Hd)).
  destruct d as [|c r]; [discriminate|].
  pose proof Hd as Hd'.
  cbn in Hd. apply andb_true_iff in Hd as [Hc Hr].
  unfold PyStr.split_sign.
  rewrite (digit_not_char c "-"%char eq_refl Hc), (digit_not_char c "+"%char eq_refl Hc).
  rewrite remove_underscores_digits; [|exact Hd' | exact I].
  reflexivity.
Qed.



(** ** Dates *)

(** A cell that is not readable yields no year and no month. *)
Lemma date_parts_unreadable (v : value) :
  readable_date v = false -> date_parts v = Ok (None, None).
Proof.
  destruct v as [|z|f|s]; try reflexivity.
  unfold readable_date, date_parts.
  destruct (7 <=? PyStr.len s); [|reflexivity].
  destruct (PyStr.char_at 4 s) as [c|]; [|reflexivity].
  destruct (Ascii.eqb c "-"); [|reflexivity].
  cbn [andb].
  destruct (PyStr.split_on "-" s) as [|p0 [|p1 ps]]; try reflexivity.
  intros ->. reflexivity.
Qed.

(** The cells the date step cannot read: a missing or null cell, a number,
    a text shorter than seven characters, a text without ["-"] at index 4. *)
Lemma unreadable_dates (r : row) (z : Z) (f : PyFloat.float) (s : string) :
  (PyDict.get date_col r = None -> readable_date (row_get r date_col) = false)
  /\ readable_date VNone = false
  /\ readable_date (VInt z) = false
  /\ readable_date (VFloat f) = false
  /\ (PyStr.len s < 7 -> readable_date (VStr s) = false)
  /\ (PyStr.char_at 4 s <> Some "-"%char -> readable_date (VStr s) = false).
Proof.
  repeat match goal with |- _ /\ _ => split end; try reflexivity.
  - unfold row_get. now intros ->.
  - intros H. unfold readable_date.
    apply Z.leb_gt in H. now rewrite H.
  - intros H. unfold readable_date.
    destruct (PyStr.char_at 4 s) as [c|].
    + destruct (Ascii.eqb_spec c "-"%char) as [->|_]; [congruence|].
      now rewrite andb_false_r.
    + now rewrite andb_false_r.
Qed.

(** With a month or a year set, the date step rejects an unreadable cell. *)
Lemma date_check_unreadable (r : row) (month year : option Z) :
  (month <> None \/ year <> None) ->
  readable_date (row_get r date_col) = false ->
  date_check r month year = Ok false.
Proof.
  intros Hset Hbad. unfold date_check.
  fold date_col. rewrite (date_parts_unreadable _ Hbad).
  destruct month as [m|], year as [y|]; try reflexivity.
  destruct Hset; congruence.
Qed.

(** The predicate accepts a row only if its date step does; when the rest
    of the constraints accept the row the date step decides. *)
Lemma predicate_ends_with_date_check
      (pop : option range) (genre subgenre : option string)
      (dance energy tempo live : option range) (month year : option Z) (r : row) :
  (build_predicate pop genre subgenre dance energy tempo live month year r = Ok true ->
   date_check r month year = Ok true)
  /\ (build_predicate pop genre subgenre dance energy tempo live None None r = Ok true ->
      build_predicate pop genre subgenre dance energy tempo live month year r
      = date_check r month year).
Proof.
  unfold build_predicate.
  destruct (range_rejects r "track_popularity" pop (top_pop pop)) as [[|]|e1];
    cbn [bind]; try (split; discriminate).
  destruct (category_rejects r "playlist_genre" genre); try (split; discriminate).
  destruct (category_rejects r "playlist_subgenre" subgenre); try (split; discriminate).
  destruct (range_rejects r "danceability" dance (top_01 dance)) as [[|]|e4];
    cbn [bind]; try (split; discriminate).
  destruct (range_rejects r "energy" energy (top_01 energy)) as [[|]|e5];
    cbn [bind]; try (split; discriminate).
  destruct (range_rejects r "tempo" tempo true) as [[|]|e6];
    cbn [bind]; try (split; discriminate).
  destruct (range_rejects r "liveness" live (top_01 live)) as [[|]|e7];
    cbn [bind]; try (split; discriminate).
  split; auto.
Qed.

(** What the date step reads off a readable cell: the values of the first
    two pieces when [int] reads both, and the [ValueError] of [int]
    otherwise. *)
Lemma date_parts_readable (s : string) :
  readable_date (VStr s) = true ->
  date_parts (VStr s)
  = if decimal_run (fst (date_pieces s)) && decimal_run (snd (date_pieces s))
    then Ok (Some (PyStr.digits_value (fst (date_pieces s))),
             Some (PyStr.digits_value (snd (date_pieces s))))
    else Err (ValueError "invalid literal for int()").
Proof.
  unfold readable_date, date_parts, date_pieces.
  destruct (7 <=? PyStr.len s); [|discriminate].
  destruct (PyStr.char_at 4 s) as [c|]; [|discriminate].
  destruct (Ascii.eqb c "-"); [|discriminate].
  cbn [andb].
  destruct (PyStr.split_on "-" s) as [|p0 [|p1 ps]]; try discriminate.
  intros H. rewrite H. apply andb_true_iff in H as [H0 H1].
  rewrite (py_int_digits _ H0), (py_int_digits _ H1). cbn [fst snd].
  destruct (decimal_run p0), (decimal_run p1); reflexivity.
Qed.

Lemma date_check_readable (r : row) (s : string) (month year : option Z) :
  (month <> None \/ year <> None) ->
  row_get r date_col = VStr s ->
  readable_date (VStr s) = true ->
  date_check r month year
  = if decimal_run (fst (date_pieces s)) && decimal_run (snd (date_pieces s))
    then Ok (date_matches (PyStr.digits_value (fst (date_pieces s)))
                          (PyStr.digits_value (snd (date_pieces s))) month year)
    else Err (ValueError "invalid literal for int()").
Proof.
  intros Hset Hs Hread. unfold date_check. fold date_col.
  rewrite Hs, (date_parts_readable s Hread).
  destruct (decimal_run _ && decimal_run _).
  - cbn [bind]. unfold date_matches, opt_Z_eqb.
    destruct month as [m|], year as [y|]; cbn [andb negb];
      try (now destruct Hset);
      repeat match goal with
             | |- context [?a =? ?b] => destruct (a =? b)
             end; reflexivity.
  - destruct month as [m|], year as [y|]; try reflexivity.
    destruct Hset; congruence.
Qed.

(** C6, as amended: when a month or a year is constrained, a row whose date
    cell is missing, null, not a text, shorter than seven characters,
    without ["-"] at index 4, or whose first two ["-"]-separated pieces are
    not runs of digit characters is never accepted, and is rejected with
    [false] when every other constraint accepts it. A cell that passes
    these checks is read by [int] from its first two pieces: when every
    other constraint accepts the row, the predicate tells whether the
    month and year so read are the ones set if both pieces are runs of at
    most 4300 decimal digits, and raises the [ValueError] of [int] if one
    is not. *)
Theorem unreadable_date_fails_closed :
  forall (pop : option range) (genre subgenre : option string)
         (dance energy tempo live : option range) (month year : option Z) (r : row),
    (month <> None \/ year <> None) ->
    (readable_date (row_get r date_col) = false ->
     build_predicate pop genre subgenre dance energy tempo live month year r <> Ok true
     /\ (build_predicate pop genre subgenre dance energy tempo live None None r = Ok true ->
         build_predicate pop genre subgenre dance energy tempo live month year r
         = Ok false))
    /\ (forall s : string,
          row_get r date_col = VStr s ->
          readable_date (VStr s) = true ->
          build_predicate pop genre subgenre dance energy tempo live None None r = Ok true ->
          build_predicate pop genre subgenre dance energy tempo live month year r
          = if decimal_run (fst (date_pieces s)) && decimal_run (snd (date_pieces s))
            then Ok (date_matches (PyStr.digits_value (fst (date_pieces s)))
                                  (PyStr.digits_value (snd (date_pieces s)))
                                  month year)
            else Err (ValueError "invalid literal for int()")).
Proof.
  intros pop genre subgenre dance energy tempo live month year r Hset.
  pose proof (predicate_ends_with_date_check
                pop genre subgenre dance energy tempo live month year r) as [H1 H2].
  split.
  - intros Hbad.
    pose proof (date_check_unreadable r month year Hset Hbad) as Hd.
    split.
    + intros H. apply H1 in H. congruence.
    + intros H. rewrite (H2 H). exact Hd.
  - intros s Hs Hread H. rewrite (H2 H).
    now apply date_check_readable.
Qed.

Lemma unreadable_date_fails_closed_witness :
  build_predicate None None None None None None None (Some 5) None
                  [(date_col, VNone)] = Ok false
  /\ build_predicate None None None None None None None (Some 1) None
                     [(date_col, VStr superscript_year_date)]
     = Err (ValueError "invalid literal for int()").
Proof.
  split.
  - apply (proj1 (unreadable_date_fails_closed
                    None None None None None None None (Some 5) None
                    [(date_col, VNone)] (or_introl (fun H => eq_ind (Some 5)
                       (fun o => match o with Some _ => True | None => False end)
                       I None H)))).
    + reflexivity.
    + reflexivity.
  - exact (proj2 (unreadable_date_fails_closed
                    None None None None None None None (Some 1) None
                    [(date_col, VStr superscript_year_date)]
                    (or_introl (fun H => eq_ind (Some 1)
                       (fun o => match o with Some _ => True | None => False end)
                       I None H)))
                 superscript_year_date eq_refl eq_refl eq_refl).
Defined.

(** C6, as stated, fails: the cell ["2020-1-15"] has no two-digit month at
    positions 5 and 6, yet with the month constrained to 1 the row is
    accepted; and on a cell whose year is written with superscript digits,
    not a four-digit year that can be parsed, the predicate raises instead
    of returning false. *)
Lemma single_digit_month_accepted :
  year_dash_month (VStr "2020-1-15") = false
  /\ build_predicate None None None None None None None (Some 1) None
                     [(date_col, VStr "2020-1-15")] = Ok true
  /\ build_predicate None None None None None None None (Some 1) None
                     [(date_col, VStr superscript_year_date)]
     = Err (ValueError "invalid literal for int()").
Proof. repeat split; reflexivity. Qed.

(** ** Sorting *)

Lemma mapM_Forall2 {A B : Type} (f : A -> result B) (xs : list A) (ys : list B) :
  mapM f xs = Ok ys -> Forall2 (fun x y => f x = Ok y) xs ys.
Proof.
  revert ys. induction xs as [|x xs IH]; intros ys H; simpl in H.
  - injection H as <-. constructor.
  - destruct (f x) as [y|e] eqn:Hx; [|discriminate]. cbn [bind] in H.
    destruct (mapM f xs) as [ys'|e]; [|discriminate]. cbn [bind] in H.
    injection H as <-. constructor; auto.
Qed.

Section SortBy.

Variable col : string.

Lemma key_lt_flag (ky kx : bool * value) (b : bool) :
  key_lt ky kx = Ok b ->
  if b then (fst ky = true -> fst kx = true) else (fst kx = true -> fst ky = true).
Proof.
  unfold key_lt. destruct ky as [fy vy], kx as [fx vx]; cbn [fst snd].
  destruct fy, fx; cbn [Bool.eqb negb andb]; intros H;
    destruct b; auto; discriminate H.
Qed.

Lemma insert_keyed_perm (x : (bool * value) * row) (l l' : list ((bool * value) * row)) :
  insert_keyed x l = Ok l' -> Permutation (x :: l) l'.
Proof.
  revert l'. induction l as [|y rest IH]; intros l' H; simpl in H.
  - injection H as <-. apply Permutation_refl.
  - destruct (key_lt (fst y) (fst x)) as [[|]|e]; cbn [bind] in H; try discriminate.
    + destruct (insert_keyed x rest) as [rest'|e]; [|discriminate]. cbn [bind] in H.
      injection H as <-.
      apply perm_trans with (y :: x :: rest); [apply perm_swap|].
      apply perm_skip. now apply IH.
    + injection H as <-. apply Permutation_refl.
Qed.

Lemma sort_keyed_perm (l l' : list ((bool * value) * row)) :
  sort_keyed l = Ok l' -> Permutation l l'.
Proof.
  revert l'. induction l as [|x rest IH]; intros l' H; simpl in H.
  - injection H as <-. constructor.
  - destruct (sort_keyed rest) as [s|e]; [|discriminate]. cbn [bind] in H.
    apply perm_trans with (x :: s).
    + apply perm_skip. now apply IH.
    + now apply insert_keyed_perm.
Qed.

Lemma insert_keyed_sorted (x : (bool * value) * row) (l l' : list ((bool * value) * row)) :
  StronglySorted flag_le l -> insert_keyed x l = Ok l' -> StronglySorted flag_le l'.
Proof.
  revert l'. induction l as [|y rest IH]; intros l' Hs H; simpl in H.
  - injection H as <-. repeat constructor.
  - apply StronglySorted_inv in Hs as [Hrest Hy].
    destruct (key_lt (fst y) (fst x)) as [[|]|e] eqn:Hlt; cbn [bind] in H;
      try discriminate; apply key_lt_flag in Hlt.
    + destruct (insert_keyed x rest) as [rest'|e] eqn:Hins; [|discriminate].
      cbn [bind] in H. injection H as <-.
      constructor; [now apply IH|].
      apply (Permutation_Forall (insert_keyed_perm _ _ _ Hins)).
      constructor; [exact Hlt | exact Hy].
    + injection H as <-.
      constructor; [now constructor|].
      constructor; [exact Hlt|].
      rewrite Forall_forall in Hy |- *. intros z Hz Hx.
      apply (Hy z Hz). now apply Hlt.
Qed.

Lemma sort_keyed_sorted (l l' : list ((bool * value) * row)) :
  sort_keyed l = Ok l' -> StronglySorted flag_le l'.
Proof.
  revert l'. induction l as [|x rest IH]; intros l' H; simpl in H.
  - injection H as <-. constructor.
  - destruct (sort_keyed rest) as [s|e]; [|discriminate]. cbn [bind] in H.
    eapply insert_keyed_sorted; [|exact H]. now apply IH.
Qed.

(** A list sorted on the flags is the unflagged items followed by the
    flagged ones. *)
Lemma sorted_flags_split (l : list ((bool * value) * row)) :
  StronglySorted flag_le l ->
  exists a b, l = (a ++ b)%list
              /\ Forall (fun x => flag x = false) a
              /\ Forall (fun x => flag x = true) b.
Proof.
  induction 1 as [|x l Hs (a & b & -> & Ha & Hb) Hx].
  - exists [], []. repeat split; constructor.
  - destruct (flag x) eqn:Hf.
    + exists [], (x :: a ++ b)%list. repeat split; [constructor|].
      constructor; [exact Hf|].
      rewrite Forall_forall in Hx |- *. intros z Hz. now apply Hx.
    + exists (x :: a), b. repeat split; [constructor; assumption | assumption].
Qed.

Lemma keyed_rows (rs : list row) (keyed : list ((bool * value) * row)) :
  mapM (fun r => k <- sort_key col r ;; Ok (k, r)) rs = Ok keyed ->
  Forall (keyed_ok col) keyed /\ map snd keyed = rs.
Proof.
  intros H. apply mapM_Forall2 in H.
  induction H as [|r x rs keyed Hx _ [IH1 IH2]]; [split; [constructor | reflexivity]|].
  unfold sort_key in Hx. unfold PyDict.index in Hx.
  destruct (PyDict.get col r) as [v|] eqn:Hget; [|discriminate].
  cbn [bind] in Hx. injection Hx as <-.
  split; [constructor; [now split | exact IH1] | simpl; now rewrite IH2].
Qed.

Lemma unflagged_non_null (l : list ((bool * value) * row)) :
  Forall (keyed_ok col) l -> Forall (fun x => flag x = false) l ->
  Forall (non_null_at col) (map snd l).
Proof.
  induction l as [|x l IH]; intros Hk Hf; [constructor|].
  inversion Hk as [|? ? [Hget Hflag] Hk']; subst.
  inversion Hf as [|? ? Hx Hf']; subst.
  simpl. constructor; [|now apply IH].
  exists (snd (fst x)). split; [exact Hget|].
  intros Hnone. rewrite Hflag, Hnone in Hx. discriminate.
Qed.

Lemma flagged_null (l : list ((bool * value) * row)) :
  Forall (keyed_ok col) l -> Forall (fun x => flag x = true) l ->
  Forall (null_at col) (map snd l).
Proof.
  induction l as [|x l IH]; intros Hk Hf; [constructor|].
  inversion Hk as [|? ? [Hget Hflag] Hk']; subst.
  inversion Hf as [|? ? Hx Hf']; subst.
  simpl. constructor; [|now apply IH].
  unfold null_at. rewrite Hget. f_equal.
  rewrite Hflag in Hx. now destruct (snd (fst x)).
Qed.

Lemma null_not_non_null (r : row) : null_at col r -> non_null_at col r -> False.
Proof.
  unfold null_at. intros Hn (v & Hget & Hv). congruence.
Qed.

(** Position of an item of [a ++ b] that cannot be in [a], or in [b]. *)
Lemma nth_error_in_right {A : Type} (P : A -> Prop) (a b : list A) (i : nat) (x : A) :
  Forall P a -> ~ P x -> nth_error (a ++ b) i = Some x -> (List.length a <= i)%nat.
Proof.
  intros Ha Hx Hi.
  destruct (Nat.lt_ge_cases i (List.length a)) as [Hlt|]; [|assumption].
  rewrite nth_error_app1 in Hi by assumption.
  apply nth_error_In in Hi. rewrite Forall_forall in Ha. now apply Ha in Hi.
Qed.

Lemma nth_error_in_left {A : Type} (P : A -> Prop) (a b : list A) (i : nat) (x : A) :
  Forall P b -> ~ P x -> nth_error (a ++ b) i = Some x -> (i < List.length a)%nat.
Proof.
  intros Hb Hx Hi.
  destruct (Nat.lt_ge_cases i (List.length a)) as [|Hge]; [assumption|].
  rewrite nth_error_app2 in Hi by assumption.
  apply nth_error_In in Hi. rewrite Forall_forall in Hb. now apply Hb in Hi.
Qed.

Lemma partition_nulls_last (a b : list row) :
  Forall (non_null_at col) a -> Forall (null_at col) b -> nulls_last col (a ++ b).
Proof.
  intros Ha Hb i j ri rj Hi Hj Hnull Hnon.
  assert (Hri : (List.length a <= i)%nat).
  { apply (nth_error_in_right _ a b i ri Ha); [|exact Hi].
    intros H. exact (null_not_non_null ri Hnull H). }
  assert (Hrj : (j < List.length a)%nat).
  { apply (nth_error_in_left _ a b j rj Hb); [|exact Hj].
    intros H. exact (null_not_non_null rj H Hnon). }
  lia.
Qed.

Lemma partition_nulls_first (a b : list row) :
  Forall (non_null_at col) a -> Forall (null_at col) b -> nulls_first col (b ++ a).
Proof.
  intros Ha Hb i j ri rj Hi Hj Hnull Hnon.
  assert (Hri : (i < List.length b)%nat).
  { apply (nth_error_in_left _ b a i ri Ha); [|exact Hi].
    intros H. exact (null_not_non_null ri Hnull H). }
  assert (Hrj : (List.length b <= j)%nat).
  { apply (nth_error_in_right _ b a j rj Hb); [|exact Hj].
    intros H. exact (null_not_non_null rj H Hnon). }
  lia.
Qed.

(** A sorted list of well-keyed rows, read off as rows: the non-null rows
    and then the null ones. *)
Lemma sort_keyed_partition (l s : list ((bool * value) * row)) :
  Forall (keyed_ok col) l -> sort_keyed l = Ok s ->
  exists a b, map snd s = (a ++ b)%list
              /\ Forall (non_null_at col) a /\ Forall (null_at col) b.
Proof.
  intros Hk Hs.
  pose proof (sort_keyed_perm _ _ Hs) as Hperm.
  pose proof (Permutation_Forall Hperm Hk) as Hk'.
  destruct (sorted_flags_split _ (sort_keyed_sorted _ _ Hs)) as (a & b & -> & Ha & Hb).
  apply Forall_app in Hk' as [Hka Hkb].
  exists (map snd a), (map snd b). rewrite map_app. split; [reflexivity|].
  split; [now apply unflagged_non_null | now apply flagged_null].
Qed.

Lemma sorted_nulls (rs out : list row) (reverse : bool) :
  sorted rs col reverse = Ok out ->
  Permutation rs out
  /\ if reverse then nulls_first col out else nulls_last col out.
Proof.
  unfold sorted. intros H.
  destruct (mapM _ rs) as [keyed|e] eqn:Hkeyed; [|discriminate].
  cbn [bind] in H. apply keyed_rows in Hkeyed as [Hk Hrows].
  destruct reverse.
  - destruct (sort_keyed (rev keyed)) as [t|e] eqn:Hs; [|discriminate].
    cbn [bind] in H. injection H as <-.
    assert (Hk' : Forall (keyed_ok col) (rev keyed)).
    { apply (Permutation_Forall (Permutation_rev keyed) Hk). }
    split.
    + rewrite <- Hrows. apply Permutation_map.
      apply perm_trans with (rev keyed); [apply Permutation_rev|].
      apply perm_trans with t; [now apply sort_keyed_perm | apply Permutation_rev].
    + destruct (sort_keyed_partition _ _ Hk' Hs) as (a & b & Hab & Ha & Hb).
      rewrite map_rev, Hab, rev_app_distr.
      apply partition_nulls_first; now apply Forall_rev.
  - destruct (sort_keyed keyed) as [t|e] eqn:Hs; [|discriminate].
    cbn [bind] in H. injection H as <-.
    split.
    + rewrite <- Hrows. apply Permutation_map. now apply sort_keyed_perm.
    + destruct (sort_keyed_partition _ _ Hk Hs) as (a & b & -> & Ha & Hb).
      now apply partition_nulls_last.
Qed.

End SortBy.

(** C1, as amended: the result of [sort_by] holds the rows of the table; in
    an ascending sort every row that is null at the column comes after
    every row that is not, and in a descending sort every such row comes
    before every row that is not. *)
Theorem sort_by_null_position :
  forall (T T' : DataFrame) (col : string) (descending : bool),
    sort_by T col descending = Ok T' ->
    Permutation (rows T) (rows T')
    /\ if descending then nulls_first col (rows T') else nulls_last col (rows T').
Proof.
  intros T T' col descending H. unfold sort_by in H.
  destruct (negb (mem_str col (columns T))); [discriminate|].
  destruct (sorted (rows T) col descending) as [out|e] eqn:Hs; [|discriminate].
  cbn [bind] in H. injection H as <-.
  now apply sorted_nulls.
Qed.

Lemma sort_by_null_position_witness :
  nulls_first "a" [[("a", VNone)]; [("a", VInt 3)]; [("a", VInt 1)]].
Proof.
  apply (sort_by_null_position
           (__init__ [[("a", VInt 1)]; [("a", VNone)]; [("a", VInt 3)]])
           (__init__ [[("a", VNone)]; [("a", VInt 3)]; [("a", VInt 1)]])
           "a" true).
  reflexivity.
Defined.

(** C1, as stated, fails for a descending sort: the null row comes first. *)
Lemma descending_sort_puts_null_first :
  mem_str "a" (columns (__init__ [[("a", VInt 1)]; [("a", VNone)]])) = true
  /\ sort_by (__init__ [[("a", VInt 1)]; [("a", VNone)]]) "a" true
     = Ok (__init__ [[("a", VNone)]; [("a", VInt 1)]])
  /\ ~ nulls_last "a" [[("a", VNone)]; [("a", VInt 1)]].
Proof.
  split; [reflexivity|]. split; [reflexivity|].
  intros H.
  specialize (H 0%nat 1%nat [("a", VNone)] [("a", VInt 1)] eq_refl eq_refl).
  assert (Hn : (1 < 0)%nat).
  { apply H; [reflexivity|]. exists (VInt 1). split; [reflexivity | discriminate]. }
  lia.
Qed.

(** ** Ingestion statistics *)

Lemma stats_add_0_r (st : stats_t) : stats_add st stats0 = st.
Proof.
  destruct st. unfold stats_add, stats0. cbn. f_equal; lia.
Qed.

Ltac stats_eq :=
  match goal with
  | a : stats_t, b : stats_t |- _ =>
      destruct a, b; unfold stats_add; cbn; f_equal; lia
  end.

Lemma bump_total_rows_add (a b : stats_t) :
  bump_total_rows (stats_add a b) = stats_add a (bump_total_rows b).
Proof. unfold bump_total_rows. stats_eq. Qed.

Lemma bump_total_fields_add (a b : stats_t) :
  bump_total_fields (stats_add a b) = stats_add a (bump_total_fields b).
Proof. unfold bump_total_fields. stats_eq. Qed.

Lemma bump_num_nulls_add (a b : stats_t) :
  bump_num_nulls (stats_add a b) = stats_add a (bump_num_nulls b).
Proof. unfold bump_num_nulls. stats_eq. Qed.

Lemma bump_num_ints_add (a b : stats_t) :
  bump_num_ints (stats_add a b) = stats_add a (bump_num_ints b).
Proof. unfold bump_num_ints. stats_eq. Qed.

Lemma bump_num_floats_add (a b : stats_t) :
  bump_num_floats (stats_add a b) = stats_add a (bump_num_floats b).
Proof. unfold bump_num_floats. stats_eq. Qed.

Lemma bump_num_strings_add (a b : stats_t) :
  bump_num_strings (stats_add a b) = stats_add a (bump_num_strings b).
Proof. unfold bump_num_strings. stats_eq. Qed.

Lemma bump_malformed_rows_add (a b : stats_t) :
  bump_malformed_rows (stats_add a b) = stats_add a (bump_malformed_rows b).
Proof. unfold bump_malformed_rows. stats_eq. Qed.

Lemma bump_duplicates_removed_add (a b : stats_t) :
  bump_duplicates_removed (stats_add a b) = stats_add a (bump_duplicates_removed b).
Proof. unfold bump_duplicates_removed. stats_eq. Qed.

Create Rewrite HintDb stats_shift.
#[local] Hint Rewrite bump_total_rows_add bump_total_fields_add bump_num_nulls_add
  bump_num_ints_add bump_num_floats_add bump_num_strings_add
  bump_malformed_rows_add bump_duplicates_removed_add : stats_shift.

(** Counters already present are carried along unchanged by every step:
    a step on [a + b] is the step on [b] with [a] added. *)
Lemma coerce_shift (tok : string) (a b : stats_t) :
  _coerce tok (stats_add a b)
  = (fst (_coerce tok b), stats_add a (snd (_coerce tok b))).
Proof.
  unfold _coerce.
  destruct (mem_str _ _NULLS); [cbn; now autorewrite with stats_shift|].
  destruct (PyStr.nonempty _ && _).
  - destruct (PyStr.py_int _); [cbn; now autorewrite with stats_shift|].
    destruct (PyFloat.py_float _); cbn; now autorewrite with stats_shift.
  - destruct (PyFloat.py_float _); cbn; now autorewrite with stats_shift.
Qed.

Lemma build_row_shift (header parts : list string) (acc : row) (a b : stats_t) :
  build_row header parts acc (stats_add a b)
  = (fst (build_row header parts acc b), stats_add a (snd (build_row header parts acc b))).
Proof.
  revert parts acc b.
  induction header as [|h hs IH]; intros parts acc b; [reflexivity|].
  destruct parts as [|v vs]; [reflexivity|].
  cbn [build_row]. rewrite coerce_shift.
  destruct (_coerce v b) as [x st']. cbn [fst snd]. apply IH.
Qed.

Lemma read_lines_shift (header lines : list string) (delimiter : string)
      (rs : list row) (a b : stats_t) :
  read_lines header lines delimiter rs (stats_add a b)
  = (fst (read_lines header lines delimiter rs b),
     stats_add a (snd (read_lines header lines delimiter rs b))).
Proof.
  revert rs b. induction lines as [|line rest IH]; intros rs b; [reflexivity|].
  cbn [read_lines].
  destruct (negb _).
  - rewrite bump_malformed_rows_add. apply IH.
  - rewrite build_row_shift.
    destruct (build_row header _ [] b) as [r st']. cbn [fst snd].
    rewrite bump_total_rows_add. apply IH.
Qed.

Lemma read_csv_shift (f : list string) (delimiter : string) (a b : stats_t) :
  read_csv f delimiter (stats_add a b)
  = (fst (read_csv f delimiter b), stats_add a (snd (read_csv f delimiter b))).
Proof.
  unfold read_csv. destruct f as [|header_line lines]; [reflexivity|].
  destruct (negb _); [reflexivity|]. apply read_lines_shift.
Qed.

Lemma dedup_loop_shift (rs : list row) (seen : list (list (string * value)))
      (unique_rows : list row) (a b : stats_t) :
  dedup_loop rs seen unique_rows (stats_add a b)
  = (fst (dedup_loop rs seen unique_rows b),
     stats_add a (snd (dedup_loop rs seen unique_rows b))).
Proof.
  revert seen unique_rows b.
  induction rs as [|r rest IH]; intros seen unique_rows b; [reflexivity|].
  cbn [dedup_loop]. destruct (negb _); [apply IH|].
  rewrite bump_duplicates_removed_add. apply IH.
Qed.

(** C2, as amended: the counters are one module-level record that no run
    resets. A run started from counters [st] returns the rows it would
    return from fresh counters and leaves [st] plus what the run alone
    counts; so after two successive runs the counters are the sum of what
    each run counts. *)
Theorem stats_accumulate_across_runs :
  forall (f1 f2 : list string) (delimiter : string) (rs : list row) (st : stats_t),
    fst (read_csv f2 delimiter st) = fst (read_csv f2 delimiter stats0)
    /\ snd (read_csv f2 delimiter st)
       = stats_add st (snd (read_csv f2 delimiter stats0))
    /\ snd (read_csv f2 delimiter (snd (read_csv f1 delimiter stats0)))
       = stats_add (snd (read_csv f1 delimiter stats0))
                   (snd (read_csv f2 delimiter stats0))
    /\ fst (remove_duplicates rs st) = fst (remove_duplicates rs stats0)
    /\ snd (remove_duplicates rs st)
       = stats_add st (snd (remove_duplicates rs stats0)).
Proof.
  intros f1 f2 delimiter rs st.
  assert (Hread : forall s,
             read_csv f2 delimiter s
             = (fst (read_csv f2 delimiter stats0),
                stats_add s (snd (read_csv f2 delimiter stats0)))).
  { intros s. rewrite <- (stats_add_0_r s) at 1. apply read_csv_shift. }
  assert (Hdedup : remove_duplicates rs st
                   = (fst (remove_duplicates rs stats0),
                      stats_add st (snd (remove_duplicates rs stats0)))).
  { unfold remove_duplicates. rewrite <- (stats_add_0_r st) at 1.
    apply dedup_loop_shift. }
  repeat match goal with |- _ /\ _ => split end.
  - now rewrite Hread.
  - now rewrite Hread.
  - now rewrite Hread.
  - now rewrite Hdedup.
  - now rewrite Hdedup.
Qed.

(** C2, as stated, fails: after the same second run the counters differ
    with the input of the first run, and differ from those of the second
    run taken alone. *)
Lemma stats_leak_across_runs :
  stats_after file_one_record (stats_after file_one_record stats0)
  <> stats_after file_one_record (stats_after file_header_only stats0)
  /\ stats_after file_one_record (stats_after file_one_record stats0)
     <> stats_after file_one_record stats0
  /\ total_rows (stats_after file_one_record (stats_after file_one_record stats0)) = 2
  /\ total_rows (stats_after file_one_record stats0) = 1.
Proof.
  repeat match goal with |- _ /\ _ => split end.
  - intros H. apply (f_equal total_rows) in H. vm_compute in H. discriminate H.
  - intros H. apply (f_equal total_rows) in H. vm_compute in H. discriminate H.
  - vm_compute. reflexivity.
  - vm_compute. reflexivity.
Qed.

(** ** Grouping and aggregation *)




Lemma Forall2_In_l {A B : Type} (R : A -> B -> Prop) (l : list A) (l' : list B) (x : A) :
  Forall2 R l l' -> In x l -> exists y, In y l' /\ R x y.
Proof.
  induction 1 as [|a b l l' Hab _ IH]; intros Hin; [contradiction|].
  destruct Hin as [->|Hin].
  - exists b. split; [now left | assumption].
  - destruct (IH Hin) as (y & Hy & Hxy). exists y. split; [now right | assumption].
Qed.














(** ** Duplicate removal *)

Lemma xnum_eqb_trans (x y z : PyNum.xnum) :
  PyNum.xnum_eqb x y = true -> PyNum.xnum_eqb y z = true -> PyNum.xnum_eqb x z = true.
Proof.
  destruct x as [|s1|m1 e1], y as [|s2|m2 e2], z as [|s3|m3 e3];
    cbn; try discriminate.
  - intros H1 H2. apply eqb_prop in H1. now subst.
  - intros H1 H2. apply andb_true_iff in H1 as [Hm He].
    apply Z.eqb_eq in Hm, He. now subst.
Qed.

Lemma py_eq_trans (a b c : value) :
  py_eq a b = true -> py_eq b c = true -> py_eq a c = true.
Proof.
  destruct a, b, c; cbn [py_eq]; try discriminate; try (intros; reflexivity);
    try apply xnum_eqb_trans.
  intros H1 H2. apply String.eqb_eq in H1, H2. subst. apply String.eqb_refl.
Qed.

Lemma tuple_eqb_trans (a b c : list (string * value)) :
  tuple_eqb a b = true -> tuple_eqb b c = true -> tuple_eqb a c = true.
Proof.
  revert b c. induction a as [|[k1 v1] a IH]; intros [|[k2 v2] b] [|[k3 v3] c];
    cbn [tuple_eqb]; try discriminate; [reflexivity|].
  intros H1 H2.
  apply andb_true_iff in H1 as [H1 Ht1]. apply andb_true_iff in H1 as [Hk1 Hv1].
  apply andb_true_iff in H2 as [H2 Ht2]. apply andb_true_iff in H2 as [Hk2 Hv2].
  apply String.eqb_eq in Hk1, Hk2. subst.
  rewrite String.eqb_refl, (py_eq_trans _ _ _ Hv1 Hv2), (IH _ _ Ht1 Ht2).
  reflexivity.
Qed.

(** A tuple equal to one that is in [seen] is in [seen]. *)
Lemma in_seen_trans (t t' : list (string * value)) (seen : list (list (string * value))) :
  tuple_eqb t' t = true -> in_seen t seen = true -> in_seen t' seen = true.
Proof.
  unfold in_seen. intros Heq Hin.
  apply existsb_exists in Hin as (s & Hs & Hts).
  apply existsb_exists. exists s. split; [exact Hs|].
  exact (tuple_eqb_trans _ _ _ Heq Hts).
Qed.

Lemma dedup_loop_kept (rs : list row) (seen : list (list (string * value)))
      (unique_rows : list row) (st : stats_t) :
  fst (dedup_loop rs seen unique_rows st) = (unique_rows ++ kept_rows seen rs)%list.
Proof.
  revert seen unique_rows st.
  induction rs as [|r rest IH]; intros seen unique_rows st; cbn [dedup_loop kept_rows].
  - now rewrite app_nil_r.
  - destruct (in_seen (sorted_items r) seen); cbn [negb].
    + apply IH.
    + rewrite IH, <- app_assoc. reflexivity.
Qed.

(** Running the loop again over the kept rows, with no more tuples seen
    than the first time, keeps them all. *)
Lemma kept_rows_idempotent (rs : list row) (seen seen' : list (list (string * value))) :
  (forall t, in_seen t seen' = true -> in_seen t seen = true) ->
  kept_rows seen' (kept_rows seen rs) = kept_rows seen rs.
Proof.
  revert seen seen'. induction rs as [|r rest IH]; intros seen seen' Hsub;
    [reflexivity|].
  cbn [kept_rows].
  destruct (in_seen (sorted_items r) seen) eqn:Hr; [now apply IH|].
  cbn [kept_rows].
  destruct (in_seen (sorted_items r) seen') eqn:Hr';
    [apply Hsub in Hr'; congruence|].
  f_equal. apply IH.
  intros t. unfold in_seen. cbn [existsb].
  intros H. apply orb_true_iff in H as [H|H]; apply orb_true_iff;
    [now left | right; now apply Hsub].
Qed.

Lemma string_ltb_asym (s t : string) : String.ltb s t = true -> String.ltb t s = false.
Proof.
  unfold String.ltb. rewrite (String.compare_antisym t s).
  destruct (String.compare s t); cbn; congruence.
Qed.

Lemma string_ltb_total (s t : string) :
  String.ltb t s = false -> String.eqb s t = false -> String.ltb s t = true.
Proof.
  unfold String.ltb. intros Hts Hne. rewrite (String.compare_antisym t s) in Hts.
  destruct (String.compare s t) eqn:Hc; cbn in Hts; try congruence.
  apply String.compare_eq_iff in Hc. apply String.eqb_neq in Hne. contradiction.
Qed.

Lemma string_ltb_trans (a b c : string) :
  String.ltb a b = true -> String.ltb b c = true -> String.ltb a c = true.
Proof.
  unfold String.ltb. intros H1 H2.
  destruct (String.compare a b) eqn:E1; try discriminate.
  destruct (String.compare b c) eqn:E2; try discriminate.
  apply OrderedTypeEx.String_as_OT.cmp_lt in E1, E2.
  pose proof (OrderedTypeEx.String_as_OT.lt_trans _ _ _ E1 E2) as H.
  apply OrderedTypeEx.String_as_OT.cmp_lt in H.
  unfold OrderedTypeEx.String_as_OT.cmp in H. now rewrite H.
Qed.

Lemma string_ltb_irrefl (a : string) : String.ltb a a = false.
Proof.
  destruct (String.ltb a a) eqn:H; [|reflexivity].
  pose proof (string_ltb_asym _ _ H). congruence.
Qed.

(** *** Lookup in rows *)

Import Notions.

Lemma mem_str_app (x : string) (a b : list string) :
  mem_str x (a ++ b) = mem_str x a || mem_str x b.
Proof. unfold mem_str. apply existsb_app. Qed.

Lemma mem_str_In (x : string) (l : list string) : mem_str x l = true <-> In x l.
Proof.
  unfold mem_str. rewrite existsb_exists. split.
  - intros (y & Hy & E). apply String.eqb_eq in E. now subst.
  - intros H. exists x. split; [exact H | apply String.eqb_refl].
Qed.

Lemma get_In_keys (k : string) (d : row) (v : value) :
  PyDict.get k d = Some v -> In k (PyDict.keys d) /\ In (k, v) d.
Proof.
  induction d as [|[k' v'] d IH]; cbn; [discriminate|].
  destruct (String.eqb_spec k' k) as [->|Hne].
  - intros H. injection H as <-. split; now left.
  - intros H. destruct (IH H). split; now right.
Qed.

Lemma get_absent (k : string) (d : row) :
  ~ In k (PyDict.keys d) -> PyDict.get k d = None.
Proof.
  induction d as [|[k' v'] d IH]; cbn; [reflexivity|].
  intros H. destruct (String.eqb_spec k' k) as [->|Hne]; [exfalso; apply H; now left|].
  apply IH. intros Hin. apply H. now right.
Qed.

Lemma get_present (k : string) (d : row) :
  In k (PyDict.keys d) -> exists v, PyDict.get k d = Some v.
Proof.
  induction d as [|[k' v'] d IH]; cbn; [contradiction|].
  destruct (String.eqb_spec k' k) as [->|Hne]; [intros _; now eexists|].
  intros [H|H]; [contradiction | now apply IH].
Qed.

Lemma get_of_item (k : string) (v : value) (d : row) :
  distinct_keys d -> In (k, v) d -> PyDict.get k d = Some v.
Proof.
  unfold distinct_keys.
  induction d as [|[k' v'] d IH]; cbn; [contradiction|].
  intros Hnd Hin. apply NoDup_cons_iff in Hnd as [Hk Hnd].
  destruct Hin as [E|Hin].
  - injection E as -> ->. now rewrite String.eqb_refl.
  - destruct (String.eqb_spec k' k) as [->|Hne]; [|now apply IH].
    exfalso. apply Hk. change k with (fst (k, v)). now apply in_map.
Qed.

(** Two rows with distinct keys and the same items have the same cells. *)
Lemma get_same_items (a b : row) (k : string) :
  distinct_keys a -> distinct_keys b ->
  (forall x, In x a <-> In x b) ->
  PyDict.get k a = PyDict.get k b.
Proof.
  intros Ha Hb Hsame.
  destruct (PyDict.get k a) as [v|] eqn:Ea.
  - apply get_In_keys in Ea as [_ Ea]. apply Hsame in Ea.
    symmetry. now apply get_of_item.
  - destruct (PyDict.get k b) as [v|] eqn:Eb; [|reflexivity].
    apply get_In_keys in Eb as [_ Eb]. apply Hsame in Eb.
    apply (get_of_item _ _ _ Ha) in Eb. congruence.
Qed.

(** [duplicate_of] is the equality of the cells of the two rows. *)
Lemma duplicate_of_same_cells (r r' : row) :
  duplicate_of r r' = true <-> same_cells r r'.
Proof.
  unfold duplicate_of, same_cells. rewrite andb_true_iff, !forallb_forall. split.
  - intros [H1 H2] k. destruct (PyDict.get k r) as [v|] eqn:Er.
    + pose proof (proj1 (get_In_keys _ _ _ Er)) as Hk.
      specialize (H1 k Hk). rewrite Er in H1.
      destruct (PyDict.get k r') as [v'|]; [exact H1 | discriminate H1].
    + destruct (PyDict.get k r') as [v'|] eqn:Er'; [|exact I].
      pose proof (proj1 (get_In_keys _ _ _ Er')) as Hk.
      apply H2, mem_str_In, get_present in Hk as [v Hv]. congruence.
  - intros H. split.
    + intros k Hk. apply get_present in Hk as [v Hv].
      specialize (H k). rewrite Hv in H. rewrite Hv.
      destruct (PyDict.get k r'); [exact H | contradiction].
    + intros k Hk. apply get_present in Hk as [v Hv].
      specialize (H k). rewrite Hv in H. apply mem_str_In.
      destruct (PyDict.get k r) as [w|] eqn:Er; [|contradiction].
      exact (proj1 (get_In_keys _ _ _ Er)).
Qed.

(** *** The sorted tuple of a row *)

Lemma insert_item_In (x y : string * value) (l : list (string * value)) :
  In y (insert_item x l) <-> y = x \/ In y l.
Proof.
  induction l as [|z l IH]; cbn [insert_item].
  - cbn. intuition.
  - destruct (String.ltb (fst z) (fst x)); cbn [In]; [rewrite IH|]; intuition.
Qed.

Lemma sorted_items_In (y : string * value) (r : row) :
  In y (sorted_items r) <-> In y r.
Proof.
  unfold sorted_items. induction r as [|x r IH]; cbn [fold_right]; [reflexivity|].
  rewrite insert_item_In, IH. cbn. intuition.
Qed.

Lemma insert_item_ordered (x : string * value) (l : list (string * value)) :
  StronglySorted key_before l ->
  (forall y, In y l -> fst y <> fst x) ->
  StronglySorted key_before (insert_item x l).
Proof.
  induction l as [|y l IH]; intros Hs Hne; cbn [insert_item].
  - repeat constructor.
  - apply StronglySorted_inv in Hs as [Hs Hy].
    destruct (String.ltb (fst y) (fst x)) eqn:Hlt.
    + constructor.
      * apply IH; [exact Hs|]. intros z Hz. apply Hne. now right.
      * apply Forall_forall. intros z Hz. apply insert_item_In in Hz as [->|Hz];
          [exact Hlt|]. rewrite Forall_forall in Hy. now apply Hy.
    + assert (Hxy : String.ltb (fst x) (fst y) = true).
      { apply string_ltb_total; [exact Hlt|]. apply String.eqb_neq.
        intros E. apply (Hne y); [now left | now symmetry]. }
      constructor; [now constructor|].
      constructor; [exact Hxy|].
      rewrite Forall_forall in Hy. apply Forall_forall. intros z Hz.
      exact (string_ltb_trans _ _ _ Hxy (Hy z Hz)).
Qed.

Lemma sorted_items_ordered (r : row) :
  distinct_keys r -> StronglySorted key_before (sorted_items r).
Proof.
  unfold distinct_keys, sorted_items.
  induction r as [|x r IH]; cbn [fold_right]; intros Hnd; [constructor|].
  cbn in Hnd. apply NoDup_cons_iff in Hnd as [Hx Hnd].
  apply insert_item_ordered; [now apply IH|].
  intros y Hy E. apply (proj1 (sorted_items_In y r)) in Hy. apply Hx. rewrite <- E.
  now apply in_map.
Qed.

(** Below the head of an ordered tuple, and at its key, the tail holds
    nothing. *)
Lemma ordered_tail_absent (x : string * value) (l : list (string * value)) (k : string) :
  StronglySorted key_before (x :: l) ->
  k = fst x \/ String.ltb k (fst x) = true ->
  ~ In k (PyDict.keys l).
Proof.
  intros Hs Hk Hin. apply StronglySorted_inv in Hs as [_ Hx].
  rewrite Forall_forall in Hx.
  apply in_map_iff in Hin as (y & <- & Hy). specialize (Hx y Hy).
  unfold key_before in Hx. destruct Hk as [E|Hlt].
  - rewrite E, string_ltb_irrefl in Hx. discriminate.
  - pose proof (string_ltb_trans _ _ _ Hlt Hx) as H.
    rewrite string_ltb_irrefl in H. discriminate.
Qed.

Lemma ordered_distinct_keys (l : list (string * value)) :
  StronglySorted key_before l -> distinct_keys l.
Proof.
  unfold distinct_keys. induction l as [|x l IH]; intros Hs; cbn; [constructor|].
  constructor.
  - apply (ordered_tail_absent x l (fst x) Hs). now left.
  - apply IH. now apply StronglySorted_inv in Hs.
Qed.

Lemma tuple_eqb_cells (a b : list (string * value)) :
  tuple_eqb a b = true -> same_cells a b.
Proof.
  revert b. induction a as [|[k1 v1] a IH]; intros [|[k2 v2] b];
    cbn [tuple_eqb]; try discriminate.
  - intros _ k. exact I.
  - intros H. apply andb_true_iff in H as [H Ht].
    apply andb_true_iff in H as [Hk Hv]. apply String.eqb_eq in Hk as <-.
    intros k. cbn [PyDict.get].
    destruct (String.eqb k1 k); [exact Hv | apply (IH _ Ht)].
Qed.

Lemma cells_tuple_eqb (a b : list (string * value)) :
  StronglySorted key_before a -> StronglySorted key_before b ->
  same_cells a b -> tuple_eqb a b = true.
Proof.
  revert b. induction a as [|[k1 v1] a IH]; intros [|[k2 v2] b] Ha Hb Hsame;
    cbn [tuple_eqb].
  - reflexivity.
  - specialize (Hsame k2). cbn [PyDict.get] in Hsame.
    rewrite String.eqb_refl in Hsame. contradiction.
  - specialize (Hsame k1). cbn [PyDict.get] in Hsame.
    rewrite String.eqb_refl in Hsame. contradiction.
  - assert (Hk : k1 = k2).
    { destruct (String.eqb_spec k1 k2) as [E|Hne]; [exact E|]. exfalso.
      destruct (String.ltb k1 k2) eqn:Hlt.
      - pose proof (Hsame k1) as H. cbn [PyDict.get] in H.
        rewrite String.eqb_refl in H.
        destruct (String.eqb_spec k2 k1) as [E|_]; [now apply Hne|].
        rewrite (get_absent k1 b) in H; [contradiction|].
        apply (ordered_tail_absent (k2, v2) b k1 Hb). now right.
      - assert (Hlt' : String.ltb k2 k1 = true)
          by (apply string_ltb_total; [exact Hlt|]; apply String.eqb_neq;
              intros E; now apply Hne).
        pose proof (Hsame k2) as H. cbn [PyDict.get] in H.
        rewrite String.eqb_refl in H.
        destruct (String.eqb_spec k1 k2) as [E|_]; [now apply Hne|].
        rewrite (get_absent k2 a) in H; [contradiction|].
        apply (ordered_tail_absent (k1, v1) a k2 Ha). now right. }
    subst k2. rewrite String.eqb_refl. cbn [andb].
    pose proof (Hsame k1) as Hv. cbn [PyDict.get] in Hv.
    rewrite String.eqb_refl in Hv. cbn [same_cell] in Hv. rewrite Hv. cbn [andb].
    apply IH.
    + now apply StronglySorted_inv in Ha.
    + now apply StronglySorted_inv in Hb.
    + intros k. destruct (String.eqb_spec k1 k) as [<-|Hne].
      * rewrite (get_absent k1 a), (get_absent k1 b); [exact I| |].
        -- apply (ordered_tail_absent (k1, v2) b k1 Hb). now left.
        -- apply (ordered_tail_absent (k1, v1) a k1 Ha). now left.
      * specialize (Hsame k). cbn [PyDict.get] in Hsame.
        destruct (String.eqb_spec k1 k) as [E|_]; [contradiction | exact Hsame].
Qed.

(** On rows with distinct keys the test of the loop is [duplicate_of]: the
    sorted tuples of two rows are equal exactly when the rows have the
    same columns and equal values. *)
Lemma same_tuple_duplicate_of (r r' : row) :
  distinct_keys r -> distinct_keys r' -> same_tuple r r' = duplicate_of r r'.
Proof.
  intros Hr Hr'.
  pose proof (sorted_items_ordered r Hr) as Hs.
  pose proof (sorted_items_ordered r' Hr') as Hs'.
  assert (Hget : forall k, PyDict.get k (sorted_items r) = PyDict.get k r).
  { intros k. apply get_same_items;
      [now apply ordered_distinct_keys | exact Hr | intros x; apply sorted_items_In]. }
  assert (Hget' : forall k, PyDict.get k (sorted_items r') = PyDict.get k r').
  { intros k. apply get_same_items;
      [now apply ordered_distinct_keys | exact Hr' | intros x; apply sorted_items_In]. }
  unfold same_tuple.
  destruct (duplicate_of r r') eqn:Hd.
  - apply cells_tuple_eqb; [exact Hs | exact Hs'|].
    apply duplicate_of_same_cells in Hd. intros k. rewrite Hget, Hget'. apply Hd.
  - destruct (tuple_eqb (sorted_items r) (sorted_items r')) eqn:Ht; [|reflexivity].
    apply tuple_eqb_cells in Ht.
    assert (H : duplicate_of r r' = true).
    { apply duplicate_of_same_cells. intros k. rewrite <- Hget, <- Hget'. apply Ht. }
    congruence.
Qed.

Lemma existsb_same_tuple (r : row) (earlier : list row) :
  existsb (same_tuple r) earlier = in_seen (sorted_items r) (map sorted_items earlier).
Proof.
  unfold in_seen, same_tuple.
  induction earlier as [|x l IH]; [reflexivity|]. cbn. now rewrite IH.
Qed.

Lemma existsb_duplicate_of (r : row) (earlier : list row) :
  distinct_keys r -> Forall distinct_keys earlier ->
  existsb (duplicate_of r) earlier = in_seen (sorted_items r) (map sorted_items earlier).
Proof.
  intros Hr Hall. rewrite <- existsb_same_tuple.
  induction Hall as [|x l Hx _ IH]; [reflexivity|].
  cbn [existsb]. now rewrite IH, (same_tuple_duplicate_of r x Hr Hx).
Qed.

(** The loop keeps a row exactly when no earlier row, kept or dropped, is
    a duplicate of it. *)
Lemma kept_rows_first_occurrences (rs earlier : list row)
      (seen : list (list (string * value))) :
  Forall distinct_keys rs -> Forall distinct_keys earlier ->
  (forall t, in_seen t seen = in_seen t (map sorted_items earlier)) ->
  kept_rows seen rs = first_occurrences earlier rs.
Proof.
  intros Hrs. revert earlier seen.
  induction Hrs as [|r rest Hr _ IH]; intros earlier seen Hearlier Hsame;
    [reflexivity|].
  cbn [kept_rows first_occurrences].
  rewrite (existsb_duplicate_of r earlier Hr Hearlier), <- Hsame.
  destruct (in_seen (sorted_items r) seen) eqn:Hseen.
  - apply IH; [now constructor|]. intros t. cbn [map]. unfold in_seen at 2.
    cbn [existsb]. fold (in_seen t (map sorted_items earlier)). rewrite <- Hsame.
    destruct (tuple_eqb t (sorted_items r)) eqn:Ht; [|reflexivity].
    cbn [orb]. exact (in_seen_trans _ _ _ Ht Hseen).
  - f_equal. apply IH; [now constructor|]. intros t. cbn [map]. unfold in_seen.
    cbn [existsb]. f_equal. apply Hsame.
Qed.

(** C9: removing duplicates twice gives what removing them once gives; and
    on rows with distinct keys, as dictionaries have, one pass keeps, in
    their original order, exactly the rows that have no duplicate before
    them, two rows being duplicates when they have the same columns and
    equal values in each. *)
Theorem remove_duplicates_idempotent :
  forall (rs : list row) (st st' : stats_t),
    fst (remove_duplicates (fst (remove_duplicates rs st)) st')
    = fst (remove_duplicates rs st)
    /\ (Forall distinct_keys rs ->
        fst (remove_duplicates rs st) = first_occurrences [] rs)
    /\ forall r r' : row, duplicate_of r r' = true <-> same_cells r r'.
Proof.
  intros rs st st'. unfold remove_duplicates.
  rewrite !dedup_loop_kept. cbn [app]. split; [|split].
  - now apply kept_rows_idempotent.
  - intros Hrs. now apply kept_rows_first_occurrences.
  - apply duplicate_of_same_cells.
Qed.

Lemma remove_duplicates_idempotent_witness :
  fst (remove_duplicates [[("a", VInt 1); ("b", VStr "x")];
                          [("b", VStr "x"); ("a", VFloat (PyFloat.of_Z 1))];
                          [("a", VInt 2); ("b", VStr "x")]] stats0)
  = [[("a", VInt 1); ("b", VStr "x")]; [("a", VInt 2); ("b", VStr "x")]].
Proof.
  rewrite (proj1 (proj2 (remove_duplicates_idempotent
             [[("a", VInt 1); ("b", VStr "x")];
              [("b", VStr "x"); ("a", VFloat (PyFloat.of_Z 1))];
              [("a", VInt 2); ("b", VStr "x")]] stats0 stats0))).
  - reflexivity.
  - repeat constructor; cbn; intuition discriminate.
Defined.

(** ** Type coercion *)





(** C4, the claim as first worded: a sequence of digits is not always
    coerced to an Integer. A run of 4301 digits is counted as an integer
    and, [int] refusing it, is returned as the Float infinity and counted
    as a float too; the superscript two passes the digit test and is
    returned as a String. *)
Theorem digit_sequence_not_integer :
  digit_sequence long_digit_run = true
  /\ _coerce long_digit_run stats0
     = (VFloat (S754_infinity false), mkStats 0 1 0 1 1 0 0 0)
  /\ digit_sequence superscript_two = true
  /\ _coerce superscript_two stats0 = (VStr superscript_two, mkStats 0 1 0 1 0 1 0 0).
Proof. repeat split; vm_compute; reflexivity. Qed.

(** * Further properties of the modelled code *)

Import Services Notions.

(** ** Dictionaries *)

Lemma get_set_same {V : Type} (k : string) (v : V) (d : PyDict.dict V) :
  PyDict.get k (PyDict.set k v d) = Some v.
Proof.
  induction d as [|[k' v'] d IH]; cbn.
  - now rewrite String.eqb_refl.
  - destruct (String.eqb k' k) eqn:E; cbn.
    + now rewrite String.eqb_refl.
    + now rewrite E.
Qed.

Lemma get_set_other {V : Type} (k k' : string) (v : V) (d : PyDict.dict V) :
  k' <> k -> PyDict.get k' (PyDict.set k v d) = PyDict.get k' d.
Proof.
  intros Hne. induction d as [|[k0 v0] d IH]; cbn.
  - destruct (String.eqb_spec k k'); [congruence | reflexivity].
  - destruct (String.eqb_spec k0 k) as [->|Hk]; cbn.
    + destruct (String.eqb_spec k k'); [congruence|].
      destruct (String.eqb_spec k k'); [congruence | reflexivity].
    + destruct (String.eqb k0 k'); [reflexivity | exact IH].
Qed.

Lemma keys_set {V : Type} (k : string) (v : V) (d : PyDict.dict V) :
  PyDict.keys (PyDict.set k v d)
  = if mem_str k (PyDict.keys d) then PyDict.keys d else (PyDict.keys d ++ [k])%list.
Proof.
  unfold PyDict.keys, mem_str.
  induction d as [|[k' v'] d IH]; cbn; [reflexivity|].
  rewrite (String.eqb_sym k k').
  destruct (String.eqb_spec k' k) as [->|Hk]; cbn; [reflexivity|].
  rewrite IH. now destruct (existsb (String.eqb k) (map fst d)).
Qed.

(** The names kept depend on the names already seen only through
    membership. *)
Lemma first_names_ext (s1 s2 l : list string) :
  (forall x, mem_str x s1 = mem_str x s2) -> first_names s1 l = first_names s2 l.
Proof.
  revert s1 s2. induction l as [|h l IH]; intros s1 s2 Hs; [reflexivity|].
  cbn [first_names]. rewrite (Hs h).
  destruct (mem_str h s2); [now apply IH|].
  f_equal. apply IH. intros x. unfold mem_str. cbn [existsb].
  fold (mem_str x s1) (mem_str x s2). now rewrite Hs.
Qed.

Lemma first_names_In (seen l : list string) (x : string) :
  In x (first_names seen l) <-> In x l /\ mem_str x seen = false.
Proof.
  revert seen. induction l as [|h l IH]; intros seen; cbn [first_names].
  - cbn. tauto.
  - destruct (mem_str h seen) eqn:Hh.
    + rewrite IH. cbn. split.
      * intros [H1 H2]. split; [now right | exact H2].
      * intros [[->|H1] H2]; [congruence | now split].
    + cbn. rewrite IH. unfold mem_str at 1. cbn [existsb].
      fold (mem_str x seen). split.
      * intros [->|[H1 H2]]; [split; [now left | exact Hh]|].
        apply orb_false_iff in H2 as [_ H2]. split; [now right | exact H2].
      * intros [[->|H1] H2]; [now left|].
        destruct (String.eqb_spec x h) as [->|Hne]; [now left|].
        right. split; [exact H1|]. now rewrite H2.
Qed.

Lemma first_names_NoDup (seen l : list string) : NoDup (first_names seen l).
Proof.
  revert seen. induction l as [|h l IH]; intros seen; cbn [first_names];
    [constructor|].
  destruct (mem_str h seen); [apply IH|].
  constructor; [|apply IH].
  rewrite first_names_In. intros [_ H].
  unfold mem_str in H. cbn [existsb] in H. now rewrite String.eqb_refl in H.
Qed.

(** ** Filter *)

Lemma filter_rows_spec (condition : row -> result bool) (rs kept : list row) :
  filter_rows condition rs = Ok kept ->
  (forall r, In r rs -> exists b, condition r = Ok b)
  /\ kept = List.filter (fun r => match condition r with
                                  | Ok true => true
                                  | _ => false
                                  end) rs.
Proof.
  revert kept. induction rs as [|r rs IH]; intros kept H; simpl in H.
  - injection H as <-. split; [intros r [] | reflexivity].
  - destruct (condition r) as [b|e] eqn:Hc; [|discriminate]. cbn [bind] in H.
    destruct (filter_rows condition rs) as [kept'|e]; [|discriminate].
    cbn [bind] in H. injection H as <-.
    destruct (IH kept' eq_refl) as [Hall ->]. split.
    + intros r' [<-|Hin]; [now exists b | now apply Hall].
    + cbn [List.filter]. rewrite Hc. now destruct b.
Qed.

(** X1: when [filter] returns a table, the condition was evaluated on
    every row without raising, the table holds exactly the rows on which
    it returned true, in their order, and it has no more rows than the
    input. *)
Theorem filter_keeps_accepted_rows :
  forall (T T' : DataFrame) (condition : row -> result bool),
    Dataframe.filter T condition = Ok T' ->
    (forall r, In r (rows T) -> exists b, condition r = Ok b)
    /\ rows T' = List.filter (fun r => match condition r with
                                       | Ok true => true
                                       | _ => false
                                       end) (rows T)
    /\ count T' <= count T.
Proof.
  intros T T' condition H. unfold Dataframe.filter in H.
  destruct (filter_rows condition (rows T)) as [kept|e] eqn:Hk; [|discriminate].
  cbn [bind] in H. injection H as <-.
  destruct (filter_rows_spec _ _ _ Hk) as [Hall Hkept].
  split; [exact Hall|]. split; [exact Hkept|].
  unfold count. cbn [rows __init__]. rewrite Hkept.
  apply Nat2Z.inj_le, filter_length_le.
Qed.

Lemma filter_keeps_accepted_rows_witness :
  count (__init__ [[("pop", VInt 90)]]) <= count (__init__ [[("pop", VInt 90)]; [("pop", VInt 70)]]).
Proof.
  apply (filter_keeps_accepted_rows
           (__init__ [[("pop", VInt 90)]; [("pop", VInt 70)]])
           (__init__ [[("pop", VInt 90)]])
           (fun r => py_ge (row_get r "pop") (VInt 80))).
  reflexivity.
Defined.

(** X2: a condition that raises on some row makes [filter] raise; no table
    of the rows accepted so far is returned. *)
Theorem filter_raises_with_condition :
  forall (T : DataFrame) (condition : row -> result bool) (r : row) (e : exn),
    In r (rows T) -> condition r = Err e ->
    exists e', Dataframe.filter T condition = Err e'.
Proof.
  intros T condition r e Hin He. unfold Dataframe.filter.
  destruct (filter_rows condition (rows T)) as [kept|e'] eqn:Hk; [|now exists e'].
  destruct (filter_rows_spec _ _ _ Hk) as [Hall _].
  destruct (Hall r Hin) as [b Hb]. congruence.
Qed.

Lemma filter_raises_with_condition_witness :
  exists e', Dataframe.filter (__init__ [[("pop", VStr "high")]])
                              (fun r => py_ge (row_get r "pop") (VInt 80)) = Err e'.
Proof.
  apply (filter_raises_with_condition
           (__init__ [[("pop", VStr "high")]])
           (fun r => py_ge (row_get r "pop") (VInt 80))
           [("pop", VStr "high")] TypeError).
  - left. reflexivity.
  - reflexivity.
Defined.

(** ** Projection *)

Lemma project_row_keys (cols : list string) (r acc r' : row) :
  project_row cols r acc = Ok r' ->
  PyDict.keys r' = (PyDict.keys acc ++ first_names (PyDict.keys acc) cols)%list.
Proof.
  revert acc. induction cols as [|c cs IH]; intros acc H; simpl in H.
  - injection H as <-. cbn. now rewrite app_nil_r.
  - destruct (PyDict.index r c) as [v|e]; [|discriminate]. cbn [bind] in H.
    rewrite (IH _ H), keys_set. cbn [first_names].
    destruct (mem_str c (PyDict.keys acc)) eqn:Hc; [reflexivity|].
    rewrite <- app_assoc. cbn [app]. do 2 f_equal.
    apply first_names_ext. intros x. rewrite mem_str_app.
    unfold mem_str. cbn [existsb]. rewrite orb_false_r. apply orb_comm.
Qed.

Lemma project_row_values (cols : list string) (r acc r' : row) :
  project_row cols r acc = Ok r' ->
  forall c, PyDict.get c r'
            = if mem_str c cols then PyDict.get c r else PyDict.get c acc.
Proof.
  revert acc. induction cols as [|c0 cs IH]; intros acc H c; simpl in H.
  - injection H as <-. reflexivity.
  - unfold PyDict.index in H.
    destruct (PyDict.get c0 r) as [v|] eqn:Hv; [|discriminate]. cbn [bind] in H.
    rewrite (IH _ H c). unfold mem_str. cbn [existsb]. fold (mem_str c cs).
    destruct (mem_str c cs); [now rewrite orb_true_r|].
    rewrite orb_false_r.
    destruct (String.eqb_spec c c0) as [->|Hne].
    + now rewrite get_set_same.
    + now apply get_set_other.
Qed.

Lemma mapM_Forall2_length {A B : Type} (f : A -> result B) (xs : list A) (ys : list B) :
  mapM f xs = Ok ys -> List.length ys = List.length xs.
Proof.
  intros H. apply mapM_Forall2 in H. symmetry. exact (Forall2_length H).
Qed.

Lemma check_columns_ok (cols have : list string) :
  check_columns cols have = Ok tt -> forall c, In c cols -> mem_str c have = true.
Proof.
  induction cols as [|c0 cs IH]; intros H c Hin; [contradiction|].
  simpl in H. destruct (mem_str c0 have) eqn:Hc; [|discriminate].
  destruct Hin as [<-|Hin]; [exact Hc | now apply IH].
Qed.


(** X3: when [project] returns a table, every requested column is in the
    schema, the table has as many rows as the input, and each of its rows
    has the requested columns as keys, each once and in the requested
    order, with the values of the row it comes from. *)
Theorem project_shape :
  forall (T T' : DataFrame) (cols : list string),
    project T cols = Ok T' ->
    (forall c, In c cols -> mem_str c (columns T) = true)
    /\ count T' = count T
    /\ Forall2 (fun r r' =>
                  PyDict.keys r' = first_names [] cols
                  /\ forall c, In c cols -> PyDict.get c r' = PyDict.get c r)
               (rows T) (rows T').
Proof.
  intros T T' cols H. unfold project in H.
  destruct (check_columns cols (columns T)) as [[]|e] eqn:Hc; [|discriminate].
  cbn [bind] in H.
  destruct (mapM (fun r => project_row cols r []) (rows T)) as [out|e] eqn:Hm;
    [|discriminate].
  cbn [bind] in H. injection H as <-.
  split; [exact (check_columns_ok _ _ Hc)|].
  split; [unfold count; cbn [rows __init__];
          now rewrite (mapM_Forall2_length _ _ _ Hm)|].
  cbn [rows __init__]. apply mapM_Forall2 in Hm.
  induction Hm as [|r r' rs out' Hr _ IH]; constructor; [|exact IH].
  split.
  - now rewrite (project_row_keys _ _ _ _ Hr).
  - intros c Hin. rewrite (project_row_values _ _ _ _ Hr c).
    apply mem_str_In in Hin. now rewrite Hin.
Qed.

Lemma project_shape_witness :
  count (__init__ [[("b", VInt 2)]]) = count (__init__ [[("a", VInt 1); ("b", VInt 2)]]).
Proof.
  apply (project_shape (__init__ [[("a", VInt 1); ("b", VInt 2)]])
                       (__init__ [[("b", VInt 2)]]) ["b"]).
  reflexivity.
Defined.



(** ** Ingestion *)

Lemma first_names_id (seen l : list string) :
  NoDup l -> (forall x, In x l -> mem_str x seen = false) -> first_names seen l = l.
Proof.
  revert seen. induction l as [|h l IH]; intros seen Hnd Hseen; [reflexivity|].
  cbn [first_names]. rewrite (Hseen h (or_introl eq_refl)).
  inversion Hnd as [|? ? Hh Hl]; subst. f_equal. apply IH; [exact Hl|].
  intros x Hx. unfold mem_str. cbn [existsb]. fold (mem_str x seen).
  rewrite (Hseen x (or_intror Hx)), orb_false_r.
  destruct (String.eqb_spec x h) as [->|]; [contradiction | reflexivity].
Qed.

Lemma build_row_keys (header parts : list string) (acc r : row) (st st' : stats_t) :
  List.length parts = List.length header ->
  build_row header parts acc st = (r, st') ->
  PyDict.keys r = (PyDict.keys acc ++ first_names (PyDict.keys acc) header)%list.
Proof.
  revert parts acc st. induction header as [|h hs IH]; intros parts acc st Hlen H.
  - destruct parts; [|discriminate]. cbn in H. injection H as <- _.
    cbn. now rewrite app_nil_r.
  - destruct parts as [|v vs]; [discriminate|].
    cbn [build_row] in H. destruct (_coerce v st) as [x st1].
    injection Hlen as Hlen.
    rewrite (IH _ _ _ Hlen H), keys_set. cbn [first_names].
    destruct (mem_str h (PyDict.keys acc)) eqn:Hh; [reflexivity|].
    rewrite <- app_assoc. cbn [app]. do 2 f_equal.
    apply first_names_ext. intros y. rewrite mem_str_app.
    unfold mem_str. cbn [existsb]. rewrite orb_false_r. apply orb_comm.
Qed.

Lemma read_lines_rows (header lines : list string) (delimiter : string)
      (rs : list row) (st : stats_t) (r : row) :
  In r (fst (read_lines header lines delimiter rs st)) ->
  In r rs \/ PyDict.keys r = first_names [] header.
Proof.
  revert rs st. induction lines as [|line rest IH]; intros rs st H;
    cbn [read_lines] in H; [now left|].
  destruct (Nat.eqb_spec (List.length (_split_csv_line (PyStr.rstrip_nl line) delimiter))
                         (List.length header)) as [Hlen|Hlen]; cbn [negb] in H.
  - destruct (build_row header _ [] st) as [r0 st1] eqn:Hb.
    destruct (IH _ _ H) as [Hin|Hk]; [|now right].
    apply in_app_or in Hin as [Hin|[<-|[]]]; [now left|].
    right. exact (build_row_keys _ _ _ _ _ _ Hlen Hb).
  - exact (IH _ _ H).
Qed.

(** X5: every row [read_csv] returns has the header names as its keys,
    each once and in header order; when the header names are distinct the
    keys of every row are the header itself. *)
Theorem read_csv_rows_carry_header :
  forall (header_line : string) (lines : list string) (delimiter : string)
         (st : stats_t) (r : row),
    In r (fst (read_csv (header_line :: lines) delimiter st)) ->
    let header := _split_csv_line (PyStr.rstrip_nl header_line) delimiter in
    PyDict.keys r = first_names [] header
    /\ NoDup (PyDict.keys r)
    /\ (forall h, In h (PyDict.keys r) <-> In h header)
    /\ (NoDup header -> PyDict.keys r = header).
Proof.
  intros header_line lines delimiter st r H header.
  unfold read_csv in H. destruct (PyStr.nonempty header_line); cbn [negb] in H;
    [|contradiction].
  apply read_lines_rows in H as [[]|Hk]. fold header in Hk.
  split; [exact Hk|]. rewrite Hk.
  split; [apply first_names_NoDup|].
  split.
  - intros h. rewrite first_names_In. cbn. tauto.
  - intros Hnd. apply first_names_id; [exact Hnd | reflexivity].
Qed.

Lemma read_csv_rows_carry_header_witness :
  PyDict.keys [("a", VInt 1); ("b", VNone)] = ["a"; "b"].
Proof.
  apply (read_csv_rows_carry_header ("a,b" ++ nl) [("1," ++ nl)%string] "," stats0
                                    [("a", VInt 1); ("b", VNone)]).
  - left. reflexivity.
  - repeat constructor; cbn; intuition discriminate.
Defined.








(** ** What duplicate removal leaves *)

Lemma kept_rows_not_seen (seen : list (list (string * value))) (rs : list row) (x : row) :
  In x (kept_rows seen rs) -> in_seen (sorted_items x) seen = false.
Proof.
  revert seen. induction rs as [|r rest IH]; intros seen H; [contradiction|].
  cbn [kept_rows] in H.
  destruct (in_seen (sorted_items r) seen) eqn:Hr; [now apply IH|].
  destruct H as [<-|H]; [exact Hr|].
  apply IH in H. unfold in_seen in H. cbn [existsb] in H.
  now apply orb_false_iff in H as [_ H].
Qed.

Lemma kept_rows_pairwise (seen : list (list (string * value))) (rs : list row) :
  StronglySorted (fun a b => same_tuple b a = false) (kept_rows seen rs).
Proof.
  revert seen. induction rs as [|r rest IH]; intros seen; cbn [kept_rows];
    [constructor|].
  destruct (in_seen (sorted_items r) seen); [apply IH|].
  constructor; [apply IH|].
  apply Forall_forall. intros b Hb. apply kept_rows_not_seen in Hb.
  unfold in_seen in Hb. cbn [existsb] in Hb.
  now apply orb_false_iff in Hb as [Hb _].
Qed.

Lemma kept_rows_cover (seen : list (list (string * value))) (rs : list row) (r : row) :
  In r rs ->
  In r (kept_rows seen rs)
  \/ (exists r', In r' (kept_rows seen rs) /\ same_tuple r r' = true)
  \/ in_seen (sorted_items r) seen = true.
Proof.
  revert seen. induction rs as [|r0 rest IH]; intros seen Hin; [contradiction|].
  cbn [kept_rows].
  destruct (in_seen (sorted_items r0) seen) eqn:Hr0.
  - destruct Hin as [<-|Hin]; [now right; right | now apply IH].
  - destruct Hin as [<-|Hin]; [left; now left|].
    destruct (IH (sorted_items r0 :: seen) Hin) as [H|[(r' & Hr' & Hd)|H]].
    + left. now right.
    + right. left. exists r'. split; [now right | exact Hd].
    + unfold in_seen in H. cbn [existsb] in H.
      apply orb_true_iff in H as [H|H].
      * right. left. exists r0. split; [now left | exact H].
      * right. right. exact H.
Qed.

Lemma kept_rows_from (seen : list (list (string * value))) (rs : list row) (x : row) :
  In x (kept_rows seen rs) -> In x rs.
Proof.
  revert seen. induction rs as [|r rest IH]; intros seen H; [contradiction|].
  cbn [kept_rows] in H. destruct (in_seen (sorted_items r) seen).
  - right. now apply (IH seen).
  - destruct H as [<-|H]; [now left | right; now apply (IH _ H)].
Qed.

Lemma StronglySorted_among {A : Type} (R R' : A -> A -> Prop) (l : list A) :
  StronglySorted R l ->
  (forall a b, In a l -> In b l -> R a b -> R' a b) ->
  StronglySorted R' l.
Proof.
  induction 1 as [|a l Hs IH Ha]; intros Himp; [constructor|].
  constructor.
  - apply IH. intros x y Hx Hy. apply Himp; now right.
  - rewrite Forall_forall in *. intros b Hb.
    apply Himp; [now left | now right | now apply Ha].
Qed.

(** X7: on rows with distinct keys, as dictionaries have, what
    [remove_duplicates] returns is made of input rows, none of which is a
    duplicate of a row before it, and every input row is either returned
    or a duplicate of a returned row; two rows are duplicates when they
    have the same columns and equal values in each, so that a row holding
    1 and a row holding 1.0 are. *)
Theorem remove_duplicates_complete_and_distinct :
  forall (rs : list row) (st : stats_t) (r : row),
    Forall distinct_keys rs ->
    In r rs ->
    (forall x, In x (fst (remove_duplicates rs st)) -> In x rs)
    /\ StronglySorted (fun a b => duplicate_of b a = false)
                      (fst (remove_duplicates rs st))
    /\ (In r (fst (remove_duplicates rs st))
        \/ exists r', In r' (fst (remove_duplicates rs st)) /\ duplicate_of r r' = true).
Proof.
  intros rs st r Hall Hin. unfold remove_duplicates. rewrite dedup_loop_kept.
  cbn [app]. rewrite Forall_forall in Hall.
  split; [intros x; apply kept_rows_from|]. split.
  - apply (StronglySorted_among _ _ _ (kept_rows_pairwise [] rs)).
    intros a b Ha Hb H. cbv beta in *. rewrite <- same_tuple_duplicate_of; [exact H| |].
    + apply Hall. exact (kept_rows_from _ _ _ Hb).
    + apply Hall. exact (kept_rows_from _ _ _ Ha).
  - destruct (kept_rows_cover [] rs r Hin) as [H|[(r' & Hr' & Hd)|H]];
      [now left | | discriminate H].
    right. exists r'. split; [exact Hr'|].
    rewrite <- same_tuple_duplicate_of; [exact Hd | now apply Hall|].
    apply Hall. exact (kept_rows_from _ _ _ Hr').
Qed.

Lemma remove_duplicates_complete_and_distinct_witness :
  fst (remove_duplicates [[("a", VInt 1)]; [("a", VFloat (PyFloat.of_Z 1))]] stats0)
  = [[("a", VInt 1)]]
  /\ exists r', In r' (fst (remove_duplicates
                              [[("a", VInt 1)]; [("a", VFloat (PyFloat.of_Z 1))]] stats0))
                /\ duplicate_of [("a", VFloat (PyFloat.of_Z 1))] r' = true.
Proof.
  split; [reflexivity|].
  destruct (remove_duplicates_complete_and_distinct
              [[("a", VInt 1)]; [("a", VFloat (PyFloat.of_Z 1))]] stats0
              [("a", VFloat (PyFloat.of_Z 1))]) as (_ & _ & [H|H]).
  - repeat constructor; cbn; intuition discriminate.
  - right. left. reflexivity.
  - destruct H as [H|[]]. discriminate H.
  - exact H.
Defined.

Lemma dedup_loop_counts (rs : list row) (seen : list (list (string * value)))
      (unique_rows : list row) (st : stats_t) :
  let st' := snd (dedup_loop rs seen unique_rows st) in
  duplicates_removed st'
  = duplicates_removed st
    + (Z.of_nat (List.length rs) - Z.of_nat (List.length (kept_rows seen rs)))
  /\ (List.length (kept_rows seen rs) <= List.length rs)%nat
  /\ total_rows st' = total_rows st /\ total_fields st' = total_fields st
  /\ num_nulls st' = num_nulls st /\ num_ints st' = num_ints st
  /\ num_floats st' = num_floats st /\ num_strings st' = num_strings st
  /\ malformed_rows st' = malformed_rows st.
Proof.
  revert seen unique_rows st.
  induction rs as [|r rest IH]; intros seen unique_rows st; cbn [dedup_loop kept_rows].
  - cbn. repeat split; lia.
  - destruct (in_seen (sorted_items r) seen); cbn [negb].
    + destruct (IH seen unique_rows (bump_duplicates_removed st))
        as (H1 & H2 & H3 & H4 & H5 & H6 & H7 & H8 & H9).
      cbn zeta in *. rewrite H1, H3, H4, H5, H6, H7, H8, H9.
      cbn [List.length]. rewrite Nat2Z.inj_succ.
      destruct st; cbn. repeat split; lia.
    + destruct (IH (sorted_items r :: seen) (unique_rows ++ [r])%list st)
        as (H1 & H2 & H3 & H4 & H5 & H6 & H7 & H8 & H9).
      cbn zeta in *. rewrite H1. cbn [List.length]. rewrite !Nat2Z.inj_succ.
      repeat split; try assumption; lia.
Qed.

(** X8: [remove_duplicates] adds to [duplicates_removed] the number of rows
    it drops, the length of the input less the length of the output, and
    changes no other counter: the row, field, null, integer, float, string
    and malformed-row counters are each left as they were. *)
Theorem remove_duplicates_counts :
  forall (rs : list row) (st : stats_t),
    let out := remove_duplicates rs st in
    (List.length (fst out) <= List.length rs)%nat
    /\ duplicates_removed (snd out)
       = duplicates_removed st
         + (Z.of_nat (List.length rs) - Z.of_nat (List.length (fst out)))
    /\ total_rows (snd out) = total_rows st
    /\ total_fields (snd out) = total_fields st
    /\ num_nulls (snd out) = num_nulls st
    /\ num_ints (snd out) = num_ints st
    /\ num_floats (snd out) = num_floats st
    /\ num_strings (snd out) = num_strings st
    /\ malformed_rows (snd out) = malformed_rows st.
Proof.
  intros rs st out. subst out. unfold remove_duplicates.
  rewrite dedup_loop_kept. cbn [app].
  destruct (dedup_loop_counts rs [] [] st)
    as (H1 & H2 & H3 & H4 & H5 & H6 & H7 & H8 & H9).
  cbn zeta in *. repeat split; assumption.
Qed.

(** ** Tokenizer: field counts and the way back from written lines *)

Lemma split_loop_length_ge (delimiter : string) (n : nat) :
  forall (line : string) (fields : list string) (cur : string) (in_quotes : bool),
    (String.length line <= n)%nat ->
    (List.length fields < List.length (split_loop delimiter line fields cur in_quotes))%nat.
Proof.
  induction n as [|n IH]; intros line fields cur in_quotes Hlen.
  - destruct line; [|cbn in Hlen; lia]. cbn. rewrite length_app. cbn. lia.
  - destruct line as [|ch rest]; [cbn; rewrite length_app; cbn; lia|].
    cbn in Hlen. cbn [split_loop].
    destruct (Ascii.eqb ch dquote).
    + destruct rest as [|ch2 rest2]; [apply IH; cbn; lia|].
      destruct (in_quotes && Ascii.eqb ch2 dquote); apply IH; cbn in *; lia.
    + destruct (String.eqb (String ch EmptyString) delimiter && negb in_quotes).
      * eapply Nat.lt_trans; [|apply IH; lia]. rewrite length_app. cbn. lia.
      * destruct (Ascii.eqb ch newline && negb in_quotes); apply IH; lia.
Qed.

(** X9: the tokenizer never returns an empty list: every line, whatever
    its quotes and whatever the delimiter, gives at least one field. *)
Theorem split_csv_line_never_empty :
  forall (line delimiter : string),
    (1 <= List.length (_split_csv_line line delimiter))%nat.
Proof.
  intros line delimiter. unfold _split_csv_line.
  pose proof (split_loop_length_ge delimiter (String.length line) line []
                                   EmptyString false (Nat.le_refl _)) as H.
  cbn [List.length] in H. lia.
Qed.

Lemma split_loop_count (d : ascii) (line : string) (fields : list string) (cur : string) :
  d <> dquote ->
  PyStr.contains dquote line = false ->
  List.length (split_loop (String d EmptyString) line fields cur false)
  = (List.length fields + 1 + count_char d line)%nat.
Proof.
  intros Hd. revert fields cur.
  induction line as [|ch rest IH]; intros fields cur Hq.
  - cbn. rewrite length_app. cbn. lia.
  - cbn in Hq. apply orb_false_iff in Hq as [Hch Hrest].
    cbn [split_loop count_char]. rewrite Hch. cbn [negb]. rewrite !andb_true_r.
    destruct (Ascii.eqb_spec ch d) as [->|Hne].
    + rewrite String.eqb_refl. rewrite IH by exact Hrest.
      rewrite length_app. cbn. lia.
    + assert (Hs : String.eqb (String ch EmptyString) (String d EmptyString) = false).
      { apply String.eqb_neq. congruence. }
      rewrite Hs. destruct (Ascii.eqb ch newline); now rewrite IH.
Qed.

(** X10: on a line without quote characters the number of fields is one
    more than the number of delimiter characters, for any one-character
    delimiter other than the quote. *)
Theorem split_csv_line_field_count :
  forall (d : ascii) (line : string),
    d <> dquote ->
    PyStr.contains dquote line = false ->
    List.length (_split_csv_line line (String d EmptyString)) = S (count_char d line).
Proof.
  intros d line Hd Hq. unfold _split_csv_line.
  rewrite split_loop_count by assumption. cbn. lia.
Qed.

Lemma split_csv_line_field_count_witness :
  List.length (_split_csv_line "a,,b" ",") = 3%nat.
Proof.
  apply (split_csv_line_field_count ","%char "a,,b"); [discriminate | reflexivity].
Defined.

Lemma append_assoc_str (a b c : string) : ((a ++ b) ++ c)%string = (a ++ b ++ c)%string.
Proof. induction a as [|x a IH]; cbn; [reflexivity | now rewrite IH]. Qed.

(** A text without comma, quote or newline is read as content. *)
Lemma split_loop_plain (s rest : string) (fields : list string) (cur : string) :
  PyStr.contains ","%char s = false ->
  PyStr.contains dquote s = false ->
  PyStr.contains newline s = false ->
  split_loop "," (s ++ rest) fields cur false
  = split_loop "," rest fields (cur ++ s) false.
Proof.
  revert cur. induction s as [|c s IH]; intros cur Hc Hq Hn.
  - cbn. now rewrite append_empty_r.
  - cbn in Hc, Hq, Hn.
    apply orb_false_iff in Hc as [Hc Hc'].
    apply orb_false_iff in Hq as [Hq Hq'].
    apply orb_false_iff in Hn as [Hn Hn'].
    cbn [append split_loop]. rewrite Hq, Hn. cbn [andb negb].
    assert (Hs : String.eqb (String c EmptyString) "," = false).
    { apply String.eqb_neq. intros E. injection E as ->. discriminate Hc. }
    rewrite Hs. cbn [andb]. rewrite IH by assumption. now rewrite push_append.
Qed.

(** Inside quotes, the doubled text of [s] and the closing quote are read
    as [s], when what follows is not a quote. *)
Lemma split_loop_in_quotes (s rest : string) (fields : list string) (cur : string) :
  match rest with
  | String c _ => Ascii.eqb c dquote = false
  | EmptyString => True
  end ->
  split_loop "," (UtilsIo.double_quotes s ++ String dquote rest) fields cur true
  = split_loop "," rest fields (cur ++ s) false.
Proof.
  intros Hrest. revert cur. induction s as [|c s IH]; intros cur.
  - cbn [UtilsIo.double_quotes append split_loop]. rewrite Ascii.eqb_refl.
    rewrite append_empty_r.
    destruct rest as [|c2 rest2]; [reflexivity|]. now rewrite Hrest.
  - cbn [UtilsIo.double_quotes].
    destruct (Ascii.eqb_spec c dquote) as [->|Hne].
    + cbn [append split_loop]. rewrite Ascii.eqb_refl. cbn [andb].
      rewrite IH. now rewrite push_append.
    + apply Ascii.eqb_neq in Hne.
      cbn [append split_loop]. rewrite Hne. cbn [negb].
      rewrite !andb_false_r. rewrite IH. now rewrite push_append.
Qed.

(** One written cell, followed by a comma, a newline or nothing, is read
    back as its text. *)
Lemma split_loop_cell (v rest : string) (fields : list string) (cur : string) :
  negb (PyStr.contains newline v) || PyStr.contains ","%char v
  || PyStr.contains dquote v = true ->
  match rest with
  | String c _ => Ascii.eqb c dquote = false
  | EmptyString => True
  end ->
  split_loop "," (UtilsIo.quote_cell v ++ rest) fields cur false
  = split_loop "," rest fields (cur ++ v) false.
Proof.
  intros Hv Hrest. unfold UtilsIo.quote_cell.
  destruct (PyStr.contains ","%char v || PyStr.contains dquote v) eqn:Hq.
  - rewrite append_assoc_str.
    change (String dquote (UtilsIo.double_quotes v) ++ String dquote EmptyString ++ rest)%string
      with (String dquote (UtilsIo.double_quotes v ++ String dquote rest)).
    cbn [split_loop]. rewrite Ascii.eqb_refl. cbn [andb negb].
    assert (Hopen : forall t, match t with
                              | String _ _ => split_loop "," t fields cur true
                              | EmptyString => split_loop "," t fields cur true
                              end = split_loop "," t fields cur true)
      by (intros t; now destruct t).
    rewrite Hopen. now apply split_loop_in_quotes.
  - apply orb_false_iff in Hq as [Hc Hd].
    rewrite Hc, Hd, !orb_false_r in Hv. apply negb_true_iff in Hv.
    now apply split_loop_plain.
Qed.

Lemma split_loop_comma (rest : string) (fields : list string) (cur : string) :
  split_loop "," (String ","%char rest) fields cur false
  = split_loop "," rest (fields ++ [cur])%list EmptyString false.
Proof. reflexivity. Qed.

Lemma concat_cons2 (sep x y : string) (l : list string) :
  String.concat sep (x :: y :: l) = (x ++ sep ++ String.concat sep (y :: l))%string.
Proof. reflexivity. Qed.

Lemma split_loop_cells (vals : list string) (v tail : string) (fields : list string) :
  forallb (fun v => negb (PyStr.contains newline v) || PyStr.contains ","%char v
                    || PyStr.contains dquote v) (v :: vals) = true ->
  (tail = EmptyString \/ tail = String newline EmptyString) ->
  split_loop "," (String.concat "," (map UtilsIo.quote_cell (v :: vals)) ++ tail)
             fields EmptyString false
  = (fields ++ v :: vals)%list.
Proof.
  intros Hall Htail. revert v fields Hall.
  induction vals as [|v2 vals IH]; intros v fields Hall;
    cbn [forallb] in Hall; apply andb_true_iff in Hall as [Hv Hrest].
  - cbn [map String.concat]. rewrite split_loop_cell.
    + destruct Htail as [->| ->]; reflexivity.
    + exact Hv.
    + destruct Htail as [->| ->]; [exact I | reflexivity].
  - cbn [map]. rewrite concat_cons2.
    change (UtilsIo.quote_cell v2 :: map UtilsIo.quote_cell vals)
      with (map UtilsIo.quote_cell (v2 :: vals)).
    rewrite !append_assoc_str. rewrite split_loop_cell; [|exact Hv | reflexivity].
    cbn [append]. rewrite split_loop_comma.
    rewrite IH by exact Hrest. now rewrite <- app_assoc.
Qed.

(** X11: the cells [to_csv_string] writes for a row are read back by the
    tokenizer: for a non-empty list of cell texts in which every text with
    a newline also has a comma or a quote (so that it is written quoted),
    the written line, with or without its line end, splits on the comma
    into the texts themselves. *)
Theorem written_line_reads_back :
  forall (v : string) (vals : list string),
    forallb (fun v => negb (PyStr.contains newline v) || PyStr.contains ","%char v
                      || PyStr.contains dquote v) (v :: vals) = true ->
    _split_csv_line (UtilsIo.write_line (map UtilsIo.quote_cell (v :: vals))) ","
    = v :: vals
    /\ _split_csv_line (String.concat "," (map UtilsIo.quote_cell (v :: vals))) ","
       = v :: vals.
Proof.
  intros v vals Hall. unfold _split_csv_line, UtilsIo.write_line. split.
  - now rewrite split_loop_cells; [| | right].
  - rewrite <- (append_empty_r (String.concat _ _)).
    now rewrite split_loop_cells; [| | left].
Qed.

Lemma written_line_reads_back_witness :
  _split_csv_line (UtilsIo.write_line (map UtilsIo.quote_cell ["Hello, World"; "x"])) ","
  = ["Hello, World"; "x"].
Proof.
  apply (written_line_reads_back "Hello, World" ["x"]). reflexivity.
Defined.

(** ** Selector parsing *)






Lemma split_on_length (ch : ascii) (s : string) :
  List.length (PyStr.split_on ch s) = S (count_char ch s).
Proof.
  induction s as [|c r IH]; [reflexivity|].
  cbn [PyStr.split_on count_char].
  destruct (Ascii.eqb c ch); [cbn; now rewrite IH|].
  destruct (PyStr.split_on ch r); [discriminate IH | exact IH].
Qed.

(** X14: [parse_range_or_any] returns a range only for a text that, once
    trimmed, holds exactly one ["-"], so a negative bound is never read;
    and in a range it returns the upper bound is not below the lower one.
    An unset, empty or [ANY] selection gives no range. *)
Theorem parse_range_shape :
  forall (s : string) (low high : PyFloat.float),
    parse_range_or_any (Some s) = Some (low, high) ->
    count_char "-"%char (PyStr.strip s) = 1%nat
    /\ PyFloat.ltb high low = false
    /\ parse_range_or_any None = None
    /\ parse_range_or_any (Some EmptyString) = None
    /\ parse_range_or_any (Some "ANY") = None.
Proof.
  intros s low high H. unfold parse_range_or_any in H.
  destruct (negb (PyStr.nonempty s)); [discriminate|].
  destruct (String.eqb _ "any"); [discriminate|].
  pose proof (split_on_length "-"%char (PyStr.strip s)) as Hlen.
  destruct (PyStr.split_on "-"%char (PyStr.strip s)) as [|a [|b [|c l]]];
    try discriminate.
  cbn in Hlen. injection Hlen as Hlen.
  destruct (PyFloat.py_float (PyStr.strip a)) as [lo|]; [|discriminate].
  destruct (PyFloat.py_float (PyStr.strip b)) as [hi|]; [|discriminate].
  destruct (PyFloat.ltb hi lo) eqn:Hlt; [discriminate|].
  injection H as <- <-.
  repeat split; [now symmetry | exact Hlt].
Qed.

Lemma parse_range_shape_witness :
  count_char "-"%char (PyStr.strip "90-100") = 1%nat.
Proof.
  apply (parse_range_shape "90-100" f90 f100). vm_compute. reflexivity.
Defined.



(** ** Popularity options *)

Lemma In_range_from (start v : Z) (count : nat) :
  start <= v < start + Z.of_nat count -> In v (range_from start 1 count).
Proof.
  revert start. induction count as [|n IH]; intros start H; [cbn in H; lia|].
  cbn [range_from]. destruct (Z.eq_dec start v) as [->|Hne]; [now left|].
  right. apply IH. rewrite Nat2Z.inj_succ in H. lia.
Qed.

(** X15: the popularity options offered by [build_options] split the
    scale: for every integer popularity from 0 to 100, exactly one of the
    ten bucket labels, parsed by [parse_range_or_any] and compiled by
    [build_predicate], admits a row of that popularity (100 falls in the
    last bucket only, whose upper bound is inclusive), and the [ANY]
    option admits it as well. *)
Theorem popularity_options_partition :
  forall (v : Z),
    0 <= v <= 100 ->
    List.length (List.filter (fun label => admits_popularity label v) (List.tl pop_options))
    = 1%nat
    /\ admits_popularity "ANY" v = true.
Proof.
  intros v Hv.
  assert (Hall : forallb (fun v =>
                            Nat.eqb (List.length
                                       (List.filter (fun label => admits_popularity label v)
                                                    (List.tl pop_options))) 1
                            && admits_popularity "ANY" v)
                         (range_from 0 1 101) = true)
    by (vm_compute; reflexivity).
  rewrite forallb_forall in Hall.
  specialize (Hall v (In_range_from 0 v 101 ltac:(lia))).
  apply andb_true_iff in Hall as [H1 H2]. apply Nat.eqb_eq in H1. now split.
Qed.

Lemma popularity_options_partition_witness :
  List.length (List.filter (fun label => admits_popularity label 100) (List.tl pop_options))
  = 1%nat.
Proof.
  apply (popularity_options_partition 100). lia.
Defined.

(** ** The predicate as a conjunction *)

Lemma predicate_true_iff
      (pop : option range) (genre subgenre : option string)
      (dance energy tempo live : option range) (month year : option Z) (r : row) :
  build_predicate pop genre subgenre dance energy tempo live month year r = Ok true
  <-> range_rejects r "track_popularity" pop (top_pop pop) = Ok false
      /\ category_rejects r "playlist_genre" genre = false
      /\ category_rejects r "playlist_subgenre" subgenre = false
      /\ range_rejects r "danceability" dance (top_01 dance) = Ok false
      /\ range_rejects r "energy" energy (top_01 energy) = Ok false
      /\ range_rejects r "tempo" tempo true = Ok false
      /\ range_rejects r "liveness" live (top_01 live) = Ok false
      /\ date_check r month year = Ok true.
Proof.
  unfold build_predicate.
  destruct (range_rejects r "track_popularity" pop (top_pop pop)) as [[|]|e1];
    cbn [bind]; try (split; [discriminate | intros (H & _); discriminate H]).
  destruct (category_rejects r "playlist_genre" genre);
    try (split; [discriminate | intros (_ & H & _); discriminate H]).
  destruct (category_rejects r "playlist_subgenre" subgenre);
    try (split; [discriminate | intros (_ & _ & H & _); discriminate H]).
  destruct (range_rejects r "danceability" dance (top_01 dance)) as [[|]|e4];
    cbn [bind]; try (split; [discriminate | intros (_ & _ & _ & H & _); discriminate H]).
  destruct (range_rejects r "energy" energy (top_01 energy)) as [[|]|e5];
    cbn [bind];
    try (split; [discriminate | intros (_ & _ & _ & _ & H & _); discriminate H]).
  destruct (range_rejects r "tempo" tempo true) as [[|]|e6];
    cbn [bind];
    try (split; [discriminate | intros (_ & _ & _ & _ & _ & H & _); discriminate H]).
  destruct (range_rejects r "liveness" live (top_01 live)) as [[|]|e7];
    cbn [bind];
    try (split; [discriminate | intros (_ & _ & _ & _ & _ & _ & H & _); discriminate H]).
  tauto.
Qed.



(** ** Order of the sorted rows *)

Lemma xcompare_antisym (a b : PyNum.xnum) :
  PyNum.xcompare b a = option_map CompOpp (PyNum.xcompare a b).
Proof.
  destruct a as [|s1|m1 e1], b as [|s2|m2 e2]; cbn; try reflexivity.
  - now destruct s1, s2.
  - now destruct s1.
  - now destruct s2.
  - rewrite (Z.min_comm e2 e1). f_equal. apply Z.compare_antisym.
Qed.

Lemma xltb_asym (a b : PyNum.xnum) :
  PyNum.xltb a b = true -> PyNum.xltb b a = false.
Proof.
  unfold PyNum.xltb. rewrite (xcompare_antisym a b).
  destruct (PyNum.xcompare a b) as [[| |]|]; cbn; congruence.
Qed.

Lemma py_lt_asym (a b : value) : py_lt a b = Ok true -> py_lt b a = Ok false.
Proof.
  destruct a, b; cbn [py_lt]; try discriminate; intros H; injection H as H;
    f_equal; first [now apply xltb_asym | now apply string_ltb_asym].
Qed.

Lemma xnum_eqb_sym (a b : PyNum.xnum) : PyNum.xnum_eqb a b = PyNum.xnum_eqb b a.
Proof.
  destruct a as [|s1|m1 e1], b as [|s2|m2 e2]; cbn; try reflexivity.
  - now destruct s1, s2.
  - now rewrite (Z.eqb_sym m1 m2), (Z.eqb_sym e1 e2).
Qed.

Lemma py_eq_sym (a b : value) : py_eq a b = py_eq b a.
Proof.
  destruct a, b; cbn [py_eq]; try reflexivity;
    first [apply xnum_eqb_sym | apply String.eqb_sym].
Qed.

Lemma key_lt_asym (ka kb : bool * value) :
  key_lt ka kb = Ok true -> key_lt kb ka = Ok false.
Proof.
  unfold key_lt. destruct ka as [fa va], kb as [fb vb]. cbn [fst snd].
  destruct fa, fb; cbn [Bool.eqb negb andb]; try discriminate; try reflexivity;
    rewrite (py_eq_sym vb va); destruct (py_eq va vb); try discriminate;
    apply py_lt_asym.
Qed.

Lemma insert_keyed_in_order (x : (bool * value) * row) (l l' : list ((bool * value) * row)) :
  Sorted keys_in_order l -> insert_keyed x l = Ok l' -> Sorted keys_in_order l'.
Proof.
  revert l'. induction l as [|y rest IH]; intros l' Hs H; simpl in H.
  - injection H as <-. repeat constructor.
  - apply Sorted_inv in Hs as [Hrest Hy].
    destruct (key_lt (fst y) (fst x)) as [[|]|e] eqn:Hlt; cbn [bind] in H;
      try discriminate.
    + destruct (insert_keyed x rest) as [rest'|e] eqn:Hins; [|discriminate].
      cbn [bind] in H. injection H as <-.
      constructor; [now apply IH|].
      destruct rest as [|z rest2]; simpl in Hins.
      * injection Hins as <-. constructor. now apply key_lt_asym.
      * destruct (key_lt (fst z) (fst x)) as [[|]|e]; cbn [bind] in Hins;
          try discriminate.
        -- destruct (insert_keyed x rest2); [|discriminate]. cbn [bind] in Hins.
           injection Hins as <-. constructor. now inversion Hy.
        -- injection Hins as <-. constructor. now apply key_lt_asym.
    + injection H as <-. constructor; [now constructor|]. constructor. exact Hlt.
Qed.

Lemma sort_keyed_in_order (l l' : list ((bool * value) * row)) :
  sort_keyed l = Ok l' -> Sorted keys_in_order l'.
Proof.
  revert l'. induction l as [|x rest IH]; intros l' H; simpl in H.
  - injection H as <-. constructor.
  - destruct (sort_keyed rest) as [s|e]; [|discriminate]. cbn [bind] in H.
    eapply insert_keyed_in_order; [|exact H]. now apply IH.
Qed.

Lemma Sorted_adjacent {A : Type} (R : A -> A -> Prop) (l : list A) (a b : A) :
  Sorted R l -> adjacent l a b -> R a b.
Proof.
  intros Hs (l1 & l2 & ->). induction l1 as [|x l1 IH].
  - cbn in Hs. apply Sorted_inv in Hs as [_ Hhd]. now inversion Hhd.
  - apply IH. cbn in Hs. now apply Sorted_inv in Hs as [Hs _].
Qed.

Lemma adjacent_rev {A : Type} (l : list A) (a b : A) :
  adjacent (rev l) a b -> adjacent l b a.
Proof.
  intros (l1 & l2 & H). exists (rev l2), (rev l1).
  rewrite <- (rev_involutive l), H, rev_app_distr. cbn.
  now rewrite <- !app_assoc.
Qed.

Lemma adjacent_map {A B : Type} (f : A -> B) (l : list A) (a b : B) :
  adjacent (map f l) a b ->
  exists x y, adjacent l x y /\ f x = a /\ f y = b.
Proof.
  intros (l1 & l2 & H). revert l H. induction l1 as [|c l1 IH]; intros l H.
  - destruct l as [|x [|y l]]; try discriminate. cbn in H.
    injection H as Hx Hy Hl. exists x, y. split; [now exists [], l | now split].
  - destruct l as [|x l]; [discriminate|]. cbn in H. injection H as _ H.
    destruct (IH l H) as (x' & y' & (m1 & m2 & ->) & Hx & Hy).
    exists x', y'. split; [now exists (x :: m1), m2 | now split].
Qed.

Lemma keyed_ok_sort_key (col : string) (x : (bool * value) * row) :
  keyed_ok col x -> sort_key col (snd x) = Ok (fst x).
Proof.
  destruct x as [[f v] r]. unfold keyed_ok, flag, sort_key, PyDict.index.
  cbn [fst snd]. intros [-> ->]. reflexivity.
Qed.

Lemma adjacent_In {A : Type} (l : list A) (a b : A) :
  adjacent l a b -> In a l /\ In b l.
Proof.
  intros (l1 & l2 & ->). split; apply in_or_app; right; cbn; auto.
Qed.

(** X17: in the table [sort_by] returns, no row has a key below that of
    the row just before it when the sort is ascending, and no row has a key
    above that of the row just before it when the sort is descending; the
    key is the pair of the null flag and the value, as [sort_by] builds
    it. *)
Theorem sort_by_rows_in_order :
  forall (T T' : DataFrame) (col : string) (descending : bool) (a b : row),
    sort_by T col descending = Ok T' ->
    adjacent (rows T') a b ->
    if descending then key_not_below col b a else key_not_below col a b.
Proof.
  intros T T' col descending a b H Hadj. unfold sort_by in H.
  destruct (negb (mem_str col (columns T))); [discriminate|].
  destruct (sorted (rows T) col descending) as [out|e] eqn:Hs; [|discriminate].
  cbn [bind] in H. injection H as <-. cbn [rows __init__] in Hadj.
  unfold sorted in Hs.
  destruct (mapM _ (rows T)) as [keyed|e] eqn:Hkeyed; [|discriminate].
  cbn [bind] in Hs. apply keyed_rows in Hkeyed as [Hk _].
  assert (Hfinal : forall t x y,
             Forall (keyed_ok col) t -> Sorted keys_in_order t -> adjacent t x y ->
             key_not_below col (snd x) (snd y)).
  { intros t x y Hkt Hst Hxy.
    pose proof (Sorted_adjacent _ _ _ _ Hst Hxy) as Hord.
    apply adjacent_In in Hxy as [Hx Hy]. rewrite Forall_forall in Hkt.
    exists (fst x), (fst y).
    split; [apply keyed_ok_sort_key; now apply Hkt|].
    split; [apply keyed_ok_sort_key; now apply Hkt | exact Hord]. }
  destruct descending.
  - destruct (sort_keyed (rev keyed)) as [t|e] eqn:Hsort; [|discriminate].
    cbn [bind] in Hs. injection Hs as <-.
    apply adjacent_map in Hadj as (x & y & Hxy & <- & <-).
    apply adjacent_rev in Hxy.
    apply (Hfinal t y x); [|exact (sort_keyed_in_order _ _ Hsort) | exact Hxy].
    apply (Permutation_Forall (sort_keyed_perm _ _ Hsort)).
    apply (Permutation_Forall (Permutation_rev keyed) Hk).
  - destruct (sort_keyed keyed) as [t|e] eqn:Hsort; [|discriminate].
    cbn [bind] in Hs. injection Hs as <-.
    apply adjacent_map in Hadj as (x & y & Hxy & <- & <-).
    apply (Hfinal t x y); [|exact (sort_keyed_in_order _ _ Hsort) | exact Hxy].
    apply (Permutation_Forall (sort_keyed_perm _ _ Hsort) Hk).
Qed.

Lemma sort_by_rows_in_order_witness :
  key_not_below "a" [("a", VInt 1)] [("a", VInt 3)].
Proof.
  apply (sort_by_rows_in_order
           (__init__ [[("a", VInt 3)]; [("a", VNone)]; [("a", VInt 1)]])
           (__init__ [[("a", VInt 1)]; [("a", VInt 3)]; [("a", VNone)]])
           "a" false [("a", VInt 1)] [("a", VInt 3)]).
  - reflexivity.
  - exists [], [[("a", VNone)]]. reflexivity.
Defined.

(** ** Groups and their keys *)

Lemma agg_columns_keeps (agg_map : PyDict.dict string) (rs : list row)
      (acc out : row) (k : string) :
  agg_columns agg_map rs acc = Ok out ->
  ~ In k (map fst agg_map) ->
  PyDict.get k out = PyDict.get k acc.
Proof.
  revert acc. induction agg_map as [|[col func] rest IH]; intros acc H Hk;
    cbn [agg_columns] in H.
  - now injection H as <-.
  - cbn [map fst] in Hk.
    assert (Hne : k <> col) by (intros ->; apply Hk; now left).
    assert (Hrest : ~ In k (map fst rest)) by (intros Hin; apply Hk; now right).
    destruct (mapM (fun r => PyDict.index r col) rs) as [cells|e]; [|discriminate].
    cbn [bind] in H.
    destruct (List.filter is_number cells) as [|v vs].
    + rewrite (IH _ H Hrest). now apply get_set_other.
    + destruct (aggregate func (v :: vs)) as [x|e]; [|discriminate].
      cbn [bind] in H. rewrite (IH _ H Hrest). now apply get_set_other.
Qed.

Lemma groups_add_keys (key : value) (r : row) (groups : list (value * list row))
      (g : value * list row) :
  In g (groups_add key r groups) ->
  fst g = key \/ exists g0, In g0 groups /\ fst g0 = fst g.
Proof.
  induction groups as [|[k rs] rest IH]; simpl; intros Hg.
  - destruct Hg as [<-|[]]. now left.
  - destruct (py_eq k key).
    + destruct Hg as [<-|Hg].
      * right. exists (k, rs). split; [now left | reflexivity].
      * right. exists g. split; [now right | reflexivity].
    + destruct Hg as [<-|Hg].
      * right. exists (k, rs). split; [now left | reflexivity].
      * destruct (IH Hg) as [Hk|(g0 & Hg0 & Hf)]; [now left|].
        right. exists g0. split; [now right | exact Hf].
Qed.

Lemma groups_add_distinct (key : value) (r : row) (groups : list (value * list row)) :
  StronglySorted (fun a b => py_eq (fst a) (fst b) = false) groups ->
  StronglySorted (fun a b => py_eq (fst a) (fst b) = false) (groups_add key r groups).
Proof.
  induction groups as [|[k rs] rest IH]; intros Hs; simpl.
  - repeat constructor.
  - apply StronglySorted_inv in Hs as [Hrest Hk].
    destruct (py_eq k key) eqn:Hkey.
    + constructor; assumption.
    + constructor; [now apply IH|].
      apply Forall_forall. intros g Hg. cbn [fst].
      destruct (groups_add_keys _ _ _ _ Hg) as [->|(g0 & Hg0 & <-)]; [exact Hkey|].
      rewrite Forall_forall in Hk. exact (Hk g0 Hg0).
Qed.

Lemma groups_add_new_key (key : value) (r : row) (groups : list (value * list row)) :
  exists g, In g (groups_add key r groups) /\ In r (snd g)
            /\ (fst g = key \/ py_eq (fst g) key = true).
Proof.
  induction groups as [|[k rs] rest (g & Hg & Hr & Hk)]; simpl.
  - exists (key, [r]). split; [now left|]. split; [now left | now left].
  - destruct (py_eq k key) eqn:Hkey.
    + exists (k, (rs ++ [r])%list). split; [now left|].
      split; [cbn; apply in_or_app; right; now left | now right].
    + exists g. split; [now right | now split].
Qed.

Lemma groups_add_old_key (key : value) (r r' : row) (v : value)
      (groups : list (value * list row)) :
  (exists g, In g groups /\ In r' (snd g) /\ (fst g = v \/ py_eq (fst g) v = true)) ->
  exists g, In g (groups_add key r groups) /\ In r' (snd g)
            /\ (fst g = v \/ py_eq (fst g) v = true).
Proof.
  induction groups as [|[k rs] rest IH]; intros (g & Hg & Hr & Hk); [contradiction|].
  simpl. destruct (py_eq k key).
  - destruct Hg as [<-|Hg].
    + exists (k, (rs ++ [r])%list). split; [now left|].
      split; [cbn; apply in_or_app; now left | exact Hk].
    + exists g. split; [now right | now split].
  - destruct Hg as [<-|Hg].
    + exists (k, rs). split; [now left | now split].
    + destruct IH as (g' & Hg' & Hr' & Hk'); [now exists g|].
      exists g'. split; [now right | now split].
Qed.

Lemma groups_add_length (key : value) (r : row) (groups : list (value * list row)) :
  (List.length groups <= List.length (groups_add key r groups) <= S (List.length groups))%nat
  /\ groups_add key r groups <> [].
Proof.
  induction groups as [|[k rs] rest [IH _]]; simpl.
  - split; [lia | discriminate].
  - destruct (py_eq k key); cbn [List.length]; split; try lia; discriminate.
Qed.

Lemma build_groups_keys (rs : list row) (group_col : string)
      (groups G : list (value * list row)) :
  build_groups rs group_col groups = Ok G ->
  StronglySorted (fun a b => py_eq (fst a) (fst b) = false) groups ->
  StronglySorted (fun a b => py_eq (fst a) (fst b) = false) G
  /\ (List.length groups <= List.length G <= List.length groups + List.length rs)%nat
  /\ (rs <> [] -> G <> [])
  /\ forall r, In r rs ->
       exists v g, PyDict.get group_col r = Some v /\ In g G /\ In r (snd g)
                   /\ (fst g = v \/ py_eq (fst g) v = true).
Proof.
  revert groups G. induction rs as [|r0 rest IH]; intros groups G H Hs; simpl in H.
  - injection H as <-. repeat split; [exact Hs | lia | cbn; lia | congruence|].
    intros r [].
  - unfold PyDict.index in H.
    destruct (PyDict.get group_col r0) as [key|] eqn:Hkey; [|discriminate].
    cbn [bind] in H.
    destruct (IH _ _ H (groups_add_distinct key r0 groups Hs)) as (H1 & H2 & H3 & H4).
    destruct (groups_add_length key r0 groups) as [Hlen Hne].
    split; [exact H1|]. split; [cbn [List.length]; lia|].
    split.
    + intros _ ->. destruct (groups_add key r0 groups); [congruence|].
      cbn in H2. lia.
    + intros r [<-|Hin]; [|exact (H4 r Hin)].
      exists key.
      assert (Hcov : forall rs' gs G',
                 build_groups rs' group_col gs = Ok G' ->
                 (exists g, In g gs /\ In r0 (snd g)
                            /\ (fst g = key \/ py_eq (fst g) key = true)) ->
                 exists g, In g G' /\ In r0 (snd g)
                           /\ (fst g = key \/ py_eq (fst g) key = true)).
      { clear. induction rs' as [|r1 rs' IH']; intros gs G' HG Hex; simpl in HG.
        - now injection HG as <-.
        - destruct (PyDict.index r1 group_col) as [k1|]; [|discriminate].
          cbn [bind] in HG. apply (IH' _ _ HG). now apply groups_add_old_key. }
      destruct (Hcov _ _ _ H (groups_add_new_key key r0 groups)) as (g & Hg & Hr & Hk).
      exists g. repeat split; assumption.
Qed.

(** X18: when [group_by] returns a table and the key column is not itself
    aggregated, the table has one row per group, at most as many rows as
    the input and none only if the input has none; no two of its rows have
    equal keys, and the key of every input row is the key of a result row
    or equal to it as a value (as 1 and 1.0 are). *)
Theorem group_by_keys :
  forall (T T' : DataFrame) (group_col : string) (agg_map : PyDict.dict string),
    group_by T group_col agg_map = Ok T' ->
    ~ In group_col (map fst agg_map) ->
    count T' <= count T
    /\ (rows T' = [] <-> rows T = [])
    /\ StronglySorted
         (fun a b => exists ka kb, PyDict.get group_col a = Some ka
                                   /\ PyDict.get group_col b = Some kb
                                   /\ py_eq ka kb = false) (rows T')
    /\ forall r, In r (rows T) ->
         exists v r' k, PyDict.get group_col r = Some v /\ In r' (rows T')
                        /\ PyDict.get group_col r' = Some k
                        /\ (k = v \/ py_eq k v = true).
Proof.
  intros T T' group_col agg_map H Hcol. unfold group_by in H.
  destruct (build_groups (rows T) group_col []) as [G|e] eqn:HG; [|discriminate].
  cbn [bind] in H.
  destruct (mapM _ G) as [out|e] eqn:Hout; [|discriminate].
  cbn [bind] in H. injection H as <-. cbn [rows __init__].
  destruct (build_groups_keys _ _ _ _ HG (SSorted_nil _)) as (Hd & Hlen & Hne & Hcov).
  apply mapM_Forall2 in Hout.
  assert (Hkey : Forall2 (fun g r' => PyDict.get group_col r' = Some (fst g)) G out).
  { clear - Hout Hcol. induction Hout as [|g r' G' out' Hg _ IH].
    - constructor.
    - constructor; [|exact IH].
      rewrite (agg_columns_keeps _ _ _ _ _ Hg Hcol). cbn.
      now rewrite String.eqb_refl. }
  pose proof (Forall2_length Hkey) as Hl.
  split.
  { unfold count. cbn [rows __init__]. apply Nat2Z.inj_le.
    pose proof (proj2 Hlen) as Hle. cbn in Hle. rewrite Hl in Hle. exact Hle. }
  split.
  { split.
    - intros ->. destruct (rows T) as [|r0 rs]; [reflexivity|].
      destruct G; [exfalso; now apply Hne | discriminate Hl].
    - intros Hnil. rewrite Hnil in Hlen. cbn in Hlen.
      destruct G; [|cbn in Hlen; lia]. now destruct out. }
  split.
  { clear Hout Hlen Hne Hcov HG Hl.
    induction Hkey as [|g r' G' out' Hg Hrest IH]; [constructor|].
    apply StronglySorted_inv in Hd as [Hd' Hfa].
    constructor; [now apply IH|].
    clear IH Hd'. induction Hrest as [|g2 r2 G2 out2 Hg2 _ IH2]; constructor.
    - exists (fst g), (fst g2). repeat split; [exact Hg | exact Hg2|].
      now inversion Hfa.
    - apply IH2. now inversion Hfa. }
  intros r Hr. destruct (Hcov r Hr) as (v & g & Hv & Hg & Hrg & Hk).
  destruct (Forall2_In_l _ _ _ _ Hkey Hg) as (r' & Hr' & Hget).
  exists v, r', (fst g). repeat split; assumption.
Qed.

Lemma group_by_keys_witness :
  count (__init__ [[("k", VInt 1); ("c", VInt 2)]])
  <= count (__init__ [[("k", VInt 1); ("c", VInt 5)];
                      [("k", VFloat (PyFloat.of_Z 1)); ("c", VInt 7)]]).
Proof.
  apply (group_by_keys
           (__init__ [[("k", VInt 1); ("c", VInt 5)];
                      [("k", VFloat (PyFloat.of_Z 1)); ("c", VInt 7)]])
           (__init__ [[("k", VInt 1); ("c", VInt 2)]])
           "k" [("c", "count")]).
  - vm_compute. reflexivity.
  - cbn. intros [H|[]]. discriminate H.
Defined.

(** ** The pipeline *)


Lemma filter_rows_from (condition : row -> result bool) (rs kept : list row) :
  filter_rows condition rs = Ok kept ->
  (List.length kept <= List.length rs)%nat
  /\ forall r, In r kept -> In r rs /\ condition r = Ok true.
Proof.
  revert kept. induction rs as [|r0 rs IH]; intros kept H; simpl in H.
  - injection H as <-. split; [lia | intros r []].
  - destruct (condition r0) as [b|e] eqn:Hc; [|discriminate]. cbn [bind] in H.
    destruct (filter_rows condition rs) as [kept'|e]; [|discriminate].
    cbn [bind] in H. injection H as <-.
    destruct (IH _ eq_refl) as [Hlen Hin].
    destruct b; cbn [List.length]; (split; [lia|]); intros r Hr.
    + destruct Hr as [<-|Hr]; [split; [now left | exact Hc]|].
      destruct (Hin r Hr). split; [now right | assumption].
    + destruct (Hin r Hr). split; [now right | assumption].
Qed.



(** X20: the five tables [apply_pipeline] returns.  The first holds the
    rows given; the filtered one is never empty and holds only given rows,
    each accepted by the predicate and each with the artist column; the
    projected one has as many rows and exactly the four projected columns;
    the grouped one has at least one and at most as many rows as the
    filtered one; the sorted one holds the rows of the grouped one, and is
    the grouped one itself unless the sort choice is one of the two known
    ones. *)
Theorem pipeline_tables :
  forall (rs : list row)
         (pop_bucket genre_choice subgenre_choice : option string)
         (dance_bucket energy_bucket tempo_bucket live_bucket : option string)
         (month_label year_label sort_choice : option string)
         (df_raw df_filtered df_projected df_grouped df_sorted : DataFrame),
    apply_pipeline rs pop_bucket genre_choice subgenre_choice
                   dance_bucket energy_bucket tempo_bucket live_bucket
                   month_label year_label sort_choice
    = Ok (df_raw, df_filtered, df_projected, df_grouped, df_sorted) ->
    rows df_raw = rs
    /\ rows df_filtered <> []
    /\ (forall r, In r (rows df_filtered) ->
          In r rs
          /\ (exists artist, PyDict.get "track_artist" r = Some artist)
          /\ exists month_val year_val,
               month_to_int_or_any month_label = Ok month_val
               /\ parse_year_or_any year_label = Ok year_val
               /\ build_predicate (parse_range_or_any pop_bucket)
                    (choice_or_none genre_choice) (choice_or_none subgenre_choice)
                    (parse_range_or_any dance_bucket)
                    (parse_range_or_any energy_bucket)
                    (parse_range_or_any tempo_bucket)
                    (parse_range_or_any live_bucket)
                    month_val year_val r = Ok true)
    /\ columns df_projected = PROJECT_COLS
    /\ count df_projected = count df_filtered
    /\ 1 <= count df_grouped <= count df_filtered
    /\ Permutation (rows df_grouped) (rows df_sorted)
    /\ (df_sorted = df_grouped
        \/ sort_choice = Some "popularity" \/ sort_choice = Some "danceability").
Proof.
  intros rs pop genre sub dance energy tempo live month year sort_choice
         df_raw df_filtered df_projected df_grouped df_sorted H.
  unfold apply_pipeline in H.
  destruct (month_to_int_or_any month) as [mv|e] eqn:Hm; [|discriminate].
  destruct (parse_year_or_any year) as [yv|e] eqn:Hy; [|discriminate].
  cbn [bind] in H.
  destruct (Dataframe.filter _ _) as [filt|e] eqn:Hf; [|discriminate].
  cbn [bind] in H.
  destruct (project filt PROJECT_COLS) as [proj|e] eqn:Hp; [|discriminate].
  cbn [bind] in H.
  destruct (group_by filt "track_artist" agg_map) as [grp|e] eqn:Hg; [|discriminate].
  cbn [bind] in H.
  match type of H with
  | (x <- ?s ;; _) = _ => destruct s as [srt|e] eqn:Hs; [|discriminate]
  end.
  cbn [bind] in H. injection H as <- <- <- <- <-.
  unfold Dataframe.filter in Hf. cbn [rows __init__] in Hf.
  destruct (filter_rows _ rs) as [kept|e] eqn:Hk; [|discriminate].
  cbn [bind] in Hf. injection Hf as <-.
  destruct (filter_rows_from _ _ _ Hk) as [Hlen Hkept].
  assert (Hne : kept <> []).
  { intros ->. discriminate Hp. }
  (* the groups *)
  unfold group_by in Hg. cbn [rows __init__] in Hg.
  destruct (build_groups kept "track_artist" []) as [G|e] eqn:HG; [|discriminate].
  cbn [bind] in Hg.
  destruct (mapM _ G) as [out|e] eqn:Hout; [|discriminate].
  cbn [bind] in Hg. injection Hg as <-.
  destruct (build_groups_keys _ _ _ _ HG (SSorted_nil _)) as (_ & HlenG & HneG & Hcov).
  apply mapM_Forall2_length in Hout.
  (* the projection *)
  unfold project in Hp.
  destruct (check_columns PROJECT_COLS _) as [[]|e]; [|discriminate].
  cbn [bind rows __init__] in Hp.
  destruct (mapM _ kept) as [projected|e] eqn:Hproj; [|discriminate].
  cbn [bind] in Hp. injection Hp as <-.
  pose proof (mapM_Forall2_length _ _ _ Hproj) as Hlp.
  split; [reflexivity|]. split; [exact Hne|].
  split.
  { intros r Hr. destruct (Hkept r Hr) as [Hin Hacc].
    split; [exact Hin|]. split.
    - destruct (Hcov r Hr) as (v & _ & Hv & _). now exists v.
    - exists mv, yv. now repeat split. }
  split.
  { destruct kept as [|r0 kept']; [congruence|].
    cbn [mapM] in Hproj.
    destruct (project_row PROJECT_COLS r0 []) as [r0'|e] eqn:Hr0; [|discriminate].
    cbn [bind] in Hproj.
    destruct (mapM _ kept') as [rest|e]; [|discriminate].
    cbn [bind] in Hproj. injection Hproj as <-.
    cbn [columns __init__]. rewrite (project_row_keys _ _ _ _ Hr0). reflexivity. }
  split.
  { unfold count. cbn [rows __init__]. now rewrite Hlp. }
  split.
  { unfold count. cbn [rows __init__]. rewrite Hout.
    cbn [List.length Nat.add] in HlenG.
    assert (G <> []) by (now apply HneG).
    destruct G as [|g G']; [congruence|]. cbn [List.length] in *. lia. }
  destruct sort_choice as [c|].
  - destruct (String.eqb_spec c "popularity") as [->|Hc1].
    + split; [|right; now left].
      unfold sort_by in Hs.
      destruct (negb _); [discriminate|].
      destruct (sorted _ _ _) as [s|e] eqn:Hsorted; [|discriminate].
      cbn [bind] in Hs. injection Hs as <-. cbn [rows __init__].
      exact (proj1 (sorted_nulls _ _ _ _ Hsorted)).
    + destruct (String.eqb_spec c "danceability") as [->|Hc2].
      * split; [|right; now right].
        unfold sort_by in Hs.
        destruct (negb _); [discriminate|].
        destruct (sorted _ _ _) as [s|e] eqn:Hsorted; [|discriminate].
        cbn [bind] in Hs. injection Hs as <-. cbn [rows __init__].
        exact (proj1 (sorted_nulls _ _ _ _ Hsorted)).
      * injection Hs as <-. split; [apply Permutation_refl | now left].
  - injection Hs as <-. split; [apply Permutation_refl | now left].
Qed.

Lemma pipeline_tables_witness :
  rows (__init__ [[("track_name", VStr "n"); ("track_artist", VStr "a");
                   ("track_album_name", VStr "b");
                   ("track_album_release_date", VStr "2020-01-15");
                   ("track_popularity", VInt 50); ("danceability", VInt 1)]])
  = [[("track_name", VStr "n"); ("track_artist", VStr "a");
      ("track_album_name", VStr "b");
      ("track_album_release_date", VStr "2020-01-15");
      ("track_popularity", VInt 50); ("danceability", VInt 1)]].
Proof.
  pose (r := [("track_name", VStr "n"); ("track_artist", VStr "a");
              ("track_album_name", VStr "b");
              ("track_album_release_date", VStr "2020-01-15");
              ("track_popularity", VInt 50); ("danceability", VInt 1)] : row).
  apply (pipeline_tables [r] (Some "50-60") None None None None None None
           (Some "Jan (1)") (Some "2020") (Some "popularity")
           (__init__ [r]) (__init__ [r])
           (__init__ [[("track_name", VStr "n"); ("track_artist", VStr "a");
                       ("track_album_name", VStr "b");
                       ("track_album_release_date", VStr "2020-01-15")]])
           (__init__ [[("track_artist", VStr "a");
                       ("track_popularity", VInt 50);
                       ("danceability", VInt 1)]])
           (__init__ [[("track_artist", VStr "a");
                       ("track_popularity", VInt 50);
                       ("danceability", VInt 1)]])).
  vm_compute. reflexivity.
Defined.

(** ** Edges of consecutive buckets *)

Lemma xnum_eqb_eq (a b : PyNum.xnum) :
  PyNum.xnum_eqb a b = true -> a = b /\ a <> PyNum.XNaN.
Proof.
  destruct a as [|s1|m1 e1], b as [|s2|m2 e2]; cbn; try discriminate.
  - intros H. apply Bool.eqb_prop in H as ->. split; [reflexivity | discriminate].
  - intros H. apply andb_true_iff in H as [Hm He].
    apply Z.eqb_eq in Hm as ->. apply Z.eqb_eq in He as ->.
    split; [reflexivity | discriminate].
Qed.

Lemma xleb_refl (a : PyNum.xnum) : a <> PyNum.XNaN -> PyNum.xleb a a = true.
Proof.
  destruct a as [|s|m e]; intros Hn; [congruence| |]; unfold PyNum.xleb; cbn.
  - now destruct s.
  - now rewrite Z.compare_refl.
Qed.

Lemma xltb_not_xleb (a b : PyNum.xnum) :
  PyNum.xltb a b = true -> PyNum.xleb b a = false.
Proof.
  unfold PyNum.xltb, PyNum.xleb. rewrite (xcompare_antisym a b).
  destruct (PyNum.xcompare a b) as [[| |]|]; cbn; congruence.
Qed.

Lemma py_eq_number (t : value) (f : PyFloat.float) :
  py_eq t (VFloat f) = true ->
  is_number t = true /\ exact t = PyNum.of_float f /\ exact t <> PyNum.XNaN.
Proof.
  destruct t as [|z|g|s]; cbn [py_eq]; try discriminate; intros H;
    apply xnum_eqb_eq in H as [He Hn]; cbn [exact] in *; now repeat split.
Qed.

(** X21: two consecutive buckets never both admit a value when the lower
    one is half-open: what [in_bucket] admits to [low, mid) it rejects
    from the bucket that starts at [mid], whether that one includes its
    upper bound or not. *)
Theorem half_open_buckets_disjoint :
  forall (val : value) (low mid high : PyFloat.float) (top_inclusive : bool),
    in_bucket val (low, mid) false = Ok true ->
    in_bucket val (mid, high) top_inclusive = Ok false.
Proof.
  intros val low mid high top H.
  apply in_bucket_true_iff in H. unfold in_interval in H.
  apply andb_true_iff in H as [H Hlt]. apply andb_true_iff in H as [Hnum _].
  apply xltb_not_xleb in Hlt.
  pose proof (in_bucket_spec val mid high top) as Hs.
  destruct val as [|z|f|s]; try discriminate Hnum;
    rewrite Hs; unfold in_interval; rewrite Hlt; reflexivity.
Qed.

Lemma half_open_buckets_disjoint_witness :
  in_bucket (VInt 15) (PyFloat.of_Z 20, PyFloat.of_Z 30) false = Ok false.
Proof.
  apply (half_open_buckets_disjoint (VInt 15) (PyFloat.of_Z 10) (PyFloat.of_Z 20)
           (PyFloat.of_Z 30) false).
  vm_compute. reflexivity.
Defined.

(** X22: the tempo constraint always includes the upper bound, so two
    consecutive tempo ranges overlap at their shared edge: a row whose
    tempo equals the edge is accepted by the predicate of the range that
    ends there and by the predicate of the range that starts there. *)
Theorem tempo_edge_in_both_ranges :
  forall (r : row) (low mid high : PyFloat.float),
    py_eq (row_get r "tempo") (VFloat mid) = true ->
    py_le (VFloat low) (VFloat mid) = Ok true ->
    py_le (VFloat mid) (VFloat high) = Ok true ->
    build_predicate None None None None None (Some (low, mid)) None None None r = Ok true
    /\ build_predicate None None None None None (Some (mid, high)) None None None r
       = Ok true.
Proof.
  intros r low mid high Heq Hlo Hhi.
  apply py_eq_number in Heq as (Hnum & Hex & Hn).
  cbn [py_le exact] in Hlo, Hhi.
  injection Hlo as Hlo. injection Hhi as Hhi.
  assert (Hin : forall a b,
             PyNum.xleb (PyNum.of_float a) (PyNum.of_float mid) = true ->
             PyNum.xleb (PyNum.of_float mid) (PyNum.of_float b) = true ->
             in_bucket (row_get r "tempo") (a, b) true = Ok true).
  { intros a b Ha Hb. apply in_bucket_true_iff. unfold in_interval.
    rewrite Hnum, Hex, Ha, Hb. reflexivity. }
  rewrite Hex in Hn.
  split; apply predicate_true_iff; repeat split; unfold range_rejects.
  - rewrite (Hin low mid Hlo (xleb_refl _ Hn)). reflexivity.
  - rewrite (Hin mid high (xleb_refl _ Hn) Hhi). reflexivity.
Qed.

Lemma tempo_edge_in_both_ranges_witness :
  build_predicate None None None None None
                  (Some (PyFloat.of_Z 100, PyFloat.of_Z 120)) None None None
                  [("tempo", VInt 120)] = Ok true
  /\ build_predicate None None None None None
                     (Some (PyFloat.of_Z 120, PyFloat.of_Z 140)) None None None
                     [("tempo", VInt 120)] = Ok true.
Proof.
  apply (tempo_edge_in_both_ranges [("tempo", VInt 120)]
           (PyFloat.of_Z 100) (PyFloat.of_Z 120) (PyFloat.of_Z 140));
    vm_compute; reflexivity.
Defined.

(** ** Option lists *)

Lemma set_add_In (x v : value) (s : list value) :
  In v (set_add x s) -> In v s \/ (v = x /\ existsb (py_eq x) s = false).
Proof.
  unfold set_add. destruct (existsb (py_eq x) s); [now left|].
  intros H. apply in_app_or in H as [H|[<-|[]]]; [now left | now right].
Qed.

Lemma set_add_mono (x v : value) (s : list value) : In v s -> In v (set_add x s).
Proof.
  unfold set_add. destruct (existsb (py_eq x) s); [easy|].
  intros H. apply in_or_app. now left.
Qed.

Lemma set_add_has (x : value) (s : list value) :
  exists v, In v (set_add x s) /\ (v = x \/ py_eq v x = true).
Proof.
  unfold set_add. destruct (existsb (py_eq x) s) eqn:H.
  - apply existsb_exists in H as (v & Hv & He). exists v.
    split; [exact Hv | right; now rewrite py_eq_sym].
  - exists x. split; [apply in_or_app; right; now left | now left].
Qed.

Lemma set_of_from (f : row -> value) (keep : row -> bool) (rs : list row)
      (acc : list value) (v : value) :
  In v (set_of f keep rs acc) ->
  In v acc \/ exists r, In r rs /\ keep r = true /\ f r = v.
Proof.
  revert acc. induction rs as [|r0 rs IH]; intros acc H; simpl in H; [now left|].
  apply IH in H as [H|(r & Hr & Hk & Hf)].
  - destruct (keep r0) eqn:Hk; [|now left].
    apply set_add_In in H as [H|[-> _]]; [now left|].
    right. exists r0. split; [now left | now split].
  - right. exists r. split; [now right | now split].
Qed.

Lemma set_of_mono (f : row -> value) (keep : row -> bool) (rs : list row)
      (acc : list value) (v : value) :
  In v acc -> In v (set_of f keep rs acc).
Proof.
  revert acc. induction rs as [|r0 rs IH]; intros acc H; simpl; [exact H|].
  apply IH. destruct (keep r0); [now apply set_add_mono | exact H].
Qed.

Lemma set_of_covers (f : row -> value) (keep : row -> bool) (rs : list row)
      (acc : list value) (r : row) :
  In r rs -> keep r = true ->
  exists v, In v (set_of f keep rs acc) /\ (v = f r \/ py_eq v (f r) = true).
Proof.
  revert acc. induction rs as [|r0 rs IH]; intros acc Hin Hk; [contradiction|].
  simpl. destruct Hin as [->|Hin]; [|now apply IH].
  rewrite Hk. destruct (set_add_has (f r) acc) as (v & Hv & He).
  exists v. split; [now apply set_of_mono | exact He].
Qed.

Lemma set_add_distinct (x : value) (s : list value) :
  ForallOrdPairs (fun a b => py_eq a b = false) s ->
  ForallOrdPairs (fun a b => py_eq a b = false) (set_add x s).
Proof.
  unfold set_add. destruct (existsb (py_eq x) s) eqn:Hx; [easy|].
  induction s as [|a s IH]; intros H; cbn [app].
  - repeat constructor.
  - cbn [existsb] in Hx. apply orb_false_iff in Hx as [Hxa Hxs].
    inversion H as [|a' s' Ha Hs]; subst.
    constructor; [|now apply IH].
    apply Forall_app. split; [exact Ha|].
    constructor; [now rewrite py_eq_sym | constructor].
Qed.

Lemma set_of_distinct (f : row -> value) (keep : row -> bool) (rs : list row)
      (acc : list value) :
  ForallOrdPairs (fun a b => py_eq a b = false) acc ->
  ForallOrdPairs (fun a b => py_eq a b = false) (set_of f keep rs acc).
Proof.
  revert acc. induction rs as [|r0 rs IH]; intros acc H; simpl; [exact H|].
  apply IH. destruct (keep r0); [now apply set_add_distinct | exact H].
Qed.

Lemma distinct_perm (l l' : list value) :
  Permutation l l' ->
  ForallOrdPairs (fun a b => py_eq a b = false) l ->
  ForallOrdPairs (fun a b => py_eq a b = false) l'.
Proof.
  induction 1 as [|x l l' Hp IH|x y l|l l' l'' _ IH1 _ IH2]; intros H.
  - exact H.
  - inversion H as [|a s Ha Hs]; subst.
    constructor; [exact (Permutation_Forall Hp Ha) | now apply IH].
  - inversion H as [|a s Ha Hs]; subst. inversion Hs as [|b t Hb Ht]; subst.
    inversion Ha as [|c u Hyx Hyl]; subst.
    constructor; [constructor; [now rewrite py_eq_sym | exact Hb]|].
    constructor; assumption.
  - auto.
Qed.

Lemma distinct_adjacent (l : list value) (a b : value) :
  ForallOrdPairs (fun a b => py_eq a b = false) l -> adjacent l a b -> py_eq a b = false.
Proof.
  intros H (l1 & l2 & ->). induction l1 as [|x l1 IH]; cbn [app] in H.
  - inversion H as [|a' s Ha _]; subst. now inversion Ha.
  - inversion H; subst. now apply IH.
Qed.

Lemma insert_value_perm (x : value) (l l' : list value) :
  insert_value x l = Ok l' -> Permutation (x :: l) l'.
Proof.
  revert l'. induction l as [|y rest IH]; intros l' H; simpl in H.
  - injection H as <-. apply Permutation_refl.
  - destruct (py_lt y x) as [[|]|e]; cbn [bind] in H; try discriminate.
    + destruct (insert_value x rest) as [rest'|e]; [|discriminate].
      cbn [bind] in H. injection H as <-.
      apply perm_trans with (y :: x :: rest); [apply perm_swap|].
      apply perm_skip. now apply IH.
    + injection H as <-. apply Permutation_refl.
Qed.

Lemma sorted_values_perm (l l' : list value) :
  sorted_values l = Ok l' -> Permutation l l'.
Proof.
  revert l'. induction l as [|x rest IH]; intros l' H; simpl in H.
  - injection H as <-. constructor.
  - destruct (sorted_values rest) as [s|e]; [|discriminate]. cbn [bind] in H.
    apply perm_trans with (x :: s); [apply perm_skip; now apply IH|].
    now apply insert_value_perm.
Qed.

Lemma insert_value_in_order (x : value) (l l' : list value) :
  Sorted (fun a b => py_lt b a = Ok false) l -> insert_value x l = Ok l' ->
  Sorted (fun a b => py_lt b a = Ok false) l'.
Proof.
  revert l'. induction l as [|y rest IH]; intros l' Hs H; simpl in H.
  - injection H as <-. repeat constructor.
  - apply Sorted_inv in Hs as [Hrest Hy].
    destruct (py_lt y x) as [[|]|e] eqn:Hlt; cbn [bind] in H; try discriminate.
    + destruct (insert_value x rest) as [rest'|e] eqn:Hins; [|discriminate].
      cbn [bind] in H. injection H as <-.
      constructor; [now apply IH|].
      destruct rest as [|z rest2]; simpl in Hins.
      * injection Hins as <-. constructor. now apply py_lt_asym.
      * destruct (py_lt z x) as [[|]|e]; cbn [bind] in Hins; try discriminate.
        -- destruct (insert_value x rest2); [|discriminate]. cbn [bind] in Hins.
           injection Hins as <-. constructor. now inversion Hy.
        -- injection Hins as <-. constructor. now apply py_lt_asym.
    + injection H as <-. constructor; [now constructor|]. constructor. exact Hlt.
Qed.

Lemma sorted_values_in_order (l l' : list value) :
  sorted_values l = Ok l' -> Sorted (fun a b => py_lt b a = Ok false) l'.
Proof.
  revert l'. induction l as [|x rest IH]; intros l' H; simpl in H.
  - injection H as <-. constructor.
  - destruct (sorted_values rest) as [s|e]; [|discriminate]. cbn [bind] in H.
    eapply insert_value_in_order; [|exact H]. now apply IH.
Qed.

Lemma not_blank_spec (v : value) :
  not_blank v = true <-> v <> VNone /\ v <> VStr EmptyString.
Proof.
  unfold not_blank. destruct v as [|z|f|s]; cbn.
  - split; [discriminate | intros [H _]; congruence].
  - split; [intros _; split; discriminate | reflexivity].
  - split; [intros _; split; discriminate | reflexivity].
  - destruct s; cbn.
    + split; [discriminate | intros [_ H]; congruence].
    + split; [intros _; split; discriminate | reflexivity].
Qed.

Lemma sorted_set_values (f : row -> value) (keep : row -> bool) (rs : list row)
      (out : list value) :
  sorted_values (set_of f keep rs []) = Ok out ->
  (forall v, In v out -> exists r, In r rs /\ keep r = true /\ f r = v)
  /\ (forall r, In r rs -> keep r = true ->
        exists v, In v out /\ (v = f r \/ py_eq v (f r) = true))
  /\ ForallOrdPairs (fun a b => py_eq a b = false) out
  /\ (forall a b, adjacent out a b -> py_lt b a = Ok false)
  /\ forall s t, adjacent out (VStr s) (VStr t) -> String.ltb s t = true.
Proof.
  intros H. pose proof (sorted_values_perm _ _ H) as Hp.
  pose proof (sorted_values_in_order _ _ H) as Hs.
  assert (Hd : ForallOrdPairs (fun a b => py_eq a b = false) out).
  { apply (distinct_perm _ _ Hp). apply set_of_distinct. constructor. }
  split.
  { intros v Hv. apply (Permutation_in _ (Permutation_sym Hp)) in Hv.
    apply set_of_from in Hv as [[]|Hv]. exact Hv. }
  split.
  { intros r Hr Hk. destruct (set_of_covers f keep rs [] r Hr Hk) as (v & Hv & He).
    exists v. split; [exact (Permutation_in _ Hp Hv) | exact He]. }
  split; [exact Hd|]. split.
  { intros a b Hab. exact (Sorted_adjacent _ _ _ _ Hs Hab). }
  intros s t Hst.
  pose proof (Sorted_adjacent _ _ _ _ Hs Hst) as Hlt. cbn in Hlt.
  pose proof (distinct_adjacent _ _ _ Hd Hst) as Hne. cbn in Hne.
  injection Hlt as Hlt. now apply string_ltb_total.
Qed.

(** X23: the values [unique_non_null] returns for a column.  Each is
    neither [None] nor the empty text and is the cell of some row; every
    row whose cell is neither is represented by its cell or by a value
    equal to it; no two results are equal; no result is below the one
    before it, and of two consecutive texts the later one is strictly
    above. *)
Theorem unique_non_null_values :
  forall (rs : list row) (col : string) (out : list value),
    unique_non_null rs col = Ok out ->
    (forall v, In v out ->
       v <> VNone /\ v <> VStr EmptyString /\ exists r, In r rs /\ row_get r col = v)
    /\ (forall r, In r rs ->
          row_get r col = VNone \/ row_get r col = VStr EmptyString
          \/ exists v, In v out /\ (v = row_get r col \/ py_eq v (row_get r col) = true))
    /\ ForallOrdPairs (fun a b => py_eq a b = false) out
    /\ (forall a b, adjacent out a b -> py_lt b a = Ok false)
    /\ forall s t, adjacent out (VStr s) (VStr t) -> String.ltb s t = true.
Proof.
  intros rs col out H. unfold unique_non_null in H.
  apply sorted_set_values in H as (Hfrom & Hcov & Hd & Hord & Hstr).
  split.
  { intros v Hv. destruct (Hfrom v Hv) as (r & Hr & Hk & Hf).
    rewrite Hf in Hk. apply not_blank_spec in Hk as [H1 H2].
    split; [exact H1|]. split; [exact H2|]. now exists r. }
  split.
  { intros r Hr. destruct (not_blank (row_get r col)) eqn:Hk.
    - right. right. now apply Hcov.
    - destruct (row_get r col) as [|z|f|s]; try discriminate Hk; [now left|].
      destruct s; [right; now left | discriminate Hk]. }
  now repeat split.
Qed.

Lemma unique_non_null_values_witness :
  ForallOrdPairs (fun a b => py_eq a b = false) [VStr "pop"; VStr "rock"].
Proof.
  refine (proj1 (proj2 (proj2 (unique_non_null_values
           [[("g", VStr "rock")]; [("g", VNone)]; [("g", VStr "pop")];
            [("g", VStr "rock")]; [("g", VStr EmptyString)]]
           "g" [VStr "pop"; VStr "rock"] _)))).
  vm_compute. reflexivity.
Defined.

(** X24: the subgenres [subgenres_for_genre] offers.  Without a genre
    (unset or empty) there is none; otherwise each one is a non-blank
    subgenre cell of a row of that genre, every such cell is represented
    by an equal result, no two results are equal and consecutive texts are
    in strictly increasing order. *)
Theorem subgenres_of_genre :
  forall (rs : list row) (genre : option string) (out : list value),
    subgenres_for_genre rs genre = Ok out ->
    (forall v, In v out ->
       v <> VNone /\ v <> VStr EmptyString
       /\ exists g r, genre = Some g /\ g <> EmptyString /\ In r rs
                      /\ row_get r "playlist_genre" = VStr g
                      /\ row_get r "playlist_subgenre" = v)
    /\ (forall g r, genre = Some g -> g <> EmptyString -> In r rs ->
          row_get r "playlist_genre" = VStr g ->
          row_get r "playlist_subgenre" = VNone
          \/ row_get r "playlist_subgenre" = VStr EmptyString
          \/ exists v, In v out
                       /\ (v = row_get r "playlist_subgenre"
                           \/ py_eq v (row_get r "playlist_subgenre") = true))
    /\ ForallOrdPairs (fun a b => py_eq a b = false) out
    /\ forall s t, adjacent out (VStr s) (VStr t) -> String.ltb s t = true.
Proof.
  intros rs genre out H. unfold subgenres_for_genre in H.
  assert (Hempty : out = [] ->
            (forall v, In v out ->
               v <> VNone /\ v <> VStr EmptyString
               /\ exists g r, genre = Some g /\ g <> EmptyString /\ In r rs
                              /\ row_get r "playlist_genre" = VStr g
                              /\ row_get r "playlist_subgenre" = v)
            /\ ForallOrdPairs (fun a b => py_eq a b = false) out
            /\ forall s t, adjacent out (VStr s) (VStr t) -> String.ltb s t = true).
  { intros ->. split; [intros v []|]. split; [constructor|].
    intros s t (l1 & l2 & Hl). now destruct l1. }
  destruct genre as [g|].
  2:{ injection H as <-. destruct (Hempty eq_refl) as (H1 & H2 & H3).
      repeat split; try assumption; try (now apply H1). discriminate. }
  destruct g as [|c g'].
  { injection H as <-. destruct (Hempty eq_refl) as (H1 & H2 & H3).
    split; [exact H1|]. split; [|now split].
    intros g r Hg Hne. injection Hg as <-. congruence. }
  cbn [PyStr.nonempty negb] in H.
  apply sorted_set_values in H as (Hfrom & Hcov & Hd & _ & Hstr).
  split.
  { intros v Hv. destruct (Hfrom v Hv) as (r & Hr & Hk & Hf).
    apply andb_true_iff in Hk as [Hg Hk].
    rewrite Hf in Hk. apply not_blank_spec in Hk as [H1 H2].
    split; [exact H1|]. split; [exact H2|].
    exists (String c g'), r. split; [reflexivity|]. split; [discriminate|].
    split; [exact Hr|]. split; [|exact Hf].
    destruct (row_get r "playlist_genre") as [|z|f|s]; try discriminate Hg.
    cbn [py_eq] in Hg. apply String.eqb_eq in Hg. now subst. }
  split; [|now split].
  intros g r Hg _ Hr Hgenre. injection Hg as <-.
  destruct (not_blank (row_get r "playlist_subgenre")) eqn:Hk.
  - right. right. apply Hcov; [exact Hr|].
    rewrite Hgenre, Hk. cbn [py_eq]. now rewrite String.eqb_refl.
  - destruct (row_get r "playlist_subgenre") as [|z|f|s]; try discriminate Hk;
      [now left|].
    destruct s; [right; now left | discriminate Hk].
Qed.

Lemma subgenres_of_genre_witness :
  ForallOrdPairs (fun a b => py_eq a b = false) [VStr "dance pop"; VStr "electropop"].
Proof.
  refine (proj1 (proj2 (proj2 (subgenres_of_genre
           [[("playlist_genre", VStr "pop"); ("playlist_subgenre", VStr "electropop")];
            [("playlist_genre", VStr "rock"); ("playlist_subgenre", VStr "album rock")];
            [("playlist_genre", VStr "pop"); ("playlist_subgenre", VStr "dance pop")];
            [("playlist_genre", VStr "pop"); ("playlist_subgenre", VNone)]]
           (Some "pop") [VStr "dance pop"; VStr "electropop"] _)))).
  vm_compute. reflexivity.
Defined.
